(** * The signal-derivation pipeline of the crypto news terminal (src/App.tsx)

    A shallow embedding of the data-transforming code of [App.tsx]:
    [cleanSummary], [classifyCategory], [CATEGORY_ASSET_MAP] and the four
    effects of [App] ([loadNews], [loadCorrelatedMoves], [loadMacro] and the
    trade idea engine), followed by the properties the specification states
    about them.

    Modelling conventions.
    - A JavaScript string is a [string]; its characters are the code units
      U+0000..U+00FF.  String constants of the source are carried as they are.
    - A JavaScript number is a rational [Q], the value of the double.
      Comparisons with the thresholds of the source are exact on such values.
      The sums of [loadMacro] round on doubles: the macro regime is given a
      second time on IEEE 754 binary64 numbers ([Float64], [macroOf64]).
    - [Math.random()] is an oracle [nat -> Q]: the k-th call of a stage
      returns [rnd k], a value r with 0 <= r < 1.
    - A JSON field that may be absent is an [option]; the JSON object returned
      by the price endpoint is a finite map from asset id to its entry.
    - An effect that ends without calling its state setter returns [None]. *)

From Stdlib Require Import String Ascii List ZArith NArith QArith Qround Qabs Lia Bool.
From Stdlib Require Import DecimalString DecimalPos DecimalN Lqa.
From Stdlib Require Import Floats.SpecFloat Qpower.
From stdpp Require Import base gmap strings.
Import ListNotations.
Open Scope string_scope.

(* ================================================================== *)
(** * Part I: definitions                                               *)
(* ================================================================== *)

(** ** JavaScript primitives used by the source *)

Module JS.

(** [\s] of a regular expression and the characters removed by [trim()]:
    TAB, LF, VT, FF, CR, SPACE and NBSP among the code units below 256. *)
Definition is_space (c : ascii) : bool :=
  let n := N_of_ascii c in
  ((9 <=? n) && (n <=? 13) || (n =? 32) || (n =? 160))%N.

(** [a || b] where [a] is a string or absent: the empty string is falsy. *)
Definition or_else (a : option string) (b : string) : string :=
  match a with
  | Some s => if (s =? "")%string then b else s
  | None => b
  end.

(** [s || b] for a value that is a string. *)
Definition or_str (s b : string) : string :=
  if (s =? "")%string then b else s.

(** The rest of [s] after the literal [p], when [s] starts with [p]. *)
Fixpoint after_prefix (p s : string) : option string :=
  match p with
  | EmptyString => Some s
  | String a p' =>
      match s with
      | EmptyString => None
      | String b s' => if Ascii.eqb a b then after_prefix p' s' else None
      end
  end.

Definition starts_with (p s : string) : bool :=
  match after_prefix p s with Some _ => true | None => false end.

(** [s.includes(p)] *)
Fixpoint includes (p s : string) : bool :=
  starts_with p s ||
  match s with
  | EmptyString => false
  | String _ s' => includes p s'
  end.

Definition lower_char (c : ascii) : ascii :=
  let n := N_of_ascii c in
  if ((65 <=? n) && (n <=? 90) || (192 <=? n) && (n <=? 214) || (216 <=? n) && (n <=? 222))%N
  then ascii_of_N (n + 32) else c.

(** [s.toLowerCase()] *)
Fixpoint toLowerCase (s : string) : string :=
  match s with
  | EmptyString => EmptyString
  | String c s' => String (lower_char c) (toLowerCase s')
  end.

Fixpoint trimStart (s : string) : string :=
  match s with
  | EmptyString => EmptyString
  | String c s' => if is_space c then trimStart s' else s
  end.

Fixpoint trimEnd (s : string) : string :=
  match s with
  | EmptyString => EmptyString
  | String c s' =>
      let r := trimEnd s' in
      if is_space c && (r =? "")%string then EmptyString else String c r
  end.

(** [s.trim()] *)
Definition trim (s : string) : string := trimEnd (trimStart s).

(** *** The three regular-expression replacements of [cleanSummary]

    Each [replace(/re/g, r)] scans the string from the left; at a position
    where [re] matches, the (greedy) match is replaced and the scan goes on
    behind it, otherwise the character is kept.  The scans are written as
    one pass with a flag that says whether the scan is inside a match. *)

Fixpoint contains_char (x : ascii) (s : string) : bool :=
  match s with
  | EmptyString => false
  | String c s' => Ascii.eqb c x || contains_char x s'
  end.

(** [/<[^>]+>/] matches at the head of [s]: a ["<"], at least one
    character other than [">"], and a [">"] somewhere behind. *)
Definition tag_at (s : string) : bool :=
  match s with
  | String c (String d r) =>
      Ascii.eqb c "<" && negb (Ascii.eqb d ">") && contains_char ">" r
  | _ => false
  end.

(** [s.replace(/<[^>]+>/g, "")]; [inside] holds between the ["<"] of a
    match and its closing [">"], which is the first [">"] behind it. *)
Fixpoint strip_tags_from (inside : bool) (s : string) : string :=
  match s with
  | EmptyString => EmptyString
  | String c s' =>
      if inside then
        if Ascii.eqb c ">" then strip_tags_from false s'
        else strip_tags_from true s'
      else if tag_at s then strip_tags_from true s'
      else String c (strip_tags_from false s')
  end.

Definition strip_tags : string -> string := strip_tags_from false.

Definition nonspace_head (s : string) : bool :=
  match s with
  | EmptyString => false
  | String c _ => negb (is_space c)
  end.

(** [/https?:\/\/\S+/] matches at the head of [s]. *)
Definition url_at (s : string) : bool :=
  match after_prefix "https://" s with
  | Some r => nonspace_head r
  | None =>
      match after_prefix "http://" s with
      | Some r => nonspace_head r
      | None => false
      end
  end.

(** [s.replace(/https?:\/\/\S+/g, "")]; a match runs up to the next
    white-space character (or the end), [inside] holds until then. *)
Fixpoint strip_urls_from (inside : bool) (s : string) : string :=
  match s with
  | EmptyString => EmptyString
  | String c s' =>
      if inside then
        if is_space c then String c (strip_urls_from false s')
        else strip_urls_from true s'
      else if url_at s then strip_urls_from true s'
      else String c (strip_urls_from false s')
  end.

Definition strip_urls : string -> string := strip_urls_from false.

(** [s.replace(/\s+/g, " ")]; [inside] holds within a white-space run. *)
Fixpoint collapse_ws_from (inside : bool) (s : string) : string :=
  match s with
  | EmptyString => EmptyString
  | String c s' =>
      if is_space c then
        if inside then collapse_ws_from true s'
        else String " " (collapse_ws_from true s')
      else String c (collapse_ws_from false s')
  end.

Definition collapse_ws : string -> string := collapse_ws_from false.

End JS.

(** ** The DOM, as far as [cleanSummary] uses it *)

(** The [div] after [div.innerHTML = html]. *)
Record Element := { textContent : string; innerText : string }.

(** [window.document]: creating the [div] and assigning its [innerHTML];
    [None] when that throws. *)
Definition Document := string -> option Element.

(** ** [cleanSummary] (App.tsx, lines 40-59) *)

Definition NO_SUMMARY : string := "No summary available.".

(** The tail shared by both paths: remove URLs, collapse white space, trim,
    fall back to the sentinel when nothing is left. *)
Definition cleanText (text : string) : string :=
  let text := JS.strip_urls text in
  JS.or_str (JS.trim (JS.collapse_ws text)) NO_SUMMARY.

(** [window] is [None] where there is no [window.document]; [html] is [None]
    for a value that is not a string. *)
Definition cleanSummary (window : option Document) (html : option string) : string :=
  match html with
  | None => NO_SUMMARY
  | Some html =>
      if (html =? "")%string then NO_SUMMARY
      else
        let regexPath := cleanText (JS.strip_tags html) in
        match window with
        | Some document =>
            match document html with
            | Some div =>
                cleanText (JS.or_str (textContent div) (JS.or_str (innerText div) ""))
            | None => regexPath
            end
        | None => regexPath
        end
  end.

(** ** [classifyCategory] (App.tsx, lines 62-73) *)

Inductive Category := AI | Layer2 | LST | Gaming | DeFi | Solana | Stable | General.

Definition categoryName (c : Category) : string :=
  match c with
  | AI => "AI" | Layer2 => "Layer2" | LST => "LST" | Gaming => "Gaming"
  | DeFi => "DeFi" | Solana => "Solana" | Stable => "Stable" | General => "General"
  end.

Definition classifyCategory (text : string) : Category :=
  if (text =? "")%string then General
  else
    let t := JS.toLowerCase text in
    if JS.includes "ai" t || JS.includes "machine learning" t || JS.includes "nvidia" t then AI
    else if JS.includes "layer 2" t || JS.includes "scaling" t || JS.includes "l2" t
            || JS.includes "rollup" t then Layer2
    else if JS.includes "staking" t || JS.includes "liquid staking" t
            || JS.includes "restaking" t then LST
    else if JS.includes "nft" t || JS.includes "gaming" t || JS.includes "metaverse" t then Gaming
    else if JS.includes "defi" t || JS.includes "dex" t || JS.includes "uniswap" t
            || JS.includes "aave" t then DeFi
    else if JS.includes "solana" t || JS.includes "sol" t then Solana
    else if JS.includes "stablecoin" t || JS.includes "usdt" t || JS.includes "usdc" t then Stable
    else General.

(** ** Numbers *)

Module Num.

(** [a > b] and [a < b] on numbers. *)
Definition gt (a b : Q) : bool := negb (Qle_bool a b).
Definition lt (a b : Q) : bool := negb (Qle_bool b a).

Definition pow10 (f : nat) : Q := inject_Z (10 ^ Z.of_nat f).

(** The decimal digits of a natural number, without leading zeros. *)
Definition decimal (n : N) : string := NilZero.string_of_uint (N.to_uint n).

Definition digit_char (n : N) : ascii := ascii_of_N (48 + n mod 10).

(** The last [f] decimal digits of [n], padded with zeros on the left. *)
Fixpoint low_digits (f : nat) (n : N) : string :=
  match f with
  | O => EmptyString
  | S f' => low_digits f' (n / 10) ++ String (digit_char n) EmptyString
  end.

(** The integer nearest to [x * 10^f] for [x >= 0], the larger one of two. *)
Definition scaled (f : nat) (x : Q) : N :=
  Z.to_N (Qfloor (x * pow10 f + (1 # 2))).

(** [x.toFixed(f)] (ECMAScript Number.prototype.toFixed) for a finite [x].
    From 10^21 on the digits are those of [Number::toString], which is
    taken as the parameter [numberToString]. *)
Definition toFixed (numberToString : Q -> string) (f : nat) (x : Q) : string :=
  let s := if lt x 0 then "-" else "" in
  let x := Qabs x in
  let m :=
    if Qle_bool (inject_Z (10 ^ 21)) x then numberToString x
    else
      let n := scaled f x in
      match f with
      | O => decimal n
      | S _ => decimal (n / 10 ^ N.of_nat f) ++ "." ++ low_digits f n
      end in
  s ++ m.

(** [xs[Math.floor(r * xs.length)]]; [r] comes from [Math.random()].  The
    product is taken on the values: the rounding of the double product is
    not modelled. *)
Definition pick (xs : list string) (r : Q) : string :=
  nth (Z.to_nat (Qfloor (r * inject_Z (Z.of_nat (length xs))))) xs "undefined".

End Num.

(** ** The data of the pipeline *)

Record Endpoint := { name : string; url : string }.

Definition EXCHANGE_NEWS_ENDPOINTS : list Endpoint :=
  [ {| name := "Binance";
       url := "https://api.rss2json.com/v1/api.json?rss_url=https://www.binance.com/en/support/announcement/rss" |};
    {| name := "Bybit";
       url := "https://api.rss2json.com/v1/api.json?rss_url=https://announcements.bybit.com/en-US/rss" |};
    {| name := "OKX";
       url := "https://api.rss2json.com/v1/api.json?rss_url=https://www.okx.com/help/announcement/rss" |};
    {| name := "Cointelegraph";
       url := "https://api.rss2json.com/v1/api.json?rss_url=https://cointelegraph.com/rss" |};
    {| name := "Coindesk";
       url := "https://api.rss2json.com/v1/api.json?rss_url=https://www.coindesk.com/arc/outboundfeeds/rss/" |} ].

(** An item of a feed, as rss2json returns it; every field may be absent. *)
Module Raw.
Record item := {
  title : option string;
  description : option string;
  pubDate : option string;
  guid : option string;
  link : option string
}.
End Raw.

(** The JSON of one feed; [items] is [None] when it is not an array. *)
Record Payload := { items : option (list Raw.item) }.

(** An entry of [liveNews]. *)
Module News.
Record item := {
  id : string;
  title : string;
  source : string;
  timeAgo : string;
  impact : string;
  sentiment : string;
  priceMove : string;
  category : Category;
  summary : string;
  tags : list string
}.
End News.

(** An entry of the price endpoint's answer. *)
Record PriceInfo := {
  usd : option Q;
  usd_24h_change : option Q;
  usd_24h_vol : option Q
}.

Record Macro := {
  trendLabel : string;
  trendDesc : string;
  volaLabel : string;
  volaDesc : string;
  liqLabel : string;
  liqDesc : string
}.

(** An entry of [tradeIdeas]. *)
Module Idea.
Record t := {
  id : string;
  tag : string;
  category : string;
  edge : string;
  conviction : string;
  title : string;
  summary : string;
  horizon : string;
  risk : string
}.
End Idea.

(** ** [CATEGORY_ASSET_MAP] (App.tsx, lines 75-84) *)

Definition CATEGORY_ASSET_MAP (c : Category) : string :=
  match c with
  | AI => "render-token"
  | Layer2 => "matic-network"
  | LST => "lido-dao"
  | Gaming => "immutable-x"
  | DeFi => "uniswap"
  | Solana => "solana"
  | Stable => "tether"
  | General => "bitcoin"
  end.

(** [CATEGORY_ASSET_MAP[c] || CATEGORY_ASSET_MAP.General] *)
Definition assetOf (c : Category) : string :=
  JS.or_str (CATEGORY_ASSET_MAP c) (CATEGORY_ASSET_MAP General).

Section Pipeline.

(** The environment: [window.document] when there is one, and the digits
    [Number::toString] gives for magnitudes from 10^21 on. *)
Variable window : option Document.
Variable numberToString : Q -> string.

(** ** [loadNews] (App.tsx, lines 104-149) *)

Definition sentiments : list string := ["Bullish"; "Bearish"; "Neutral"; "Cautious"].
Definition impacts : list string := ["High"; "Medium"; "Low"].

(** The callback of [items.map] for the [k]-th item of the cycle and the
    payload at index [i] of the filtered results.  [None] is the TypeError
    of [EXCHANGE_NEWS_ENDPOINTS[i].name] when there is no such endpoint. *)
Definition newsItem (rnd : nat -> Q) (i k : nat) (item : Raw.item) : option News.item :=
  let summary := cleanSummary window (Some (JS.or_else (Raw.description item) NO_SUMMARY)) in
  let title := JS.or_else (Raw.title item) "Untitled" in
  let category := classifyCategory (title ++ " " ++ summary) in
  match nth_error EXCHANGE_NEWS_ENDPOINTS i with
  | None => None
  | Some endpoint =>
      Some {| News.id :=
                JS.or_else (Raw.guid item)
                  (JS.or_else (Raw.link item) (name endpoint ++ "-" ++ title));
              News.title := title;
              News.source := name endpoint;
              News.timeAgo := JS.or_else (Raw.pubDate item) "";
              News.impact := Num.pick impacts (rnd (2 * k)%nat);
              News.sentiment := Num.pick sentiments (rnd (2 * k + 1)%nat);
              News.priceMove := "N/A";
              News.category := category;
              News.summary := summary;
              News.tags := [name endpoint; categoryName category] |}
  end.

(** [items.map((item) => ...)] *)
Fixpoint mapItems (rnd : nat -> Q) (i k : nat) (l : list Raw.item) : option (list News.item) :=
  match l with
  | [] => Some []
  | item :: rest =>
      match newsItem rnd i k item with
      | None => None
      | Some n =>
          match mapItems rnd i (S k) rest with
          | None => None
          | Some ns => Some (n :: ns)
          end
      end
  end.

(** [res && Array.isArray(res.items) ? res.items : []] *)
Definition itemsOf (res : Payload) : list Raw.item :=
  match items res with Some l => l | None => [] end.

(** [.flatMap((res, i) => ...)] over the filtered results, from index [i]
    on, [k] items having been mapped before. *)
Fixpoint flatMapResults (rnd : nat -> Q) (i k : nat) (l : list Payload) : option (list News.item) :=
  match l with
  | [] => Some []
  | res :: rest =>
      match mapItems rnd i k (itemsOf res) with
      | None => None
      | Some ns =>
          match flatMapResults rnd (S i) (k + length (itemsOf res)) rest with
          | None => None
          | Some ms => Some (ns ++ ms)%list
          end
      end
  end.

(** [results.filter(Boolean)]: the null placeholders of failed fetches go. *)
Fixpoint filterBoolean (results : list (option Payload)) : list Payload :=
  match results with
  | [] => []
  | Some res :: rest => res :: filterBoolean rest
  | None :: rest => filterBoolean rest
  end.

(** [merged] (lines 120-143). *)
Definition mergeNews (rnd : nat -> Q) (results : list (option Payload)) : option (list News.item) :=
  match flatMapResults rnd 0 0 (filterBoolean results) with
  | Some l => Some (firstn 60 l)
  | None => None
  end.

(** The effect: [fetch] gives the JSON of a feed, or [None] when the fetch
    or its parsing fails (the [catch] then yields the null placeholder).
    The result is the argument of [setLiveNews]. *)
Definition loadNews (fetch : string -> option Payload) (rnd : nat -> Q) : option (list News.item) :=
  let results := map (fun src => fetch (url src)) EXCHANGE_NEWS_ENDPOINTS in
  mergeNews rnd results.

(** ** [loadCorrelatedMoves] (App.tsx, lines 155-188) *)

(** [Array.from(new Set(l))]: the first occurrence of each string, in order. *)
Fixpoint uniq (seen l : list string) : list string :=
  match l with
  | [] => []
  | x :: rest =>
      if existsb (String.eqb x) seen then uniq seen rest
      else x :: uniq (x :: seen) rest
  end.

Definition priceUrl (tokens : list string) : string :=
  "https://api.coingecko.com/api/v3/simple/price?ids=" ++ String.concat "," tokens
    ++ "&vs_currencies=usd&include_24hr_change=true".

(** The callback of [liveNews.map] (lines 171-179). *)
Definition correlate (data : gmap string PriceInfo) (item : News.item) : News.item :=
  let token := assetOf (News.category item) in
  let withPriceMove (p : string) :=
    {| News.id := News.id item;
       News.title := News.title item;
       News.source := News.source item;
       News.timeAgo := News.timeAgo item;
       News.impact := News.impact item;
       News.sentiment := News.sentiment item;
       News.priceMove := p;
       News.category := News.category item;
       News.summary := News.summary item;
       News.tags := News.tags item |} in
  match data !! token with
  | None => withPriceMove "N/A"
  | Some info =>
      match usd_24h_change info with
      | None => withPriceMove "N/A"
      | Some pct =>
          let formatted :=
            (if Num.gt pct 0 then "+" else "") ++ Num.toFixed numberToString 2 pct ++ "%" in
          withPriceMove formatted
      end
  end.

(** The effect: [fetch] gives the JSON of the price endpoint, or [None]
    when the fetch or its parsing throws.  The result is the argument of
    [setLiveNews]. *)
Definition loadCorrelatedMoves (fetch : string -> option (gmap string PriceInfo))
    (liveNews : list News.item) : option (list News.item) :=
  match liveNews with
  | [] => None
  | _ =>
      let tokens := uniq [] (map (fun n => assetOf (News.category n)) liveNews) in
      match tokens with
      | [] => None
      | _ =>
          match fetch (priceUrl tokens) with
          | None => None
          | Some data => Some (map (correlate data) liveNews)
          end
      end
  end.

(** ** [loadMacro] (App.tsx, lines 191-254) *)

(** [{}] *)
Definition noInfo : PriceInfo :=
  {| usd := None; usd_24h_change := None; usd_24h_vol := None |}.

(** [Number(x || 0)] for a number or an absent field. *)
Definition numberOr0 (x : option Q) : Q :=
  match x with Some q => q | None => 0%Q end.

(** Lines 198-247, from the parsed answer to the argument of [setMacro]. *)
Definition macroOf (data : gmap string PriceInfo) : Macro :=
  let btc := default noInfo (data !! "bitcoin") in
  let eth := default noInfo (data !! "ethereum") in
  let btcChg := numberOr0 (usd_24h_change btc) in
  let ethChg := numberOr0 (usd_24h_change eth) in
  let avgChg := ((btcChg + ethChg) / 2)%Q in
  let '(trendLabel, trendDesc) :=
    if Num.gt avgChg 3 then
      ("Strong Bull", "BTC/ETH show strong upside over the last 24h.")
    else if Num.gt avgChg 1 then
      ("Mild Bull", "Upside bias with modest 24h gains.")
    else if Num.lt avgChg (-3) then
      ("Strong Bear", "Heavy downside pressure in majors over the last 24h.")
    else if Num.lt avgChg (-1) then
      ("Mild Bear", "Downside bias with controlled drawdown.")
    else ("Sideways", "Major pairs trade flat on the day.") in
  let btcVol := numberOr0 (usd_24h_vol btc) in
  let ethVol := numberOr0 (usd_24h_vol eth) in
  let totalVol := (btcVol + ethVol)%Q in
  let '(volaLabel, volaDesc) :=
    if Num.gt (Qabs avgChg) 4 then
      ("High Stress", "Large 24h moves imply stressed volatility conditions.")
    else if Num.gt (Qabs avgChg) 2 then
      ("Elevated", "Realised volatility is elevated vs. typical sessions.")
    else ("Calm", "24h realised volatility is subdued in majors.") in
  let '(liqLabel, liqDesc) :=
    if Num.gt totalVol (inject_Z 50000000000) then
      ("Deep", "Liquidity conditions are strong across BTC & ETH.")
    else if Num.gt totalVol (inject_Z 20000000000) then
      ("Normal", "Liquidity looks in line with recent averages.")
    else if Num.gt totalVol 0 then
      ("Thinner", "Volumes are lighter than usual, watch for slippage.")
    else ("Unknown", "Awaiting volume data.") in
  {| trendLabel := trendLabel; trendDesc := trendDesc;
     volaLabel := volaLabel; volaDesc := volaDesc;
     liqLabel := liqLabel; liqDesc := liqDesc |}.

(** The effect; the result is the argument of [setMacro]. *)
Definition loadMacro (fetch : option (gmap string PriceInfo)) : option Macro :=
  match fetch with
  | Some data => Some (macroOf data)
  | None => None
  end.

(** ** The trade idea engine (App.tsx, lines 257-368) *)

(** [ideas.push(x)] *)
Definition push (ideas : list Idea.t) (x : Idea.t) : list Idea.t := (ideas ++ [x])%list.

Definition longBtc (conviction : string) : Idea.t :=
  {| Idea.id := "long-btc";
     Idea.tag := "LONG BTC PERP";
     Idea.category := "Directional";
     Idea.edge := "+1.6%";
     Idea.conviction := conviction;
     Idea.title := "Align with macro bull impulse";
     Idea.summary :=
       "Macro environment shows bullish pressure with supportive high-impact headlines. AI models lean long BTC.";
     Idea.horizon := "4–12h";
     Idea.risk := "Stop below local lows. Reduce size if volatility flips into High Stress." |}.

Definition shortBtc (conviction : string) : Idea.t :=
  {| Idea.id := "short-btc";
     Idea.tag := "SHORT BTC PERP";
     Idea.category := "Directional";
     Idea.edge := "+1.9%";
     Idea.conviction := conviction;
     Idea.title := "Fade macro downside pressure";
     Idea.summary :=
       "Bearish macro trend confirmed by high-impact negative news. AI models favour shorting BTC on bounces.";
     Idea.horizon := "4–10h";
     Idea.risk := "Avoid chasing lows. Stop above local highs." |}.

Definition ethAlt : Idea.t :=
  {| Idea.id := "eth-alt";
     Idea.tag := "PAIRS TRADE";
     Idea.category := "Relative Value";
     Idea.edge := "+1.2%";
     Idea.conviction := "Medium";
     Idea.title := "Long ETH vs altcoin hype basket";
     Idea.summary :=
       "AI detects heavy altcoin narrative rotations while ETH remains liquidity anchor. Long ETH / short small alt basket.";
     Idea.horizon := "1–3d";
     Idea.risk := "Avoid overweighting single-name shorts. Maintain diversified hedge." |}.

Definition riskWarning : Idea.t :=
  {| Idea.id := "risk-warning";
     Idea.tag := "RISK WATCH";
     Idea.category := "Risk Management";
     Idea.edge := "Protect PnL";
     Idea.conviction := "High";
     Idea.title := "Tighten exposure under stressed conditions";
     Idea.summary :=
       "Volatility or liquidity stress detected by macro engine. Reduce exposure & tighten stops.";
     Idea.horizon := "Current session";
     Idea.risk := "High risk of chop or liquidation cascades in thin conditions." |}.

(** The idea pushed by the callback of [forEach] for item [n] at index [idx].
    The edge is formatted from the value of [r * 2 + 0.5]: the rounding of
    the double operations is not modelled. *)
Definition newsIdea (rnd : nat -> Q) (n : News.item) (idx : nat) : Idea.t :=
  {| Idea.id := "news-idea-" ++ Num.decimal (N.of_nat idx);
     Idea.tag :=
       if (News.sentiment n =? "Bullish")%string then "MOMO LONG"
       else if (News.sentiment n =? "Bearish")%string then "MOMO SHORT"
       else "THEME IDEA";
     Idea.category := "Narrative";
     Idea.edge := Num.toFixed numberToString 1 (rnd idx * 2 + (1 # 2))%Q ++ "%";
     Idea.conviction := if Nat.even idx then "Medium" else "Low";
     Idea.title :=
       "Play " ++ News.source n ++ " narrative on " ++ News.sentiment n ++ " flow";
     Idea.summary := substring 0 120 (JS.or_str (News.summary n) "") ++ "...";
     Idea.horizon := "6–18h";
     Idea.risk := "News-driven trade. Tight stops recommended." |}.

Definition noEdge : Idea.t :=
  {| Idea.id := "no-edge";
     Idea.tag := "NO STRONG EDGE";
     Idea.category := "Neutral";
     Idea.edge := "Flat";
     Idea.conviction := "Low";
     Idea.title := "No high-probability setups detected";
     Idea.summary :=
       "Macro + news signals do not align. AI recommends waiting for clearer asymmetry.";
     Idea.horizon := "Wait";
     Idea.risk := "Avoid forcing trades in low-edge environments." |}.

(** [l.forEach((n, idx) => ideas.push(...))] from index [idx] on. *)
Fixpoint pushNewsIdeas (rnd : nat -> Q) (idx : nat) (l : list News.item)
    (ideas : list Idea.t) : list Idea.t :=
  match l with
  | [] => ideas
  | n :: rest => pushNewsIdeas rnd (S idx) rest (push ideas (newsIdea rnd n idx))
  end.

Definition highImpactOf (liveNews : list News.item) : list News.item :=
  let topNews := firstn 50 liveNews in
  List.filter (fun n => (News.impact n =? "High")%string) topNews.

(** Step 1: the directional BTC idea. *)
Definition directionalStep (macro : Macro) (highImpact : list News.item)
    (ideas : list Idea.t) : list Idea.t :=
  let bullish := List.filter (fun n => (News.sentiment n =? "Bullish")%string) highImpact in
  let bearish := List.filter (fun n => (News.sentiment n =? "Bearish")%string) highImpact in
  if JS.includes "Bull" (trendLabel macro) then
    push ideas (longBtc (if (length bearish <? length bullish)%nat then "High" else "Medium"))
  else if JS.includes "Bear" (trendLabel macro) then
    push ideas (shortBtc (if (length bullish <=? length bearish)%nat then "High" else "Medium"))
  else ideas.

(** Step 2: the relative value play. *)
Definition relativeValueStep (highImpact : list News.item) (ideas : list Idea.t) : list Idea.t :=
  let altFlow :=
    List.filter (fun n => (News.source n =? "Cointelegraph")%string
                          || (News.source n =? "Coindesk")%string) highImpact in
  if (0 <? length altFlow)%nat then push ideas ethAlt else ideas.

(** Step 3: the risk regime warning. *)
Definition riskStep (macro : Macro) (ideas : list Idea.t) : list Idea.t :=
  if (volaLabel macro =? "High Stress")%string || (liqLabel macro =? "Thinner")%string
  then push ideas riskWarning else ideas.

(** The extra ideas from the first five high-impact items. *)
Definition narrativeStep (rnd : nat -> Q) (highImpact : list News.item)
    (ideas : list Idea.t) : list Idea.t :=
  pushNewsIdeas rnd 0 (firstn 5 highImpact) ideas.

(** Step 4: the fallback. *)
Definition fallbackStep (ideas : list Idea.t) : list Idea.t :=
  if (length ideas =? 0)%nat then push ideas noEdge else ideas.

(** The ideas before the fallback step. *)
Definition ruleIdeas (rnd : nat -> Q) (macro : Macro) (liveNews : list News.item) : list Idea.t :=
  let highImpact := highImpactOf liveNews in
  let ideas := [] in
  let ideas := directionalStep macro highImpact ideas in
  let ideas := relativeValueStep highImpact ideas in
  let ideas := riskStep macro ideas in
  narrativeStep rnd highImpact ideas.

(** The body of the effect behind its guard. *)
Definition buildIdeas (rnd : nat -> Q) (macro : Macro) (liveNews : list News.item) : list Idea.t :=
  fallbackStep (ruleIdeas rnd macro liveNews).

(** The effect; the result is the argument of [setTradeIdeas]. *)
Definition tradeIdeaEngine (rnd : nat -> Q) (macro : Macro) (liveNews : list News.item)
    : option (list Idea.t) :=
  match liveNews with
  | [] => None
  | _ => Some (buildIdeas rnd macro liveNews)
  end.

End Pipeline.

(** ** [loadMacro] on IEEE 754 doubles (App.tsx, lines 191-254)

    [macroOf] above reads a number as its value and adds exactly.  The
    engine works on doubles: [btcChg + ethChg], [(...) / 2] and
    [btcVol + ethVol] round to the nearest double and can overflow, and the
    comparisons are those of doubles.  Here the same lines are given on
    binary64 numbers, with the operations of [SpecFloat] at precision 53
    and maximal exponent 1024. *)

Module Float64.

Definition t : Set := spec_float.

Definition prec : Z := 53.
Definition emax : Z := 1024.

(** An integer literal of the source. *)
Definition of_Z (z : Z) : t := binary_normalize prec emax z 0 false.

(** The double [m * 2^e]. *)
Definition of_binary (m e : Z) : t := binary_normalize prec emax m e false.

(** [x + y] *)
Definition add (x y : t) : t := SFadd prec emax x y.

(** [x / y] *)
Definition div (x y : t) : t := SFdiv prec emax x y.

(** [Math.abs(x)] *)
Definition abs (x : t) : t := SFabs x.

(** [x > y] *)
Definition gt (x y : t) : bool := SFltb y x.

(** [x < y] *)
Definition lt (x y : t) : bool := SFltb x y.

(** [Number(x || 0)] where [x] is a number or absent: [0], [-0] and [NaN]
    are falsy. *)
Definition or0 (x : option t) : t :=
  match x with
  | None | Some (S754_zero _) | Some S754_nan => S754_zero false
  | Some v => v
  end.

End Float64.

(** An entry of the answer of the price endpoint, its numbers as doubles. *)
Module Quote64.
Record t := {
  usd_24h_change : option Float64.t;
  usd_24h_vol : option Float64.t
}.
End Quote64.

(** [{}] *)
Definition noQuote64 : Quote64.t :=
  {| Quote64.usd_24h_change := None; Quote64.usd_24h_vol := None |}.

(** Lines 198-247 on doubles, from the parsed answer to the argument of
    [setMacro]. *)
Definition macroOf64 (data : gmap string Quote64.t) : Macro :=
  let btc := default noQuote64 (data !! "bitcoin") in
  let eth := default noQuote64 (data !! "ethereum") in
  let btcChg := Float64.or0 (Quote64.usd_24h_change btc) in
  let ethChg := Float64.or0 (Quote64.usd_24h_change eth) in
  let avgChg := Float64.div (Float64.add btcChg ethChg) (Float64.of_Z 2) in
  let '(trendLabel, trendDesc) :=
    if Float64.gt avgChg (Float64.of_Z 3) then
      ("Strong Bull", "BTC/ETH show strong upside over the last 24h.")
    else if Float64.gt avgChg (Float64.of_Z 1) then
      ("Mild Bull", "Upside bias with modest 24h gains.")
    else if Float64.lt avgChg (Float64.of_Z (-3)) then
      ("Strong Bear", "Heavy downside pressure in majors over the last 24h.")
    else if Float64.lt avgChg (Float64.of_Z (-1)) then
      ("Mild Bear", "Downside bias with controlled drawdown.")
    else ("Sideways", "Major pairs trade flat on the day.") in
  let btcVol := Float64.or0 (Quote64.usd_24h_vol btc) in
  let ethVol := Float64.or0 (Quote64.usd_24h_vol eth) in
  let totalVol := Float64.add btcVol ethVol in
  let '(volaLabel, volaDesc) :=
    if Float64.gt (Float64.abs avgChg) (Float64.of_Z 4) then
      ("High Stress", "Large 24h moves imply stressed volatility conditions.")
    else if Float64.gt (Float64.abs avgChg) (Float64.of_Z 2) then
      ("Elevated", "Realised volatility is elevated vs. typical sessions.")
    else ("Calm", "24h realised volatility is subdued in majors.") in
  let '(liqLabel, liqDesc) :=
    if Float64.gt totalVol (Float64.of_Z 50000000000) then
      ("Deep", "Liquidity conditions are strong across BTC & ETH.")
    else if Float64.gt totalVol (Float64.of_Z 20000000000) then
      ("Normal", "Liquidity looks in line with recent averages.")
    else if Float64.gt totalVol (Float64.of_Z 0) then
      ("Thinner", "Volumes are lighter than usual, watch for slippage.")
    else ("Unknown", "Awaiting volume data.") in
  {| trendLabel := trendLabel; trendDesc := trendDesc;
     volaLabel := volaLabel; volaDesc := volaDesc;
     liqLabel := liqLabel; liqDesc := liqDesc |}.

(** The effect on doubles; the result is the argument of [setMacro]. *)
Definition loadMacro64 (fetch : option (gmap string Quote64.t)) : option Macro :=
  match fetch with
  | Some data => Some (macroOf64 data)
  | None => None
  end.

(** ** The view state (App.tsx, lines 370-391) *)

(** [filteredNews] (lines 370-374). *)
Definition filteredNews (sentimentFilter : string) (liveNews : list News.item) : list News.item :=
  match liveNews with
  | [] => []
  | _ =>
      if (sentimentFilter =? "All")%string then liveNews
      else List.filter (fun n => (News.sentiment n =? sentimentFilter)%string) liveNews
  end.

(** The value of [headline]: an item of the news, or the object literal of
    lines 378-389. *)
Inductive Headline := Story (n : News.item) | Waiting.

(** [filteredNews[0] || liveNews[0] || {...}] (lines 376-389). *)
Definition headline (filtered liveNews : list News.item) : Headline :=
  match filtered with
  | n :: _ => Story n
  | [] =>
      match liveNews with
      | n :: _ => Story n
      | [] => Waiting
      end
  end.

(** [headlineTags] (line 391). *)
Definition headlineTags (h : Headline) : list string :=
  match h with
  | Story n => News.tags n
  | Waiting => ["BINANCE"; "BYBIT"; "OKX"; "COINTELEGRAPH"; "COINDESK"]
  end.

(** ** Vocabulary of the properties *)

(** *** Macro regime *)

(** The inputs of the estimator as the specification names them: the 24h
    change and the 24h volume of an asset, a missing figure counting as 0. *)
Definition changeOf (data : gmap string PriceInfo) (asset : string) : Q :=
  numberOr0 (usd_24h_change (default noInfo (data !! asset))).

Definition volumeOf (data : gmap string PriceInfo) (asset : string) : Q :=
  numberOr0 (usd_24h_vol (default noInfo (data !! asset))).

Definition avgChange (data : gmap string PriceInfo) : Q :=
  ((changeOf data "bitcoin" + changeOf data "ethereum") / 2)%Q.

Definition totalVolume (data : gmap string PriceInfo) : Q :=
  (volumeOf data "bitcoin" + volumeOf data "ethereum")%Q.

(** A price answer with the given figures for the two reference assets. *)
Definition snapshot (chg1 chg2 vol1 vol2 : option Q) : gmap string PriceInfo :=
  {[ "bitcoin" := {| usd := None; usd_24h_change := chg1; usd_24h_vol := vol1 |};
     "ethereum" := {| usd := None; usd_24h_change := chg2; usd_24h_vol := vol2 |} ]}.

(** Both reference assets moved by [chg], volumes missing. *)
Definition bothMoved (chg : Q) : gmap string PriceInfo :=
  snapshot (Some chg) (Some chg) None None.

(** *** Trade ideas *)

(** The number of ideas of a category. *)
Definition countCategory (c : string) (ideas : list Idea.t) : nat :=
  length (List.filter (fun i => (Idea.category i =? c)%string) ideas).

(** The fallback idea is recognised by its id. *)
Definition isFallback (i : Idea.t) : bool := (Idea.id i =? "no-edge")%string.

Definition countFallback (ideas : list Idea.t) : nat :=
  length (List.filter isFallback ideas).

(** The limits of the idea list: by category, and in total. *)
Definition within_limits (ideas : list Idea.t) : Prop :=
  (length ideas <= 8)%nat /\
  (countCategory "Directional" ideas <= 1)%nat /\
  (countCategory "Relative Value" ideas <= 1)%nat /\
  (countCategory "Risk Management" ideas <= 1)%nat /\
  (countCategory "Narrative" ideas <= 5)%nat /\
  (countCategory "Neutral" ideas <= 1)%nat /\
  (length ideas =
     countCategory "Directional" ideas + countCategory "Relative Value" ideas
     + countCategory "Risk Management" ideas + countCategory "Narrative" ideas
     + countCategory "Neutral" ideas)%nat /\
  (countFallback ideas = countCategory "Neutral" ideas) /\
  ((0 < countFallback ideas)%nat -> length ideas = 1%nat).

(** A list whose ideas all have category [c'] and are not the fallback. *)
Definition all_of (c' : string) (l : list Idea.t) : Prop :=
  Forall (fun i => Idea.category i = c' /\ isFallback i = false) l.

(** The high-impact items of the media sources (the [altFlow] of step 2). *)
Definition altFlowOf (h : list News.item) : list News.item :=
  List.filter (fun n => (News.source n =? "Cointelegraph")%string
                        || (News.source n =? "Coindesk")%string) h.

(** *** News items and price moves *)

(** Two items that agree on every field except [priceMove]. *)
Definition same_but_priceMove (a b : News.item) : Prop :=
  News.id a = News.id b /\
  News.title a = News.title b /\
  News.source a = News.source b /\
  News.timeAgo a = News.timeAgo b /\
  News.impact a = News.impact b /\
  News.sentiment a = News.sentiment b /\
  News.category a = News.category b /\
  News.summary a = News.summary b /\
  News.tags a = News.tags b.

(** The 24h change of the representative asset of an item's category, when
    the snapshot has the asset and the figure. *)
Definition changeFor (data : gmap string PriceInfo) (item : News.item) : option Q :=
  match data !! CATEGORY_ASSET_MAP (News.category item) with
  | Some info => usd_24h_change info
  | None => None
  end.

(** The number a string of decimal digits denotes. *)
Definition numeral (s : string) : option N :=
  option_map N.of_uint (NilEmpty.uint_of_string s).

(** [text] is [x >= 0] rounded to hundredths, with exactly two decimals. *)
Definition two_decimals (x : Q) (text : string) : Prop :=
  exists ip fp hi lo,
    text = ip ++ "." ++ fp /\ ip <> "" /\ String.length fp = 2%nat /\
    numeral ip = Some hi /\ numeral fp = Some lo /\
    (Qabs (inject_Z (Z.of_N (hi * 100 + lo)) / 100 - x) <= 1 # 200)%Q.

(** The sign the code writes: ["+"] above zero, ["-"] below zero, none at zero. *)
Definition sign_rule (pct : Q) (s : string) : Prop :=
  ((0 < pct)%Q -> s = "+") /\ ((pct < 0)%Q -> s = "-") /\ ((pct == 0)%Q -> s = "").

Definition formatted_change (pct : Q) (text : string) : Prop :=
  exists s body,
    text = s ++ body ++ "%" /\ sign_rule pct s /\ two_decimals (Qabs pct) body.

(** A text that starts with a sign. *)
Definition explicit_sign (text : string) : Prop :=
  exists rest, text = "+" ++ rest \/ text = "-" ++ rest.

(** *** Sample values *)

Definition sampleItem (impact sentiment source : string) (c : Category) : News.item :=
  {| News.id := "https://example.org/a"; News.title := "A headline";
     News.source := source; News.timeAgo := "";
     News.impact := impact; News.sentiment := sentiment; News.priceMove := "N/A";
     News.category := c; News.summary := "A summary"; News.tags := [source; categoryName c] |}.

(** The macro state before the first answer of the price endpoint
    (App.tsx, lines 90-97). *)
Definition loadingMacro : Macro :=
  {| trendLabel := "Loading..."; trendDesc := "Fetching live market data...";
     volaLabel := "Loading..."; volaDesc := "";
     liqLabel := "Loading..."; liqDesc := "" |}.

Definition halfRandom : nat -> Q := fun _ => (1 # 2)%Q.

(** A stand-in for [Number::toString], for evaluation. *)
Definition exponentDigits : Q -> string := fun _ => "1e+21".

(** A price answer with one asset. *)
Definition oneAsset (asset : string) (chg : option Q) : gmap string PriceInfo :=
  {[ asset := {| usd := None; usd_24h_change := chg; usd_24h_vol := None |} ]}.

(** *** The news normalizer *)

(** The results of a fetch cycle, in the order of the endpoints. *)
Definition resultsOf (fetch : string -> option Payload) : list (option Payload) :=
  map (fun src => fetch (url src)) EXCHANGE_NEWS_ENDPOINTS.

(** Where a raw item of a cycle comes from: the index of its provider in
    [EXCHANGE_NEWS_ENDPOINTS], and the position of the provider's payload
    among the payloads that arrived. *)
Record Origin := { provider : nat; slot : nat; raw : Raw.item }.

(** The raw items of the payloads that arrived, in the order of the
    providers, from provider [j] on, [s] payloads having arrived before. *)
Fixpoint originsFrom (s j : nat) (results : list (option Payload)) : list Origin :=
  match results with
  | [] => []
  | Some res :: rest =>
      (map (fun r => {| provider := j; slot := s; raw := r |}) (itemsOf res)
         ++ originsFrom (S s) (S j) rest)%list
  | None :: rest => originsFrom s (S j) rest
  end.

Definition origins (results : list (option Payload)) : list Origin :=
  originsFrom 0 0 results.

Definition providerName (j : nat) : option string :=
  option_map name (nth_error EXCHANGE_NEWS_ENDPOINTS j).

(** No fetch of a provider before [j] failed. *)
Definition noFailureBefore (j : nat) (results : list (option Payload)) : Prop :=
  forall j', (j' < j)%nat -> nth_error results j' <> Some None.

(** The item [n] carries the content of the raw item [r]. *)
Definition content_of (window : option Document) (r : Raw.item) (n : News.item) : Prop :=
  News.title n = JS.or_else (Raw.title r) "Untitled"
  /\ News.timeAgo n = JS.or_else (Raw.pubDate r) ""
  /\ News.summary n = cleanSummary window (Some (JS.or_else (Raw.description r) NO_SUMMARY))
  /\ News.category n = classifyCategory (News.title n ++ " " ++ News.summary n).

(** The first claim about failed feeds as the specification has it: every
    item of the merged list carries the name of the provider whose payload
    had it, and every item of a payload that arrived is in the list. *)
Definition sources_right_and_items_kept (window : option Document)
    (merged : list News.item) (results : list (option Payload)) : Prop :=
  Forall2 (fun n o => Some (News.source n) = providerName (provider o)
                      /\ content_of window (raw o) n)
    merged (origins results).

(** The id a raw item brings along: its guid, else its link. *)
Definition rawId (r : Raw.item) : option string :=
  match Raw.guid r with
  | Some g => if (g =? "")%string then
                match Raw.link r with
                | Some l => if (l =? "")%string then None else Some l
                | None => None
                end
              else Some g
  | None =>
      match Raw.link r with
      | Some l => if (l =? "")%string then None else Some l
      | None => None
      end
  end.

(** A raw item with a title only. *)
Definition titled (t : string) : Raw.item :=
  {| Raw.title := Some t; Raw.description := None; Raw.pubDate := None;
     Raw.guid := None; Raw.link := None |}.


Definition urlOf (provider : string) : string :=
  match List.find (fun src => (name src =? provider)%string) EXCHANGE_NEWS_ENDPOINTS with
  | Some src => url src
  | None => ""
  end.

(** A cycle in which only the feed of [provider] arrives, with [l]. *)
Definition onlyFeed (provider : string) (l : list Raw.item) : string -> option Payload :=
  fun u => if (u =? urlOf provider)%string then Some {| items := Some l |} else None.

(** The scenario of the specification: Binance and Cointelegraph with one
    titled item each; [others] is what the other three fetches give. *)
Definition scenario (others : option Payload) : string -> option Payload :=
  fun u =>
    if (u =? urlOf "Binance")%string then
      Some {| items := Some [titled "Binance Lists New AI Token"] |}
    else if (u =? urlOf "Cointelegraph")%string then
      Some {| items := Some [titled "Bitcoin breaks key level"] |}
    else others.

(** The DOM gives back a text without markup as it is. *)
Definition dom_keeps (window : option Document) (s : string) : Prop :=
  forall document div,
    window = Some document -> document s = Some div -> textContent div = s.

(** *** The text normalizer *)

(** Some suffix of [s] starts with a match. *)
Fixpoint has_match (matches_at : string -> bool) (s : string) : bool :=
  matches_at s ||
  match s with
  | EmptyString => false
  | String _ s' => has_match matches_at s'
  end.

(** A substring matches [https?://\S+], the URL pattern of the source. *)
Definition has_url : string -> bool := has_match JS.url_at.

(** A substring matches [<[^>]+>], the tag pattern of the source. *)
Definition has_tag : string -> bool := has_match JS.tag_at.

(** The regex path of [cleanSummary] is taken: there is no DOM, or it throws. *)
Definition regex_path (window : option Document) (html : option string) : Prop :=
  forall document h, window = Some document -> html = Some h -> document h = None.

(** The item [n] was made from the raw item of [o], under the endpoint at
    the slot of [o]. *)
Definition made_from (window : option Document) (n : News.item) (o : Origin) : Prop :=
  exists endpoint,
    nth_error EXCHANGE_NEWS_ENDPOINTS (slot o) = Some endpoint
    /\ News.source n = name endpoint
    /\ content_of window (raw o) n
    /\ News.id n =
         JS.or_else (Raw.guid (raw o))
           (JS.or_else (Raw.link (raw o)) (name endpoint ++ "-" ++ News.title n)).

(** The characters of [s] before its first white-space character. *)
Fixpoint word (s : string) : string :=
  match s with
  | EmptyString => EmptyString
  | String c s' => if JS.is_space c then EmptyString else String c (word s')
  end.

(** *** Further vocabulary *)

(** White space in [s] is collapsed: the only white-space character is the
    space, and no two spaces are adjacent; [prev] says that a space precedes. *)
Fixpoint collapsed (prev : bool) (s : string) : bool :=
  match s with
  | EmptyString => true
  | String c s' =>
      if JS.is_space c then Ascii.eqb c " " && negb prev && collapsed true s'
      else collapsed false s'
  end.

(** [s] after [prev] is collapsed and does not end with a space. *)
Fixpoint tidy_from (prev : bool) (s : string) : bool :=
  match s with
  | EmptyString => negb prev
  | String c s' =>
      if JS.is_space c then Ascii.eqb c " " && negb prev && tidy_from true s'
      else tidy_from false s'
  end.

(** [s] is not empty, neither starts nor ends with white space, and its
    words are separated by single spaces. *)
Definition tidy (s : string) : bool := tidy_from true s.

(** Two items that agree on every field except the two random ones,
    [impact] and [sentiment]. *)
Definition same_but_draws (a b : News.item) : Prop :=
  News.id a = News.id b /\
  News.title a = News.title b /\
  News.source a = News.source b /\
  News.timeAgo a = News.timeAgo b /\
  News.priceMove a = News.priceMove b /\
  News.category a = News.category b /\
  News.summary a = News.summary b /\
  News.tags a = News.tags b.

(** The number of payloads that arrived. *)
Fixpoint arrived (results : list (option Payload)) : nat :=
  match results with
  | [] => 0
  | Some _ :: rest => S (arrived rest)
  | None :: rest => arrived rest
  end.

(** The assets whose prices [loadCorrelatedMoves] asks for. *)
Definition tokensOf (liveNews : list News.item) : list string :=
  uniq [] (map (fun n => assetOf (News.category n)) liveNews).

Definition allCategories : list Category :=
  [AI; Layer2; LST; Gaming; DeFi; Solana; Stable; General].



(** [`news-idea-${idx}`] *)
Definition newsIdeaId (idx : nat) : string := "news-idea-" ++ Num.decimal (N.of_nat idx).

(** The regime asks for the risk warning. *)
Definition stressed (macro : Macro) : bool :=
  (volaLabel macro =? "High Stress")%string || (liqLabel macro =? "Thinner")%string.

(** [`Play ${n.source} narrative on ${n.sentiment} flow`] *)
Definition narrativeTitle (n : News.item) : string :=
  "Play " ++ News.source n ++ " narrative on " ++ News.sentiment n ++ " flow".

Definition isNarrative (i : Idea.t) : bool := (Idea.category i =? "Narrative")%string.

(** *** Macro regime on doubles *)

(** The inputs of the estimator as the specification names them: the 24h
    change and the 24h volume of an asset, a missing figure counting as 0. *)
Definition changeOf64 (data : gmap string Quote64.t) (asset : string) : Float64.t :=
  Float64.or0 (Quote64.usd_24h_change (default noQuote64 (data !! asset))).

Definition volumeOf64 (data : gmap string Quote64.t) (asset : string) : Float64.t :=
  Float64.or0 (Quote64.usd_24h_vol (default noQuote64 (data !! asset))).

(** The average change and the total volume the engine computes: the sum
    and the quotient are those of doubles. *)
Definition avgChange64 (data : gmap string Quote64.t) : Float64.t :=
  Float64.div (Float64.add (changeOf64 data "bitcoin") (changeOf64 data "ethereum"))
    (Float64.of_Z 2).

Definition totalVolume64 (data : gmap string Quote64.t) : Float64.t :=
  Float64.add (volumeOf64 data "bitcoin") (volumeOf64 data "ethereum").

(** [x > z] and [x < z] for a double [x] and an integer [z]. *)
Definition above (x : Float64.t) (z : Z) : Prop :=
  Float64.gt x (Float64.of_Z z) = true.

Definition below (x : Float64.t) (z : Z) : Prop :=
  Float64.lt x (Float64.of_Z z) = true.

(** The threshold tables of the specification, first match wins. *)
Definition trend_rule (avg : Float64.t) (label : string) : Prop :=
  (above avg 3 -> label = "Strong Bull") /\
  (~ above avg 3 -> above avg 1 -> label = "Mild Bull") /\
  (~ above avg 3 -> ~ above avg 1 -> below avg (-3) -> label = "Strong Bear") /\
  (~ above avg 3 -> ~ above avg 1 -> ~ below avg (-3) -> below avg (-1) ->
     label = "Mild Bear") /\
  (~ above avg 3 -> ~ above avg 1 -> ~ below avg (-3) -> ~ below avg (-1) ->
     label = "Sideways").

Definition volatility_rule (avg : Float64.t) (label : string) : Prop :=
  (above (Float64.abs avg) 4 -> label = "High Stress") /\
  (~ above (Float64.abs avg) 4 -> above (Float64.abs avg) 2 -> label = "Elevated") /\
  (~ above (Float64.abs avg) 4 -> ~ above (Float64.abs avg) 2 -> label = "Calm").

Definition liquidity_rule (total : Float64.t) (label : string) : Prop :=
  (above total 50000000000 -> label = "Deep") /\
  (~ above total 50000000000 -> above total 20000000000 -> label = "Normal") /\
  (~ above total 50000000000 -> ~ above total 20000000000 -> above total 0 ->
     label = "Thinner") /\
  (~ above total 50000000000 -> ~ above total 20000000000 -> ~ above total 0 ->
     label = "Unknown").

(** A price answer with the given figures for the two reference assets. *)
Definition snapshot64 (chg1 chg2 vol1 vol2 : option Float64.t) : gmap string Quote64.t :=
  {[ "bitcoin" := {| Quote64.usd_24h_change := chg1; Quote64.usd_24h_vol := vol1 |};
     "ethereum" := {| Quote64.usd_24h_change := chg2; Quote64.usd_24h_vol := vol2 |} ]}.

(** *** Doubles and their values *)

(** A double of the binary64 format. *)
Definition binary64 (x : Float64.t) : Prop :=
  valid_binary Float64.prec Float64.emax x = true.

(** The value of a finite double; an infinity and NaN have none. *)
Definition valueOf (x : Float64.t) : option Q :=
  match x with
  | S754_zero _ => Some 0%Q
  | S754_finite s m e => Some (inject_Z (cond_Zopp s (Zpos m)) * 2 ^ e)%Q
  | _ => None
  end.

Definition isFinite (x : Float64.t) : bool :=
  match x with S754_zero _ | S754_finite _ _ _ => true | _ => false end.

(** The value of a finite double in units of [2^-1074], the least positive
    double. *)
Definition unitsOf (x : Float64.t) : Z :=
  match x with
  | S754_finite s m e => cond_Zopp s (Zpos m * 2 ^ (e + 1074))
  | _ => 0
  end.

(** The shape of the mantissa and the exponent of a finite double: 53 bits,
    or fewer at the least exponent. *)
Definition canonical64 (m : positive) (e : Z) : Prop :=
  (-1074 <= e)%Z /\ (Zpos m < 2 ^ 53)%Z /\ (2 ^ 52 <= Zpos m \/ e = -1074)%Z.

(** The integers the source compares the figures with. *)
Definition thresholds : list Z :=
  [0; 1; 2; 3; 4; -1; -3; 20000000000; 50000000000]%Z.

(** The threshold tables read on the values of the computed figures. *)
Definition trend_by_value (avg : Q) (label : string) : Prop :=
  ((3 < avg)%Q -> label = "Strong Bull") /\
  ((1 < avg)%Q /\ (avg <= 3)%Q -> label = "Mild Bull") /\
  ((avg < -3)%Q -> label = "Strong Bear") /\
  ((-3 <= avg)%Q /\ (avg < -1)%Q -> label = "Mild Bear") /\
  ((-1 <= avg)%Q /\ (avg <= 1)%Q -> label = "Sideways").

Definition volatility_by_value (avg : Q) (label : string) : Prop :=
  ((4 < Qabs avg)%Q -> label = "High Stress") /\
  ((2 < Qabs avg)%Q /\ (Qabs avg <= 4)%Q -> label = "Elevated") /\
  ((Qabs avg <= 2)%Q -> label = "Calm").

Definition liquidity_by_value (total : Q) (label : string) : Prop :=
  ((inject_Z 50000000000 < total)%Q -> label = "Deep") /\
  ((inject_Z 20000000000 < total)%Q /\ (total <= inject_Z 50000000000)%Q ->
     label = "Normal") /\
  ((0 < total)%Q /\ (total <= inject_Z 20000000000)%Q -> label = "Thinner") /\
  ((total <= 0)%Q -> label = "Unknown").

(** *** The view *)

(** The item passes the sentiment filter of [filteredNews]. *)
Definition passes (sentimentFilter : string) (n : News.item) : bool :=
  (sentimentFilter =? "All")%string || (News.sentiment n =? sentimentFilter)%string.

(* ================================================================== *)
(** * Part II: properties                                               *)
(* ================================================================== *)

(** ** Numbers *)

Lemma gt_true (a b : Q) : Num.gt a b = true <-> (b < a)%Q.
Proof.
  unfold Num.gt. rewrite negb_true_iff.
  split; intros H.
  - apply Qnot_le_lt. intros Hle. apply Qle_bool_iff in Hle. congruence.
  - destruct (Qle_bool a b) eqn:E; [|reflexivity].
    apply Qle_bool_iff in E. exfalso. apply (Qlt_not_le _ _ H E).
Qed.

Lemma gt_false (a b : Q) : Num.gt a b = false <-> ~ (b < a)%Q.
Proof.
  rewrite <- gt_true. destruct (Num.gt a b); split; intros; congruence.
Qed.

Lemma lt_true (a b : Q) : Num.lt a b = true <-> (a < b)%Q.
Proof. apply (gt_true b a). Qed.

Lemma lt_false (a b : Q) : Num.lt a b = false <-> ~ (a < b)%Q.
Proof. apply (gt_false b a). Qed.

(** ** The macro regime estimator *)

Ltac case_ifs :=
  repeat match goal with
         | |- context [if ?b then _ else _] => destruct b
         end.

Lemma trendLabel_eq (data : gmap string PriceInfo) :
  trendLabel (macroOf data) =
    let avg := avgChange data in
    if Num.gt avg 3 then "Strong Bull"
    else if Num.gt avg 1 then "Mild Bull"
    else if Num.lt avg (-3) then "Strong Bear"
    else if Num.lt avg (-1) then "Mild Bear"
    else "Sideways".
Proof.
  unfold macroOf, avgChange, changeOf. cbv zeta. case_ifs; reflexivity.
Qed.

Lemma volaLabel_eq (data : gmap string PriceInfo) :
  volaLabel (macroOf data) =
    let avg := avgChange data in
    if Num.gt (Qabs avg) 4 then "High Stress"
    else if Num.gt (Qabs avg) 2 then "Elevated"
    else "Calm".
Proof.
  unfold macroOf, avgChange, changeOf. cbv zeta. case_ifs; reflexivity.
Qed.

Lemma liqLabel_eq (data : gmap string PriceInfo) :
  liqLabel (macroOf data) =
    let total := totalVolume data in
    if Num.gt total (inject_Z 50000000000) then "Deep"
    else if Num.gt total (inject_Z 20000000000) then "Normal"
    else if Num.gt total 0 then "Thinner"
    else "Unknown".
Proof.
  unfold macroOf, totalVolume, volumeOf. cbv zeta. case_ifs; reflexivity.
Qed.

Ltac case_cmp :=
  repeat match goal with
         | |- context [Num.gt ?a ?b] =>
             let E := fresh "E" in
             destruct (Num.gt a b) eqn:E; [apply gt_true in E | apply gt_false in E]
         | |- context [Num.lt ?a ?b] =>
             let E := fresh "E" in
             destruct (Num.lt a b) eqn:E; [apply lt_true in E | apply lt_false in E]
         end.



(** *** On doubles *)

Lemma trendLabel64_eq (data : gmap string Quote64.t) :
  trendLabel (macroOf64 data) =
    let avg := avgChange64 data in
    if Float64.gt avg (Float64.of_Z 3) then "Strong Bull"
    else if Float64.gt avg (Float64.of_Z 1) then "Mild Bull"
    else if Float64.lt avg (Float64.of_Z (-3)) then "Strong Bear"
    else if Float64.lt avg (Float64.of_Z (-1)) then "Mild Bear"
    else "Sideways".
Proof.
  unfold macroOf64, avgChange64, changeOf64. cbv zeta. case_ifs; reflexivity.
Qed.

Lemma volaLabel64_eq (data : gmap string Quote64.t) :
  volaLabel (macroOf64 data) =
    let avg := avgChange64 data in
    if Float64.gt (Float64.abs avg) (Float64.of_Z 4) then "High Stress"
    else if Float64.gt (Float64.abs avg) (Float64.of_Z 2) then "Elevated"
    else "Calm".
Proof.
  unfold macroOf64, avgChange64, changeOf64. cbv zeta. case_ifs; reflexivity.
Qed.

Lemma liqLabel64_eq (data : gmap string Quote64.t) :
  liqLabel (macroOf64 data) =
    let total := totalVolume64 data in
    if Float64.gt total (Float64.of_Z 50000000000) then "Deep"
    else if Float64.gt total (Float64.of_Z 20000000000) then "Normal"
    else if Float64.gt total (Float64.of_Z 0) then "Thinner"
    else "Unknown".
Proof.
  unfold macroOf64, totalVolume64, volumeOf64. cbv zeta. case_ifs; reflexivity.
Qed.

Ltac case_cmp64 :=
  unfold above, below;
  repeat match goal with
         | |- context [Float64.gt ?a ?b] =>
             let E := fresh "E" in destruct (Float64.gt a b) eqn:E
         | |- context [Float64.lt ?a ?b] =>
             let E := fresh "E" in destruct (Float64.lt a b) eqn:E
         end.

Lemma trendLabel_rule (data : gmap string Quote64.t) :
  trend_rule (avgChange64 data) (trendLabel (macroOf64 data)).
Proof.
  rewrite trendLabel64_eq. cbv zeta. unfold trend_rule.
  case_cmp64; repeat split; intros; try reflexivity; congruence.
Qed.

Lemma volaLabel_rule (data : gmap string Quote64.t) :
  volatility_rule (avgChange64 data) (volaLabel (macroOf64 data)).
Proof.
  rewrite volaLabel64_eq. cbv zeta. unfold volatility_rule.
  case_cmp64; repeat split; intros; try reflexivity; congruence.
Qed.

Lemma liqLabel_rule (data : gmap string Quote64.t) :
  liquidity_rule (totalVolume64 data) (liqLabel (macroOf64 data)).
Proof.
  rewrite liqLabel64_eq. cbv zeta. unfold liquidity_rule.
  case_cmp64; repeat split; intros; try reflexivity; congruence.
Qed.

Lemma snapshot64_bitcoin (c1 c2 v1 v2 : option Float64.t) :
  snapshot64 c1 c2 v1 v2 !! "bitcoin" =
    Some {| Quote64.usd_24h_change := c1; Quote64.usd_24h_vol := v1 |}.
Proof. unfold snapshot64. rewrite lookup_insert_eq. reflexivity. Qed.

Lemma snapshot64_ethereum (c1 c2 v1 v2 : option Float64.t) :
  snapshot64 c1 c2 v1 v2 !! "ethereum" =
    Some {| Quote64.usd_24h_change := c2; Quote64.usd_24h_vol := v2 |}.
Proof.
  unfold snapshot64. rewrite lookup_insert_ne by discriminate.
  rewrite lookup_singleton_eq. reflexivity.
Qed.

(** C6: for all 24h changes [chg1], [chg2] and volumes [vol1], [vol2] of the
    two reference assets, each a double or missing (a missing figure
    counting as 0), the estimator computes [avgChange = (chg1 + chg2) / 2]
    and [vol1 + vol2] with the sum and the quotient of doubles, and assigns
    on the computed values, the first matching rule winning: the trend
    Strong Bull above 3, Mild Bull above 1, Strong Bear below -3, Mild Bear
    below -1, else Sideways; the volatility High Stress for [abs avgChange]
    above 4, Elevated above 2, else Calm; the liquidity Deep above 50e9,
    Normal above 20e9, Thinner above 0, else Unknown.  With every figure
    missing, or both assets missing from the answer, the labels are
    Sideways, Calm and Unknown.  The tables hold for every answer of the
    price endpoint. *)
Theorem C6_macro_regime_thresholds (chg1 chg2 vol1 vol2 : option Float64.t) :
  let data := snapshot64 chg1 chg2 vol1 vol2 in
  let avgChange :=
    Float64.div (Float64.add (Float64.or0 chg1) (Float64.or0 chg2)) (Float64.of_Z 2) in
  let totalVolume := Float64.add (Float64.or0 vol1) (Float64.or0 vol2) in
  let m := macroOf64 data in
  avgChange64 data = avgChange /\
  totalVolume64 data = totalVolume /\
  trend_rule avgChange (trendLabel m) /\
  volatility_rule avgChange (volaLabel m) /\
  liquidity_rule totalVolume (liqLabel m) /\
  (loadMacro64 (Some data) = Some m) /\
  (Float64.or0 None = Float64.of_Z 0
   /\ let m0 := macroOf64 (snapshot64 None None None None) in
      trendLabel m0 = "Sideways" /\ volaLabel m0 = "Calm" /\ liqLabel m0 = "Unknown") /\
  (trendLabel (macroOf64 ∅) = "Sideways" /\ volaLabel (macroOf64 ∅) = "Calm"
   /\ liqLabel (macroOf64 ∅) = "Unknown") /\
  (forall answer : gmap string Quote64.t,
     trend_rule (avgChange64 answer) (trendLabel (macroOf64 answer))
     /\ volatility_rule (avgChange64 answer) (volaLabel (macroOf64 answer))
     /\ liquidity_rule (totalVolume64 answer) (liqLabel (macroOf64 answer))).
Proof.
  intros data avgChange totalVolume m.
  assert (Ha : avgChange64 data = avgChange).
  { unfold avgChange64, changeOf64, data.
    rewrite snapshot64_bitcoin, snapshot64_ethereum. reflexivity. }
  assert (Hv : totalVolume64 data = totalVolume).
  { unfold totalVolume64, volumeOf64, data.
    rewrite snapshot64_bitcoin, snapshot64_ethereum. reflexivity. }
  split; [exact Ha |].
  split; [exact Hv |].
  split; [rewrite <- Ha; apply trendLabel_rule |].
  split; [rewrite <- Ha; apply volaLabel_rule |].
  split; [rewrite <- Hv; apply liqLabel_rule |].
  split; [reflexivity |].
  split; [vm_compute; repeat split; reflexivity |].
  split; [vm_compute; repeat split; reflexivity |].
  intros answer.
  split; [apply trendLabel_rule | split; [apply volaLabel_rule | apply liqLabel_rule]].
Qed.




(** ** The trade idea engine *)

Section IdeaEngine.

Variable numberToString : Q -> string.
Variable rnd : nat -> Q.

Lemma countCategory_app (c : string) (a b : list Idea.t) :
  countCategory c (a ++ b)%list = (countCategory c a + countCategory c b)%nat.
Proof. unfold countCategory. rewrite List.filter_app, length_app. reflexivity. Qed.

Lemma countFallback_app (a b : list Idea.t) :
  countFallback (a ++ b)%list = (countFallback a + countFallback b)%nat.
Proof. unfold countFallback. rewrite List.filter_app, length_app. reflexivity. Qed.

Lemma all_of_count (c c' : string) (l : list Idea.t) :
  all_of c' l ->
  countCategory c l = (if (c' =? c)%string then length l else 0%nat)
  /\ countFallback l = 0%nat.
Proof.
  unfold all_of, countCategory, countFallback.
  induction 1 as [| i l [Hc Hf] _ [IH1 IH2]]; [destruct (c' =? c)%string; auto |].
  cbn [List.filter]. rewrite Hc, Hf.
  destruct (c' =? c)%string; cbn [length]; auto.
Qed.

Lemma pushNewsIdeas_app (idx : nat) (l : list News.item) (ideas : list Idea.t) :
  pushNewsIdeas numberToString rnd idx l ideas =
    (ideas ++ pushNewsIdeas numberToString rnd idx l [])%list.
Proof.
  revert idx ideas. induction l as [| n l IH]; intros idx ideas; cbn [pushNewsIdeas].
  - rewrite app_nil_r. reflexivity.
  - rewrite IH. rewrite (IH (S idx) (push [] _)). unfold push.
    rewrite <- app_assoc. reflexivity.
Qed.

Lemma pushNewsIdeas_length (idx : nat) (l : list News.item) :
  length (pushNewsIdeas numberToString rnd idx l []) = length l.
Proof.
  revert idx. induction l as [| n l IH]; intros idx; cbn [pushNewsIdeas]; [reflexivity |].
  rewrite pushNewsIdeas_app. unfold push. rewrite length_app, IH. reflexivity.
Qed.

Lemma newsIdea_not_fallback (n : News.item) (idx : nat) :
  isFallback (newsIdea numberToString rnd n idx) = false.
Proof.
  unfold isFallback, newsIdea. cbn [Idea.id].
  apply String.eqb_neq. cbn. intros H. discriminate H.
Qed.

Lemma pushNewsIdeas_narrative (idx : nat) (l : list News.item) :
  all_of "Narrative" (pushNewsIdeas numberToString rnd idx l []).
Proof.
  revert idx. induction l as [| n l IH]; intros idx; cbn [pushNewsIdeas]; [constructor |].
  rewrite pushNewsIdeas_app. unfold push. cbn [app].
  constructor; [| apply IH].
  split; [reflexivity | apply newsIdea_not_fallback].
Qed.

(** What each step appends. *)
Lemma directionalStep_app (macro : Macro) (h : list News.item) (ideas : list Idea.t) :
  exists d, directionalStep macro h ideas = (ideas ++ d)%list
            /\ (length d <= 1)%nat /\ all_of "Directional" d
            /\ (d = [] <-> JS.includes "Bull" (trendLabel macro) = false
                           /\ JS.includes "Bear" (trendLabel macro) = false).
Proof.
  unfold directionalStep, push.
  destruct (JS.includes "Bull" (trendLabel macro)).
  - eexists; split; [reflexivity |]. split; [cbn; lia |].
    split; [repeat constructor |]. split; [discriminate | intros [? _]; discriminate].
  - destruct (JS.includes "Bear" (trendLabel macro)).
    + eexists; split; [reflexivity |]. split; [cbn; lia |].
      split; [repeat constructor |]. split; [discriminate | intros [_ ?]; discriminate].
    + exists []. rewrite app_nil_r. split; [reflexivity |]. split; [cbn; lia |].
      split; [constructor |]. split; auto.
Qed.

Lemma relativeValueStep_app (h : list News.item) (ideas : list Idea.t) :
  exists r, relativeValueStep h ideas = (ideas ++ r)%list
            /\ (length r <= 1)%nat /\ all_of "Relative Value" r
            /\ (r = [] <-> altFlowOf h = []).
Proof.
  unfold relativeValueStep, push. fold (altFlowOf h).
  destruct (altFlowOf h) as [| a l].
  - exists []. rewrite app_nil_r. cbn. split; [reflexivity |]. split; [lia |].
    split; [constructor |]. split; auto.
  - eexists; split; [reflexivity |]. split; [cbn; lia |].
    split; [repeat constructor |]. split; discriminate.
Qed.

Lemma riskStep_app (macro : Macro) (ideas : list Idea.t) :
  exists k, riskStep macro ideas = (ideas ++ k)%list
            /\ (length k <= 1)%nat /\ all_of "Risk Management" k
            /\ (k = [] <-> (volaLabel macro =? "High Stress")%string
                           || (liqLabel macro =? "Thinner")%string = false).
Proof.
  unfold riskStep, push.
  destruct ((volaLabel macro =? "High Stress")%string || (liqLabel macro =? "Thinner")%string).
  - eexists; split; [reflexivity |]. split; [cbn; lia |].
    split; [repeat constructor |]. split; discriminate.
  - exists []. rewrite app_nil_r. split; [reflexivity |]. split; [cbn; lia |].
    split; [constructor |]. split; auto.
Qed.

Lemma narrativeStep_app (h : list News.item) (ideas : list Idea.t) :
  exists n, narrativeStep numberToString rnd h ideas = (ideas ++ n)%list
            /\ length n = Nat.min 5 (length h) /\ all_of "Narrative" n
            /\ (n = [] <-> h = []).
Proof.
  unfold narrativeStep. rewrite pushNewsIdeas_app.
  eexists; split; [reflexivity |].
  split; [rewrite pushNewsIdeas_length; apply length_firstn |].
  split; [apply pushNewsIdeas_narrative |].
  split; intros H.
  - apply (f_equal (@length _)) in H. rewrite pushNewsIdeas_length in H.
    destruct h; [reflexivity | discriminate H].
  - subst h. reflexivity.
Qed.

(** The ideas of the rules are those of the four steps, in this order. *)
Lemma ruleIdeas_parts (macro : Macro) (liveNews : list News.item) :
  exists d r k n,
    ruleIdeas numberToString rnd macro liveNews = (d ++ r ++ k ++ n)%list
    /\ ((length d <= 1)%nat /\ all_of "Directional" d)
    /\ ((length r <= 1)%nat /\ all_of "Relative Value" r)
    /\ ((length k <= 1)%nat /\ all_of "Risk Management" k)
    /\ ((length n <= 5)%nat /\ all_of "Narrative" n).
Proof.
  unfold ruleIdeas. cbv zeta.
  destruct (directionalStep_app macro (highImpactOf liveNews) []) as (d & Ed & Ld & Ad & _).
  rewrite Ed.
  destruct (relativeValueStep_app (highImpactOf liveNews) ([] ++ d)%list)
    as (r & Er & Lr & Ar & _).
  rewrite Er.
  destruct (riskStep_app macro (([] ++ d) ++ r)%list) as (k & Ek & Lk & Ak & _).
  rewrite Ek.
  destruct (narrativeStep_app (highImpactOf liveNews) ((([] ++ d) ++ r) ++ k)%list)
    as (n & En & Ln & An & _).
  rewrite En.
  exists d, r, k, n. cbn [app]. rewrite <- !app_assoc.
  repeat split; auto. rewrite Ln. apply Nat.le_min_l.
Qed.

(** No rule emits an idea exactly when the trend label has neither "Bull"
    nor "Bear", the regime is neither High Stress nor Thinner, and none of
    the first 50 items is of high impact. *)
Lemma ruleIdeas_nil_iff (macro : Macro) (liveNews : list News.item) :
  ruleIdeas numberToString rnd macro liveNews = [] <->
  JS.includes "Bull" (trendLabel macro) = false
  /\ JS.includes "Bear" (trendLabel macro) = false
  /\ (volaLabel macro =? "High Stress")%string || (liqLabel macro =? "Thinner")%string = false
  /\ highImpactOf liveNews = [].
Proof.
  unfold ruleIdeas. cbv zeta.
  destruct (directionalStep_app macro (highImpactOf liveNews) []) as (d & Ed & _ & _ & Hd).
  rewrite Ed.
  destruct (relativeValueStep_app (highImpactOf liveNews) ([] ++ d)%list)
    as (r & Er & _ & _ & Hr).
  rewrite Er.
  destruct (riskStep_app macro (([] ++ d) ++ r)%list) as (k & Ek & _ & _ & Hk).
  rewrite Ek.
  destruct (narrativeStep_app (highImpactOf liveNews) ((([] ++ d) ++ r) ++ k)%list)
    as (n & En & _ & _ & Hn).
  rewrite En. cbn [app]. split.
  - intros H. apply app_eq_nil in H. destruct H as [H Hn'].
    apply app_eq_nil in H. destruct H as [H Hk'].
    apply app_eq_nil in H. destruct H as [Hd' _].
    apply Hd in Hd'. apply Hk in Hk'. apply Hn in Hn'. tauto.
  - intros (Hb & Hbe & Hs & Hh).
    assert (Hd' : d = []) by (apply Hd; auto).
    assert (Hk' : k = []) by (apply Hk; auto).
    assert (Hn' : n = []) by (apply Hn; auto).
    assert (Hr' : r = []) by (apply Hr; rewrite Hh; reflexivity).
    subst. reflexivity.
Qed.

Lemma fallbackStep_cases (ideas : list Idea.t) :
  (ideas = [] /\ fallbackStep ideas = [noEdge])
  \/ (ideas <> [] /\ fallbackStep ideas = ideas).
Proof.
  unfold fallbackStep, push. destruct ideas; [left | right]; split; auto; discriminate.
Qed.

Lemma ruleIdeas_no_fallback (macro : Macro) (liveNews : list News.item) :
  countFallback (ruleIdeas numberToString rnd macro liveNews) = 0%nat.
Proof.
  destruct (ruleIdeas_parts macro liveNews)
    as (d & r & k & n & E & [_ Ad] & [_ Ar] & [_ Ak] & [_ An]).
  rewrite E, !countFallback_app.
  destruct (all_of_count "" _ _ Ad) as [_ ->].
  destruct (all_of_count "" _ _ Ar) as [_ ->].
  destruct (all_of_count "" _ _ Ak) as [_ ->].
  destruct (all_of_count "" _ _ An) as [_ ->].
  reflexivity.
Qed.

(** C5: for every macro snapshot and every non-empty news list the engine
    sets a non-empty idea list, and the one fallback idea (no strong edge)
    is in it exactly when the rules before it (directional, relative value,
    risk warning, narrative) emitted no idea. *)
Theorem C5_ideas_nonempty_fallback_iff_no_rule_idea
    (macro : Macro) (liveNews : list News.item) :
  liveNews <> [] ->
  exists ideas,
    tradeIdeaEngine numberToString rnd macro liveNews = Some ideas
    /\ ideas <> []
    /\ (countFallback ideas <= 1)%nat
    /\ (countFallback ideas = 1%nat <-> ruleIdeas numberToString rnd macro liveNews = [])
    /\ ((exists i, In i ideas /\ isFallback i = true)
        <-> ruleIdeas numberToString rnd macro liveNews = [])
    /\ (ruleIdeas numberToString rnd macro liveNews = [] -> ideas = [noEdge])
    /\ (ruleIdeas numberToString rnd macro liveNews <> [] ->
        ideas = ruleIdeas numberToString rnd macro liveNews).
Proof.
  intros Hne. exists (buildIdeas numberToString rnd macro liveNews).
  split; [destruct liveNews; [contradiction | reflexivity] |].
  unfold buildIdeas.
  pose proof (ruleIdeas_no_fallback macro liveNews) as Hnf.
  destruct (fallbackStep_cases (ruleIdeas numberToString rnd macro liveNews))
    as [[E ->] | [E ->]].
  - rewrite E. repeat split; auto; try discriminate.
    + intros _. exists noEdge. split; [left; reflexivity | reflexivity].
    + intros H. exfalso. apply H. reflexivity.
  - rewrite Hnf. repeat split; auto; try lia; try contradiction.
    + intros (i & Hi & Hf). exfalso.
      assert (Hin : In i (List.filter isFallback (ruleIdeas numberToString rnd macro liveNews))).
      { apply List.filter_In. split; assumption. }
      unfold countFallback in Hnf. apply length_zero_iff_nil in Hnf.
      rewrite Hnf in Hin. destruct Hin.
Qed.

(** C10: for every macro snapshot and every news list, the idea list has at
    most 8 ideas: at most one directional, one relative-value and one
    risk-warning idea, at most five narrative ideas, and the fallback idea
    only alone.  With an empty news list the engine sets no list. *)
Theorem C10_idea_list_bounds (macro : Macro) (liveNews : list News.item) :
  within_limits (buildIdeas numberToString rnd macro liveNews)
  /\ match tradeIdeaEngine numberToString rnd macro liveNews with
     | Some ideas => within_limits ideas
     | None => liveNews = []
     end.
Proof.
  assert (H : within_limits (buildIdeas numberToString rnd macro liveNews)).
  { unfold buildIdeas.
    pose proof (ruleIdeas_no_fallback macro liveNews) as Hnf.
    destruct (fallbackStep_cases (ruleIdeas numberToString rnd macro liveNews))
      as [[E ->] | [E ->]].
    - unfold within_limits. cbn. repeat split; lia.
    - destruct (ruleIdeas_parts macro liveNews)
        as (d & r & k & n & Eq & [Ld Ad] & [Lr Ar] & [Lk Ak] & [Ln An]).
      unfold within_limits. rewrite Hnf. rewrite Eq.
      rewrite !countCategory_app, !length_app.
      repeat match goal with
             | |- context [countCategory ?c ?l] =>
                 match goal with
                 | A : all_of _ l |- _ =>
                     let E := fresh "E" in
                     destruct (all_of_count c _ _ A) as [E _]; rewrite E; clear E
                 end
             end.
      cbn. repeat split; lia. }
  split; [exact H |].
  destruct liveNews; [reflexivity | exact H].
Qed.

End IdeaEngine.

Lemma C5_ideas_nonempty_witness :
  exists ideas,
    tradeIdeaEngine exponentDigits halfRandom loadingMacro
      [sampleItem "Low" "Neutral" "OKX" General] = Some ideas
    /\ ideas = [noEdge].
Proof.
  destruct (C5_ideas_nonempty_fallback_iff_no_rule_idea exponentDigits halfRandom
              loadingMacro [sampleItem "Low" "Neutral" "OKX" General])
    as (ideas & E & _ & _ & _ & _ & H & _); [discriminate |].
  exists ideas. split; [exact E | apply H; reflexivity].
Defined.

(** ** The asset correlator *)

Lemma correlate_frame (numberToString : Q -> string) (data : gmap string PriceInfo)
    (item : News.item) :
  same_but_priceMove item (correlate numberToString data item).
Proof.
  unfold correlate.
  destruct (data !! assetOf (News.category item)) as [info |];
    [destruct (usd_24h_change info) |];
    repeat split.
Qed.

(** C9: every item that passes through price enrichment keeps its id, title,
    source, publication date, category, summary, sentiment, impact and tags;
    only [priceMove] is written.  The list the effect sets has the items of
    [liveNews], one for one and in order. *)
Theorem C9_enrichment_changes_only_priceMove (numberToString : Q -> string)
    (fetch : string -> option (gmap string PriceInfo)) (data : gmap string PriceInfo)
    (liveNews : list News.item) :
  Forall2 same_but_priceMove liveNews (map (correlate numberToString data) liveNews)
  /\ match loadCorrelatedMoves numberToString fetch liveNews with
     | Some updated => Forall2 same_but_priceMove liveNews updated
     | None => True
     end.
Proof.
  assert (H : forall d, Forall2 same_but_priceMove liveNews
                          (map (correlate numberToString d) liveNews)).
  { intros d. induction liveNews as [| item l IH]; constructor.
    - apply correlate_frame.
    - exact IH. }
  split; [apply H |].
  unfold loadCorrelatedMoves. destruct liveNews as [| item l]; [exact I |].
  destruct (uniq [] _); [exact I |].
  destruct (fetch _); [apply H | exact I].
Qed.

(** ** Number formatting *)

Lemma decimal_numeral (m : N) : numeral (Num.decimal m) = Some m.
Proof.
  unfold numeral, Num.decimal, NilZero.string_of_uint.
  destruct (N.to_uint m) eqn:E;
    try (rewrite <- E, NilEmpty.usu; cbn [option_map];
         rewrite DecimalN.Unsigned.of_to; reflexivity).
  exfalso. destruct m as [| p]; [discriminate E |].
  exact (DecimalPos.Unsigned.to_uint_nonnil p E).
Qed.

Lemma decimal_nonempty (m : N) : Num.decimal m <> EmptyString.
Proof.
  unfold Num.decimal, NilZero.string_of_uint.
  destruct (N.to_uint m) eqn:Eu; cbn; discriminate.
Qed.

Lemma digit_char_mod (m : N) : Num.digit_char m = Num.digit_char (m mod 10).
Proof. unfold Num.digit_char. rewrite N.Div0.mod_mod. reflexivity. Qed.

Lemma numeral_two_digits (a b : N) :
  (a < 10)%N -> (b < 10)%N ->
  numeral (String (Num.digit_char a) (String (Num.digit_char b) EmptyString))
  = Some (a * 10 + b)%N.
Proof.
  intros Ha Hb.
  assert (Ea : (a = 0 \/ a = 1 \/ a = 2 \/ a = 3 \/ a = 4 \/ a = 5 \/ a = 6 \/ a = 7
                \/ a = 8 \/ a = 9)%N) by lia.
  assert (Eb : (b = 0 \/ b = 1 \/ b = 2 \/ b = 3 \/ b = 4 \/ b = 5 \/ b = 6 \/ b = 7
                \/ b = 8 \/ b = 9)%N) by lia.
  clear Ha Hb.
  repeat (destruct Ea as [-> | Ea]); subst;
    repeat (destruct Eb as [-> | Eb]); subst; reflexivity.
Qed.

Lemma scaled_round (x : Q) :
  (0 <= x)%Q ->
  (Qabs (inject_Z (Z.of_N (Num.scaled 2 x)) / 100 - x) <= 1 # 200)%Q.
Proof.
  intros Hx. unfold Num.scaled. change (Num.pow10 2) with 100%Q.
  set (y := (x * 100 + (1 # 2))%Q).
  pose proof (Qfloor_le y) as H1. pose proof (Qlt_floor y) as H2.
  assert (H0 : (0 <= Qfloor y)%Z).
  { change 0%Z with (Qfloor 0). apply Qfloor_resp_le. unfold y. lra. }
  rewrite Z2N.id by exact H0.
  rewrite inject_Z_plus in H2. change (inject_Z 1) with 1%Q in H2.
  set (n := inject_Z (Qfloor y)) in *. unfold y in H1, H2.
  assert (E : (n / 100 == n * (1 # 100))%Q) by (unfold Qdiv; reflexivity).
  rewrite E. apply Qabs_Qle_condition. split; lra.
Qed.

Lemma toFixed_2 (numberToString : Q -> string) (x : Q) :
  (Qabs x < inject_Z (10 ^ 21))%Q ->
  Num.toFixed numberToString 2 x =
    (if Num.lt x 0 then "-" else "")
    ++ (Num.decimal (Num.scaled 2 (Qabs x) / 100) ++ "."
        ++ String (Num.digit_char (Num.scaled 2 (Qabs x) / 10))
             (String (Num.digit_char (Num.scaled 2 (Qabs x))) EmptyString)).
Proof.
  intros Hx. unfold Num.toFixed.
  assert (E : Qle_bool (inject_Z (10 ^ 21)) (Qabs x) = false).
  { destruct (Qle_bool _ _) eqn:E; [| reflexivity].
    apply Qle_bool_iff in E. exfalso. apply (Qlt_not_le _ _ Hx E). }
  rewrite E. reflexivity.
Qed.

Lemma two_decimals_toFixed (x : Q) :
  (0 <= x)%Q ->
  two_decimals x
    (Num.decimal (Num.scaled 2 x / 100) ++ "."
     ++ String (Num.digit_char (Num.scaled 2 x / 10))
          (String (Num.digit_char (Num.scaled 2 x)) EmptyString)).
Proof.
  intros Hx. set (n := Num.scaled 2 x).
  exists (Num.decimal (n / 100)),
         (String (Num.digit_char (n / 10)) (String (Num.digit_char n) EmptyString)),
         (n / 100)%N, (n mod 100)%N.
  split; [reflexivity |].
  split; [apply decimal_nonempty |].
  split; [reflexivity |].
  split; [apply decimal_numeral |].
  split.
  - rewrite (digit_char_mod (n / 10)), (digit_char_mod n).
    rewrite numeral_two_digits by (apply N.mod_upper_bound; discriminate).
    f_equal.
    pose proof (N.div_mod n 10). pose proof (N.div_mod (n / 10) 10).
    pose proof (N.div_mod n 100). pose proof (N.Div0.div_div n 10 10) as Hdd.
    change (10 * 10)%N with 100%N in Hdd. lia.
  - replace (n / 100 * 100 + n mod 100)%N with n by (pose proof (N.div_mod n 100); lia).
    apply scaled_round. exact Hx.
Qed.

(** ** Price moves *)

Lemma assetOf_table (c : Category) : assetOf c = CATEGORY_ASSET_MAP c.
Proof. destruct c; reflexivity. Qed.

Lemma sign_cases (pct : Q) :
  (Num.gt pct 0 = true /\ Num.lt pct 0 = false /\ (0 < pct)%Q)
  \/ (Num.gt pct 0 = false /\ Num.lt pct 0 = true /\ (pct < 0)%Q)
  \/ (Num.gt pct 0 = false /\ Num.lt pct 0 = false /\ (pct == 0)%Q).
Proof.
  destruct (Num.gt pct 0) eqn:G; [apply gt_true in G | apply gt_false in G];
    (destruct (Num.lt pct 0) eqn:L; [apply lt_true in L | apply lt_false in L]).
  - exfalso. lra.
  - left. auto.
  - right. left. auto.
  - right. right. repeat split. lra.
Qed.

(** The claim of the specification as it is written: the change is always
    formatted with a sign.  A change of exactly 0 is written without one. *)
Lemma C8_zero_change_unsigned :
  let item := sampleItem "High" "Neutral" "Binance" General in
  let data := oneAsset "bitcoin" (Some 0%Q) in
  changeFor data item = Some 0%Q
  /\ News.priceMove (correlate exponentDigits data item) = "0.00%"
  /\ ~ explicit_sign (News.priceMove (correlate exponentDigits data item)).
Proof.
  cbv zeta. split; [reflexivity |].
  assert (E : News.priceMove
                (correlate exponentDigits (oneAsset "bitcoin" (Some 0%Q))
                   (sampleItem "High" "Neutral" "Binance" General)) = "0.00%")
    by (vm_compute; reflexivity).
  split; [exact E |].
  rewrite E. intros [rest [H | H]]; discriminate H.
Qed.

(** C8, amended: for every item and price snapshot, [priceMove] is "N/A"
    when the snapshot lacks the representative asset of the item's category
    or its 24h change; otherwise (for a change below 10^21 in magnitude) it
    is the change rounded to hundredths with exactly two decimals, followed
    by "%", with "+" in front of a change above zero, "-" in front of a
    change below zero and no sign for a change of exactly zero. *)
Theorem C8_priceMove_format (numberToString : Q -> string)
    (data : gmap string PriceInfo) (item : News.item) :
  (changeFor data item = None ->
   News.priceMove (correlate numberToString data item) = "N/A")
  /\ (forall pct,
        changeFor data item = Some pct ->
        (Qabs pct < inject_Z (10 ^ 21))%Q ->
        formatted_change pct (News.priceMove (correlate numberToString data item))).
Proof.
  unfold changeFor, correlate. rewrite assetOf_table.
  destruct (data !! CATEGORY_ASSET_MAP (News.category item)) as [info |];
    [| split; [reflexivity | discriminate]].
  destruct (usd_24h_change info) as [pct |]; [| split; [reflexivity | discriminate]].
  split; [discriminate |].
  intros pct' [= <-] Hsmall. cbn [News.priceMove]. rewrite (toFixed_2 _ _ Hsmall).
  pose proof (two_decimals_toFixed (Qabs pct) (Qabs_nonneg pct)) as H2.
  unfold formatted_change, sign_rule.
  destruct (sign_cases pct) as [(-> & -> & H) | [(-> & -> & H) | (-> & -> & H)]].
  - exists "+". eexists. split; [reflexivity |]. split; [| exact H2].
    repeat split; intros; try reflexivity; exfalso; lra.
  - exists "-". eexists. split; [reflexivity |]. split; [| exact H2].
    repeat split; intros; try reflexivity; exfalso; lra.
  - exists EmptyString. eexists. split; [reflexivity |]. split; [| exact H2].
    repeat split; intros; try reflexivity; exfalso; lra.
Qed.

Lemma C8_priceMove_format_witness :
  formatted_change (-5 # 4)
    (News.priceMove
       (correlate exponentDigits (oneAsset "solana" (Some (-5 # 4)%Q))
          (sampleItem "High" "Bearish" "OKX" Solana)))
  /\ News.priceMove
       (correlate exponentDigits (oneAsset "solana" (Some (-5 # 4)%Q))
          (sampleItem "High" "Bearish" "OKX" General)) = "N/A".
Proof.
  split.
  - apply (proj2 (C8_priceMove_format exponentDigits (oneAsset "solana" (Some (-5 # 4)%Q))
                    (sampleItem "High" "Bearish" "OKX" Solana)) (-5 # 4)%Q);
      reflexivity.
  - apply (proj1 (C8_priceMove_format exponentDigits (oneAsset "solana" (Some (-5 # 4)%Q))
                    (sampleItem "High" "Bearish" "OKX" General))).
    reflexivity.
Defined.

(** ** The news normalizer *)

Lemma Some_eq {A : Type} (a b : A) : Some a = Some b -> a = b.
Proof. intros H. injection H as H. exact H. Qed.

Section NewsNormalizer.

Variable window : option Document.
Variable rnd : nat -> Q.

Lemma newsItem_made (i j k : nat) (endpoint : Endpoint) (r : Raw.item) :
  nth_error EXCHANGE_NEWS_ENDPOINTS i = Some endpoint ->
  exists n, newsItem window rnd i k r = Some n
            /\ made_from window n {| provider := j; slot := i; raw := r |}.
Proof.
  intros E. unfold newsItem. rewrite E. eexists. split; [reflexivity |].
  exists endpoint. cbn. unfold content_of. cbn. repeat split; auto.
Qed.

Lemma mapItems_made (i j k : nat) (l : list Raw.item) :
  (i < length EXCHANGE_NEWS_ENDPOINTS)%nat ->
  exists out,
    mapItems window rnd i k l = Some out
    /\ Forall2 (made_from window) out
         (map (fun r => {| provider := j; slot := i; raw := r |}) l).
Proof.
  intros Hi.
  destruct (nth_error EXCHANGE_NEWS_ENDPOINTS i) as [endpoint |] eqn:E;
    [| apply nth_error_None in E; lia].
  revert k. induction l as [| r l IH]; intros k; cbn [mapItems map].
  - exists []. split; [reflexivity | constructor].
  - destruct (newsItem_made i j k endpoint r E) as (n & -> & Hn).
    destruct (IH (S k)) as (out & -> & Hout).
    exists (n :: out). split; [reflexivity |].
    constructor; [exact Hn | exact Hout].
Qed.

Lemma filterBoolean_length (results : list (option Payload)) :
  (length (filterBoolean results) <= length results)%nat.
Proof.
  induction results as [| [res |] rest IH]; cbn [filterBoolean length]; lia.
Qed.

Lemma flatMapResults_made (results : list (option Payload)) (s j k : nat) :
  (s + length (filterBoolean results) <= length EXCHANGE_NEWS_ENDPOINTS)%nat ->
  exists out,
    flatMapResults window rnd s k (filterBoolean results) = Some out
    /\ Forall2 (made_from window) out (originsFrom s j results).
Proof.
  revert s j k. induction results as [| [res |] rest IH]; intros s j k Hs.
  - exists []. split; [reflexivity | constructor].
  - cbn [filterBoolean flatMapResults originsFrom length] in *.
    destruct (mapItems_made s j k (itemsOf res)) as (ns & -> & Hns); [lia |].
    destruct (IH (S s) (S j) (k + length (itemsOf res))%nat) as (ms & -> & Hms); [lia |].
    exists (ns ++ ms)%list. split; [reflexivity |].
    apply Forall2_app; assumption.
  - cbn [filterBoolean originsFrom]. cbn [filterBoolean] in Hs. apply IH. exact Hs.
Qed.

(** The slot of a payload is the index of its provider as long as no fetch
    before it failed. *)
Lemma originsFrom_slot (results : list (option Payload)) (s j : nat) (o : Origin) :
  In o (originsFrom s j results) ->
  (j <= provider o)%nat
  /\ ((forall t, (t < provider o - j)%nat -> nth_error results t <> Some None) ->
      (slot o - s = provider o - j)%nat /\ (s <= slot o)%nat).
Proof.
  revert s j. induction results as [| [res |] rest IH]; intros s j Hin.
  - destruct Hin.
  - cbn [originsFrom] in Hin. apply in_app_or in Hin. destruct Hin as [Hin | Hin].
    + apply in_map_iff in Hin. destruct Hin as (r & <- & _). cbn. split; [lia |].
      intros _. lia.
    + destruct (IH _ _ Hin) as [Hj Hs]. split; [lia |].
      intros Hok. destruct Hs as [Hs1 Hs2].
      * intros t Ht. apply (Hok (S t)). lia.
      * lia.
  - cbn [originsFrom] in Hin. destruct (IH _ _ Hin) as [Hj _]. split; [lia |].
    intros Hok. exfalso. apply (Hok 0%nat); [lia | reflexivity].
Qed.

Lemma Forall2_impl_In {A B : Type} (R R' : A -> B -> Prop) (l1 : list A) (l2 : list B) :
  Forall2 R l1 l2 ->
  (forall a b, In b l2 -> R a b -> R' a b) ->
  Forall2 R' l1 l2.
Proof.
  induction 1 as [| a b l1 l2 Hab _ IH]; intros Himp; constructor.
  - apply Himp; [left; reflexivity | exact Hab].
  - apply IH. intros a' b' Hin. apply Himp. right. exact Hin.
Qed.

(** The list [loadNews] sets: the first 60 of the items made from the
    payloads that arrived. *)
Lemma loadNews_made (fetch : string -> option Payload) :
  exists out,
    loadNews window fetch rnd = Some (firstn 60 out)
    /\ Forall2 (made_from window) out (origins (resultsOf fetch)).
Proof.
  unfold loadNews, mergeNews. fold (resultsOf fetch).
  destruct (flatMapResults_made (resultsOf fetch) 0 0 0) as (out & E & H).
  { pose proof (filterBoolean_length (resultsOf fetch)) as Hl.
    unfold resultsOf in Hl at 2. rewrite length_map in Hl. lia. }
  exists out. rewrite E. split; [reflexivity | exact H].
Qed.

End NewsNormalizer.

Lemma originsFrom_slot_arrived (results : list (option Payload)) (s j : nat) (o : Origin) :
  In o (originsFrom s j results) ->
  (j <= provider o)%nat
  /\ slot o = (s + arrived (firstn (provider o - j) results))%nat.
Proof.
  revert s j. induction results as [| [res |] rest IH]; intros s j Hin.
  - destruct Hin.
  - cbn [originsFrom] in Hin. apply in_app_or in Hin. destruct Hin as [Hin | Hin].
    + apply in_map_iff in Hin. destruct Hin as (r & <- & _).
      cbn [provider slot]. rewrite Nat.sub_diag. cbn. lia.
    + destruct (IH _ _ Hin) as [Hj Hs]. split; [lia |].
      replace (provider o - j)%nat with (S (provider o - S j)) by lia.
      cbn [firstn arrived]. lia.
  - cbn [originsFrom] in Hin. destruct (IH _ _ Hin) as [Hj Hs]. split; [lia |].
    replace (provider o - j)%nat with (S (provider o - S j)) by lia.
    cbn [firstn arrived]. exact Hs.
Qed.

Lemma arrived_le (results : list (option Payload)) (j : nat) :
  (arrived (firstn j results) <= j)%nat.
Proof.
  revert j. induction results as [| [res |] rest IH]; intros [| j]; cbn [firstn arrived];
    try lia; specialize (IH j); lia.
Qed.

Lemma arrived_lt (results : list (option Payload)) (j : nat) :
  (exists j', (j' < j)%nat /\ nth_error results j' = Some None) ->
  (arrived (firstn j results) < j)%nat.
Proof.
  revert j. induction results as [| r rest IH]; intros j (j' & Hlt & Hn).
  - destruct j'; discriminate Hn.
  - destruct j as [| j]; [lia |]. destruct j' as [| j'].
    + cbn in Hn. apply Some_eq in Hn. subst r. cbn [firstn arrived].
      pose proof (arrived_le rest j). lia.
    + cbn [nth_error] in Hn.
      assert (H : (arrived (firstn j rest) < j)%nat)
        by (apply IH; exists j'; split; [lia | exact Hn]).
      destruct r; cbn [firstn arrived]; lia.
Qed.

Lemma endpoint_names_differ (i j : nat) (a b : Endpoint) :
  (i < j)%nat ->
  nth_error EXCHANGE_NEWS_ENDPOINTS i = Some a ->
  nth_error EXCHANGE_NEWS_ENDPOINTS j = Some b ->
  name a <> name b.
Proof.
  intros Hlt Ha Hb.
  assert (Hj : (j < 5)%nat).
  { destruct (Nat.lt_ge_cases j 5) as [H | H]; [exact H |].
    do 5 (destruct j as [| j]; [lia |]). destruct j; discriminate Hb. }
  assert (Hi : (i < 5)%nat) by lia.
  do 5 (destruct i as [| i];
        [do 5 (destruct j as [| j];
               [try lia; cbn in Ha, Hb; apply Some_eq in Ha; apply Some_eq in Hb;
                subst a b; discriminate |]); lia |]).
  lia.
Qed.

(** C1: where the code breaks the claim.  In every cycle, an item whose
    payload arrived behind a failed fetch does not carry the name of its
    provider as [source]: it carries the name of an earlier endpoint, the
    one at the position of the payload among the payloads that arrived,
    because [EXCHANGE_NEWS_ENDPOINTS[i]] is indexed after
    [results.filter(Boolean)]. *)
Theorem C1_items_behind_failed_fetch_mislabelled (window : option Document)
    (fetch : string -> option Payload) (rnd : nat -> Q) :
  exists merged,
    loadNews window fetch rnd = Some merged
    /\ Forall2
         (fun n o =>
            (exists j', (j' < provider o)%nat
                        /\ nth_error (resultsOf fetch) j' = Some None) ->
            Some (News.source n)
              = providerName (arrived (firstn (provider o) (resultsOf fetch)))
            /\ (arrived (firstn (provider o) (resultsOf fetch)) < provider o)%nat
            /\ Some (News.source n) <> providerName (provider o))
         merged (firstn 60 (origins (resultsOf fetch))).
Proof.
  destruct (loadNews_made window rnd fetch) as (out & E & H).
  exists (firstn 60 out). split; [exact E |].
  apply Forall2_take. apply (Forall2_impl_In _ _ _ _ H).
  intros n o Hin (endpoint & Hep & Hsrc & _) Hfail.
  destruct (originsFrom_slot_arrived _ _ _ _ Hin) as [_ Hs].
  rewrite Nat.sub_0_r in Hs. cbn [Nat.add] in Hs.
  pose proof (arrived_lt _ _ Hfail) as Hlt.
  rewrite Hs in Hep. unfold providerName. rewrite Hep. cbn [option_map].
  split; [rewrite Hsrc; reflexivity |]. split; [exact Hlt |].
  destruct (nth_error EXCHANGE_NEWS_ENDPOINTS (provider o)) as [own |] eqn:Eo;
    [| discriminate].
  cbn [option_map]. intros Heq. apply Some_eq in Heq.
  apply (endpoint_names_differ _ _ _ _ Hlt Hep Eo). rewrite <- Hsrc. exact Heq.
Qed.

Lemma C1_items_behind_failed_fetch_mislabelled_witness :
  let fetch := onlyFeed "Bybit" [titled "Listing notice"] in
  exists n,
    loadNews None fetch halfRandom = Some [n]
    /\ nth_error (resultsOf fetch) 0 = Some None
    /\ origins (resultsOf fetch)
       = [{| provider := 1; slot := 0; raw := titled "Listing notice" |}]
    /\ providerName 1 = Some "Bybit"
    /\ News.source n = "Binance"
    /\ ~ sources_right_and_items_kept None [n] (resultsOf fetch).
Proof.
  cbv zeta.
  destruct (C1_items_behind_failed_fetch_mislabelled None
              (onlyFeed "Bybit" [titled "Listing notice"]) halfRandom)
    as (merged & E & H).
  change (firstn 60 (origins (resultsOf (onlyFeed "Bybit" [titled "Listing notice"]))))
    with [{| provider := 1; slot := 0; raw := titled "Listing notice" |}] in H.
  inversion H as [| n o l l' Hn Hrest]; subst. inversion Hrest; subst.
  exists n. split; [exact E |]. split; [reflexivity |]. split; [reflexivity |].
  split; [reflexivity |].
  destruct Hn as (Hsrc & _ & Hne).
  { exists 0%nat. split; [cbn; lia | reflexivity]. }
  split.
  - change (providerName (arrived (firstn (provider {| provider := 1; slot := 0;
                                                        raw := titled "Listing notice" |})
                                     (resultsOf (onlyFeed "Bybit" [titled "Listing notice"])))))
      with (Some "Binance") in Hsrc.
    apply Some_eq in Hsrc. exact Hsrc.
  - intros Hk. inversion Hk as [| n' o' l1 l2 [Hs _] _]; subst.
    apply Hne. exact Hs.
Defined.






(** ** The scenario of the specification *)

Lemma cleanSummary_sentinel (window : option Document) :
  dom_keeps window NO_SUMMARY ->
  cleanSummary window (Some NO_SUMMARY) = NO_SUMMARY.
Proof.
  intros Hdom. unfold cleanSummary.
  change (NO_SUMMARY =? "")%string with false. cbv iota.
  assert (Hregex : cleanText (JS.strip_tags NO_SUMMARY) = NO_SUMMARY)
    by (vm_compute; reflexivity).
  rewrite Hregex.
  destruct window as [document |]; [| reflexivity].
  destruct (document NO_SUMMARY) as [div |] eqn:E; [| reflexivity].
  rewrite (Hdom document div eq_refl E). vm_compute. reflexivity.
Qed.

(** C2: what the code does on the scenario of the specification.  The list
    has two items and the first is of category AI, but so is the second:
    the text that is classified is the title followed by the summary, the
    summary of an item without description is "No summary available.", and
    "available" contains "ai". *)
Theorem C2_scenario_second_item_is_AI (window : option Document) (rnd : nat -> Q)
    (others : option Payload) :
  dom_keeps window NO_SUMMARY ->
  match others with Some res => itemsOf res = [] | None => True end ->
  exists first second,
    loadNews window (scenario others) rnd = Some [first; second]
    /\ News.title first = "Binance Lists New AI Token"
    /\ News.title second = "Bitcoin breaks key level"
    /\ News.category first = AI
    /\ News.summary second = "No summary available."
    /\ News.category second = AI
    /\ classifyCategory "Bitcoin breaks key level" = General.
Proof.
  intros Hdom Hothers.
  assert (Hres : resultsOf (scenario others)
                 = [Some {| items := Some [titled "Binance Lists New AI Token"] |};
                    others; others;
                    Some {| items := Some [titled "Bitcoin breaks key level"] |};
                    others]) by reflexivity.
  unfold loadNews, mergeNews. fold (resultsOf (scenario others)). rewrite Hres.
  assert (Hitem : forall i k t endpoint,
             nth_error EXCHANGE_NEWS_ENDPOINTS i = Some endpoint ->
             newsItem window rnd i k (titled t) =
               Some {| News.id := name endpoint ++ "-" ++ JS.or_else (Some t) "Untitled";
                       News.title := JS.or_else (Some t) "Untitled";
                       News.source := name endpoint;
                       News.timeAgo := "";
                       News.impact := Num.pick impacts (rnd (2 * k)%nat);
                       News.sentiment := Num.pick sentiments (rnd (2 * k + 1)%nat);
                       News.priceMove := "N/A";
                       News.category :=
                         classifyCategory (JS.or_else (Some t) "Untitled" ++ " " ++ NO_SUMMARY);
                       News.summary := NO_SUMMARY;
                       News.tags :=
                         [name endpoint;
                          categoryName
                            (classifyCategory
                               (JS.or_else (Some t) "Untitled" ++ " " ++ NO_SUMMARY))] |}).
  { intros i k t endpoint E. unfold newsItem. rewrite E.
    cbn [Raw.description Raw.title Raw.guid Raw.link Raw.pubDate titled].
    change (JS.or_else None NO_SUMMARY) with NO_SUMMARY.
    rewrite (cleanSummary_sentinel window Hdom). reflexivity. }
  destruct others as [res |].
  - cbn [filterBoolean flatMapResults]. rewrite Hothers.
    cbn [itemsOf items mapItems length].
    rewrite (Hitem 0%nat _ _ _ eq_refl), (Hitem 3%nat _ _ _ eq_refl).
    do 2 eexists. split; [reflexivity |]. repeat split.
  - cbn [filterBoolean flatMapResults itemsOf items mapItems length].
    rewrite (Hitem 0%nat _ _ _ eq_refl), (Hitem 1%nat _ _ _ eq_refl).
    do 2 eexists. split; [reflexivity |]. repeat split.
Qed.

Lemma C2_scenario_second_item_is_AI_witness :
  exists first second,
    loadNews None (scenario None) halfRandom = Some [first; second]
    /\ News.category first = AI
    /\ News.category second = AI.
Proof.
  destruct (C2_scenario_second_item_is_AI None halfRandom None)
    as (first & second & E & _ & _ & H1 & _ & H2 & _).
  - intros document div H. discriminate H.
  - exact I.
  - exists first, second. auto.
Defined.

(** ** The text normalizer *)

(** *** Matches of the URL pattern *)

Lemma append_cons (c : ascii) (a b : string) : String c a ++ b = String c (a ++ b).
Proof. reflexivity. Qed.

Lemma append_nil (b : string) : EmptyString ++ b = b.
Proof. reflexivity. Qed.

Lemma after_prefix_app (p s r : string) :
  JS.after_prefix p s = Some r <-> s = p ++ r.
Proof.
  revert s. induction p as [| a p IH]; intros s; rewrite ?append_cons, ?append_nil; cbn [JS.after_prefix].
  - split; [intros [= ->]; reflexivity | intros ->; reflexivity].
  - destruct s as [| b s]; [split; discriminate |].
    destruct (Ascii.eqb_spec a b) as [-> | Hne].
    + rewrite IH. split; [intros ->; reflexivity | intros [= ->]; reflexivity].
    + split; [discriminate | intros [= E _]; congruence].
Qed.

Lemma url_at_iff (s : string) :
  JS.url_at s = true <->
  exists c r, JS.is_space c = false
              /\ (s = "https://" ++ String c r \/ s = "http://" ++ String c r).
Proof.
  unfold JS.url_at. split.
  - destruct (JS.after_prefix "https://" s) as [r |] eqn:E1.
    + apply after_prefix_app in E1. destruct r as [| c r]; [discriminate |].
      cbn [JS.nonspace_head]. rewrite negb_true_iff. intros Hc.
      exists c, r. split; [exact Hc | left; exact E1].
    + destruct (JS.after_prefix "http://" s) as [r |] eqn:E2; [| discriminate].
      apply after_prefix_app in E2. destruct r as [| c r]; [discriminate |].
      cbn [JS.nonspace_head]. rewrite negb_true_iff. intros Hc.
      exists c, r. split; [exact Hc | right; exact E2].
  - intros (c & r & Hc & [-> | ->]).
    + replace (JS.after_prefix "https://" ("https://" ++ String c r))
        with (Some (String c r)) by reflexivity.
      cbn [JS.nonspace_head]. rewrite Hc. reflexivity.
    + replace (JS.after_prefix "https://" ("http://" ++ String c r))
        with (@None string) by reflexivity.
      replace (JS.after_prefix "http://" ("http://" ++ String c r))
        with (Some (String c r)) by reflexivity.
      cbn [JS.nonspace_head]. rewrite Hc. reflexivity.
Qed.

Lemma url_at_app (p t : string) : JS.url_at p = true -> JS.url_at (p ++ t) = true.
Proof.
  rewrite !url_at_iff. intros (c & r & Hc & [-> | ->]);
    exists c, (r ++ t); (split; [exact Hc |]); [left | right]; reflexivity.
Qed.

Lemma word_prefix (s : string) : exists t, s = word s ++ t.
Proof.
  induction s as [| c s [t IH]]; [exists EmptyString; reflexivity |].
  cbn [word]. destruct (JS.is_space c).
  - exists (String c s). reflexivity.
  - exists t. rewrite append_cons, <- IH. reflexivity.
Qed.

Lemma url_at_word (s : string) : JS.url_at (word s) = JS.url_at s.
Proof.
  destruct (JS.url_at s) eqn:E.
  - apply url_at_iff in E. destruct E as (c & r & Hc & [-> | ->]);
      apply url_at_iff; exists c, (word r); (split; [exact Hc |]); [left | right];
      rewrite ?append_cons, ?append_nil; cbn [word];
      repeat match goal with
             | |- context [JS.is_space ?a] =>
                 lazymatch a with
                 | c => fail
                 | _ => change (JS.is_space a) with false; cbv iota
                 end
             end;
      rewrite Hc; reflexivity.
  - destruct (JS.url_at (word s)) eqn:E'; [| reflexivity].
    destruct (word_prefix s) as [t Ht].
    apply (url_at_app _ t) in E'. rewrite <- Ht in E'. congruence.
Qed.

Lemma url_at_head (c : ascii) (s : string) :
  JS.url_at (String c s) = true -> JS.is_space c = false.
Proof.
  intros H. apply url_at_iff in H.
  destruct H as (d & r & _ & [[= -> _] | [= -> _]]); reflexivity.
Qed.

Lemma word_strip_inside (s : string) : word (JS.strip_urls_from true s) = EmptyString.
Proof.
  induction s as [| c s IH]; [reflexivity |].
  cbn [JS.strip_urls_from]. destruct (JS.is_space c) eqn:E; [| exact IH].
  cbn [word]. rewrite E. reflexivity.
Qed.

Lemma word_strip_urls (s : string) :
  exists t, word s = word (JS.strip_urls_from false s) ++ t.
Proof.
  induction s as [| c s [t IH]]; [exists EmptyString; reflexivity |].
  cbn [JS.strip_urls_from]. destruct (JS.url_at (String c s)).
  - rewrite word_strip_inside. eexists. reflexivity.
  - cbn [word]. destruct (JS.is_space c).
    + exists EmptyString. reflexivity.
    + exists t. rewrite append_cons, <- IH. reflexivity.
Qed.

Lemma url_at_strip_urls (s : string) :
  JS.url_at (JS.strip_urls_from false s) = true -> JS.url_at s = true.
Proof.
  intros H. rewrite <- url_at_word in H. destruct (word_strip_urls s) as [t Ht].
  apply (url_at_app _ t) in H. rewrite <- Ht, url_at_word in H. exact H.
Qed.

Lemma has_match_cons (f : string -> bool) (c : ascii) (s : string) :
  has_match f (String c s) = f (String c s) || has_match f s.
Proof. reflexivity. Qed.

Lemma strip_urls_no_url (inside : bool) (s : string) :
  has_url (JS.strip_urls_from inside s) = false.
Proof.
  unfold has_url. revert inside. induction s as [| c s IH]; intros inside.
  - destruct inside; reflexivity.
  - cbn [JS.strip_urls_from]. destruct inside.
    + destruct (JS.is_space c) eqn:E; [| apply IH].
      rewrite has_match_cons, IH, orb_false_r.
      destruct (JS.url_at _) eqn:U; [| reflexivity].
      apply url_at_head in U. congruence.
    + destruct (JS.url_at (String c s)) eqn:U; [apply IH |].
      rewrite has_match_cons, IH, orb_false_r.
      destruct (JS.url_at (String c (JS.strip_urls_from false s))) eqn:U'; [| reflexivity].
      assert (H : JS.url_at (JS.strip_urls_from false (String c s)) = true).
      { cbn [JS.strip_urls_from]. rewrite U. exact U'. }
      apply url_at_strip_urls in H. congruence.
Qed.

Lemma word_collapse_ws (s : string) : word (JS.collapse_ws_from false s) = word s.
Proof.
  induction s as [| c s IH]; [reflexivity |].
  cbn [JS.collapse_ws_from word]. destruct (JS.is_space c) eqn:E.
  - reflexivity.
  - cbn [word]. rewrite E, IH. reflexivity.
Qed.

Lemma collapse_ws_no_url (inside : bool) (s : string) :
  has_url s = false -> has_url (JS.collapse_ws_from inside s) = false.
Proof.
  unfold has_url. revert inside. induction s as [| c s IH]; intros inside H.
  - reflexivity.
  - rewrite has_match_cons in H. apply orb_false_iff in H. destruct H as [Hc Hs].
    cbn [JS.collapse_ws_from]. destruct (JS.is_space c) eqn:E.
    + destruct inside; [apply IH; exact Hs |].
      rewrite has_match_cons, (IH true Hs), orb_false_r.
      destruct (JS.url_at (String " " _)) eqn:U; [| reflexivity].
      apply url_at_head in U. vm_compute in U. discriminate U.
    + rewrite has_match_cons, (IH false Hs), orb_false_r.
      assert (W : word (String c s) = String c (word s))
        by (cbn [word]; rewrite E; reflexivity).
      rewrite <- (url_at_word (String c (JS.collapse_ws_from false s))).
      cbn [word]. rewrite E, word_collapse_ws, <- W, url_at_word. exact Hc.
Qed.

Lemma has_url_app (p t : string) : has_url p = true -> has_url (p ++ t) = true.
Proof.
  unfold has_url. induction p as [| c p IH]; [discriminate |].
  rewrite has_match_cons, append_cons, has_match_cons.
  intros H. apply orb_true_iff in H. apply orb_true_iff. destruct H as [H | H].
  - left. apply (url_at_app (String c p) t). exact H.
  - right. apply IH. exact H.
Qed.

Lemma trimStart_suffix (f : string -> bool) (s : string) :
  has_match f s = false -> has_match f (JS.trimStart s) = false.
Proof.
  induction s as [| c s IH]; [auto |].
  intros H. cbn [JS.trimStart]. destruct (JS.is_space c); [| exact H].
  apply IH. rewrite has_match_cons in H. apply orb_false_iff in H. tauto.
Qed.

Lemma trimEnd_prefix (s : string) : exists t, s = JS.trimEnd s ++ t.
Proof.
  induction s as [| c s [t IH]]; [exists EmptyString; reflexivity |].
  cbn [JS.trimEnd]. destruct (JS.is_space c && (JS.trimEnd s =? "")%string).
  - exists (String c s). reflexivity.
  - exists t. rewrite append_cons, <- IH. reflexivity.
Qed.

Lemma trim_no_url (s : string) : has_url s = false -> has_url (JS.trim s) = false.
Proof.
  intros H. unfold JS.trim.
  apply (trimStart_suffix JS.url_at) in H. fold has_url in H.
  destruct (has_url (JS.trimEnd (JS.trimStart s))) eqn:E; [| reflexivity].
  destruct (trimEnd_prefix (JS.trimStart s)) as [t Ht].
  apply (has_url_app _ t) in E. rewrite <- Ht in E. congruence.
Qed.

Lemma cleanText_no_url (text : string) : has_url (cleanText text) = false.
Proof.
  unfold cleanText, JS.or_str.
  destruct (_ =? "")%string; [reflexivity |].
  apply trim_no_url, collapse_ws_no_url, strip_urls_no_url.
Qed.

(** *** Matches of the tag pattern *)

Lemma tag_at_head (c : ascii) (s : string) : JS.tag_at (String c s) = true -> c = "<"%char.
Proof.
  unfold JS.tag_at. destruct s as [| d r]; [discriminate |].
  destruct (Ascii.eqb_spec c "<"); [auto | discriminate].
Qed.

Lemma tag_at_gt (r : string) : JS.tag_at (String ">" r) = false.
Proof. destruct r; reflexivity. Qed.

(** Keeping the head of [s] keeps it free of a match, when what follows it
    has no new [">"], keeps a leading [">"], and stays empty if it was. *)
Lemma tag_at_emit (c : ascii) (s o : string) :
  JS.tag_at (String c s) = false ->
  (JS.contains_char ">" s = false -> JS.contains_char ">" o = false) ->
  (forall r, s = String ">" r -> exists r', o = String ">" r') ->
  (s = EmptyString -> o = EmptyString) ->
  JS.tag_at (String c o) = false.
Proof.
  intros Ht Hgt Hhead Hnil. unfold JS.tag_at in *.
  destruct (Ascii.eqb c "<"); [| destruct o; reflexivity].
  destruct s as [| d r]; [rewrite Hnil; reflexivity |].
  destruct (Ascii.eqb_spec d ">") as [-> | Hd].
  - destruct (Hhead r eq_refl) as [r' ->]. reflexivity.
  - cbn [andb negb] in Ht.
    assert (Hs : JS.contains_char ">" (String d r) = false).
    { cbn [JS.contains_char]. rewrite Ht.
      destruct (Ascii.eqb_spec d ">"); [contradiction | reflexivity]. }
    specialize (Hgt Hs). destruct o as [| e r']; [reflexivity |].
    cbn [JS.contains_char] in Hgt. apply orb_false_iff in Hgt. destruct Hgt as [_ ->].
    apply andb_false_r.
Qed.

Lemma strip_tags_gt (inside : bool) (s : string) :
  JS.contains_char ">" s = false ->
  JS.contains_char ">" (JS.strip_tags_from inside s) = false.
Proof.
  revert inside. induction s as [| c s IH]; intros inside H; [reflexivity |].
  cbn [JS.contains_char] in H. apply orb_false_iff in H. destruct H as [Hc Hs].
  cbn [JS.strip_tags_from]. destruct inside.
  - rewrite Hc. apply IH. exact Hs.
  - destruct (JS.tag_at (String c s)); [apply IH; exact Hs |].
    cbn [JS.contains_char]. rewrite Hc. apply IH. exact Hs.
Qed.

Lemma strip_tags_no_tag (inside : bool) (s : string) :
  has_tag (JS.strip_tags_from inside s) = false.
Proof.
  unfold has_tag. revert inside. induction s as [| c s IH]; intros inside.
  - destruct inside; reflexivity.
  - cbn [JS.strip_tags_from]. destruct inside.
    + destruct (Ascii.eqb c ">"); apply IH.
    + destruct (JS.tag_at (String c s)) eqn:T; [apply IH |].
      rewrite has_match_cons, IH, orb_false_r.
      apply (tag_at_emit c s); [exact T | apply strip_tags_gt | | intros ->; reflexivity].
      intros r ->. cbn [JS.strip_tags_from]. rewrite tag_at_gt. eexists. reflexivity.
Qed.

Lemma strip_urls_gt (inside : bool) (s : string) :
  JS.contains_char ">" s = false ->
  JS.contains_char ">" (JS.strip_urls_from inside s) = false.
Proof.
  revert inside. induction s as [| c s IH]; intros inside H; [reflexivity |].
  cbn [JS.contains_char] in H. apply orb_false_iff in H. destruct H as [Hc Hs].
  cbn [JS.strip_urls_from]. destruct inside.
  - destruct (JS.is_space c); [| apply IH; exact Hs].
    cbn [JS.contains_char]. rewrite Hc. apply IH. exact Hs.
  - destruct (JS.url_at (String c s)); [apply IH; exact Hs |].
    cbn [JS.contains_char]. rewrite Hc. apply IH. exact Hs.
Qed.

Lemma strip_urls_no_tag (inside : bool) (s : string) :
  has_tag s = false -> has_tag (JS.strip_urls_from inside s) = false.
Proof.
  unfold has_tag. revert inside. induction s as [| c s IH]; intros inside H.
  - destruct inside; reflexivity.
  - rewrite has_match_cons in H. apply orb_false_iff in H. destruct H as [Hc Hs].
    cbn [JS.strip_urls_from]. destruct inside.
    + destruct (JS.is_space c) eqn:E; [| apply IH; exact Hs].
      rewrite has_match_cons, (IH false Hs), orb_false_r.
      destruct (JS.tag_at (String c (JS.strip_urls_from false s))) eqn:T; [| reflexivity].
      apply tag_at_head in T. subst c. vm_compute in E. discriminate E.
    + destruct (JS.url_at (String c s)) eqn:U; [apply IH; exact Hs |].
      rewrite has_match_cons, (IH false Hs), orb_false_r.
      apply (tag_at_emit c s); [exact Hc | apply strip_urls_gt | | intros ->; reflexivity].
      intros r ->. cbn [JS.strip_urls_from].
      destruct (JS.url_at (String ">" r)) eqn:U'; [| eexists; reflexivity].
      apply url_at_iff in U'. destruct U' as (d & r' & _ & [E | E]); discriminate E.
Qed.

Lemma collapse_ws_gt (inside : bool) (s : string) :
  JS.contains_char ">" s = false ->
  JS.contains_char ">" (JS.collapse_ws_from inside s) = false.
Proof.
  revert inside. induction s as [| c s IH]; intros inside H; [reflexivity |].
  cbn [JS.contains_char] in H. apply orb_false_iff in H. destruct H as [Hc Hs].
  cbn [JS.collapse_ws_from]. destruct (JS.is_space c).
  - destruct inside; [apply IH; exact Hs |].
    cbn [JS.contains_char]. rewrite (IH true Hs). reflexivity.
  - cbn [JS.contains_char]. rewrite Hc. apply IH. exact Hs.
Qed.

Lemma collapse_ws_no_tag (inside : bool) (s : string) :
  has_tag s = false -> has_tag (JS.collapse_ws_from inside s) = false.
Proof.
  unfold has_tag. revert inside. induction s as [| c s IH]; intros inside H.
  - reflexivity.
  - rewrite has_match_cons in H. apply orb_false_iff in H. destruct H as [Hc Hs].
    cbn [JS.collapse_ws_from]. destruct (JS.is_space c) eqn:E.
    + destruct inside; [apply IH; exact Hs |].
      rewrite has_match_cons, (IH true Hs), orb_false_r.
      destruct (JS.tag_at (String " " (JS.collapse_ws_from true s))) eqn:T; [| reflexivity].
      apply tag_at_head in T. discriminate T.
    + rewrite has_match_cons, (IH false Hs), orb_false_r.
      apply (tag_at_emit c s); [exact Hc | apply collapse_ws_gt | | intros ->; reflexivity].
      intros r ->. eexists. reflexivity.
Qed.

Lemma contains_char_app (x : ascii) (p t : string) :
  JS.contains_char x p = true -> JS.contains_char x (p ++ t) = true.
Proof.
  induction p as [| c p IH]; [discriminate |].
  rewrite append_cons. cbn [JS.contains_char]. intros H.
  apply orb_true_iff in H. apply orb_true_iff. destruct H as [H | H]; auto.
Qed.

Lemma tag_at_app (p t : string) : JS.tag_at p = true -> JS.tag_at (p ++ t) = true.
Proof.
  unfold JS.tag_at. destruct p as [| c [| d r]]; try discriminate.
  rewrite !append_cons. intros H.
  apply andb_true_iff in H. destruct H as [H1 H2].
  rewrite H1. apply (contains_char_app _ _ t) in H2. rewrite H2. reflexivity.
Qed.

Lemma has_tag_app (p t : string) : has_tag p = true -> has_tag (p ++ t) = true.
Proof.
  unfold has_tag. induction p as [| c p IH]; [discriminate |].
  rewrite has_match_cons, append_cons, has_match_cons.
  intros H. apply orb_true_iff in H. apply orb_true_iff. destruct H as [H | H].
  - left. apply (tag_at_app (String c p) t). exact H.
  - right. apply IH. exact H.
Qed.

Lemma trim_no_tag (s : string) : has_tag s = false -> has_tag (JS.trim s) = false.
Proof.
  intros H. unfold JS.trim.
  apply (trimStart_suffix JS.tag_at) in H. fold has_tag in H.
  destruct (has_tag (JS.trimEnd (JS.trimStart s))) eqn:E; [| reflexivity].
  destruct (trimEnd_prefix (JS.trimStart s)) as [t Ht].
  apply (has_tag_app _ t) in E. rewrite <- Ht in E. congruence.
Qed.

Lemma cleanText_no_tag (text : string) :
  has_tag text = false -> has_tag (cleanText text) = false.
Proof.
  intros H. unfold cleanText, JS.or_str.
  destruct (_ =? "")%string; [reflexivity |].
  apply trim_no_tag, collapse_ws_no_tag, strip_urls_no_tag. exact H.
Qed.

(** The claim of the specification about the normalized text, as it is
    written: no ["<"] and no [">"] in the output.  In ["a > b"] and in
    ["1 < 2"] the angle bracket is not part of a tag, and it stays. *)
Lemma C7_angle_brackets_kept :
  cleanSummary None (Some "a > b") = "a > b"
  /\ JS.contains_char ">" (cleanSummary None (Some "a > b")) = true
  /\ cleanSummary None (Some "1 < 2") = "1 < 2"
  /\ JS.contains_char "<" (cleanSummary None (Some "1 < 2")) = true.
Proof. repeat split. Qed.

(** C7, amended: for every input, the output of [cleanSummary] has no
    substring that matches the URL pattern [https?://\S+], on the DOM path
    and on the regex path; on the regex path it has no substring that
    matches the tag pattern [<[^>]+>] either. *)
Theorem C7_no_url_and_no_tag_in_summary (window : option Document) (html : option string) :
  has_url (cleanSummary window html) = false
  /\ (regex_path window html -> has_tag (cleanSummary window html) = false).
Proof.
  unfold cleanSummary. split.
  - destruct html as [h |]; [| reflexivity].
    destruct (h =? "")%string; [reflexivity |].
    destruct window as [document |]; [destruct (document h) |];
      apply cleanText_no_url.
  - intros Hpath. destruct html as [h |]; [| reflexivity].
    destruct (h =? "")%string; [reflexivity |].
    destruct window as [document |].
    + rewrite (Hpath document h eq_refl eq_refl).
      apply cleanText_no_tag, strip_tags_no_tag.
    + apply cleanText_no_tag, strip_tags_no_tag.
Qed.

Lemma C7_no_url_and_no_tag_in_summary_witness :
  has_url (cleanSummary None (Some "<p>See <a href='https://x.io/a'>https://x.io/a</a> now</p>"))
  = false
  /\ has_tag (cleanSummary None (Some "<p>See <a href='https://x.io/a'>https://x.io/a</a> now</p>"))
     = false
  /\ cleanSummary None (Some "<p>See <a href='https://x.io/a'>https://x.io/a</a> now</p>")
     = "See now".
Proof.
  split; [| split].
  - apply (proj1 (C7_no_url_and_no_tag_in_summary None
                    (Some "<p>See <a href='https://x.io/a'>https://x.io/a</a> now</p>"))).
  - apply (proj2 (C7_no_url_and_no_tag_in_summary None
                    (Some "<p>See <a href='https://x.io/a'>https://x.io/a</a> now</p>"))).
    intros document h H. discriminate H.
  - reflexivity.
Defined.

(** ** Evaluations *)

Lemma C6_macro_regime_thresholds_witness :
  let m := macroOf64 (snapshot64 (Some (Float64.of_Z 6)) (Some (Float64.of_binary 1 (-60)))
                        (Some (Float64.of_Z 20000000000))
                        (Some (Float64.of_binary 1 (-24)))) in
  trendLabel m = "Mild Bull" /\ volaLabel m = "Elevated" /\ liqLabel m = "Thinner".
Proof.
  destruct (C6_macro_regime_thresholds (Some (Float64.of_Z 6))
              (Some (Float64.of_binary 1 (-60)))
              (Some (Float64.of_Z 20000000000)) (Some (Float64.of_binary 1 (-24))))
    as (_ & _ & (_ & Ht & _) & (_ & Hv & _) & (_ & _ & Hl & _) & _ & _ & _ & _).
  cbv zeta. split; [| split].
  - apply Ht; [discriminate | reflexivity].
  - apply Hv; [discriminate | reflexivity].
  - apply Hl; [discriminate | discriminate | reflexivity].
Defined.

Lemma C9_enrichment_changes_only_priceMove_witness :
  Forall2 same_but_priceMove
    [sampleItem "High" "Bullish" "Coindesk" Solana]
    (map (correlate exponentDigits (oneAsset "solana" (Some (5 # 2)%Q)))
       [sampleItem "High" "Bullish" "Coindesk" Solana])
  /\ map News.priceMove
       (map (correlate exponentDigits (oneAsset "solana" (Some (5 # 2)%Q)))
          [sampleItem "High" "Bullish" "Coindesk" Solana]) = ["+2.50%"].
Proof.
  split.
  - exact (proj1 (C9_enrichment_changes_only_priceMove exponentDigits (fun _ => None)
                    (oneAsset "solana" (Some (5 # 2)%Q))
                    [sampleItem "High" "Bullish" "Coindesk" Solana])).
  - vm_compute. reflexivity.
Defined.

Lemma C10_idea_list_bounds_witness :
  within_limits
    (buildIdeas exponentDigits halfRandom
       {| trendLabel := "Strong Bull"; trendDesc := EmptyString;
          volaLabel := "High Stress"; volaDesc := EmptyString;
          liqLabel := "Deep"; liqDesc := EmptyString |}
       (repeat (sampleItem "High" "Bullish" "Coindesk" General) 7))
  /\ length
       (buildIdeas exponentDigits halfRandom
          {| trendLabel := "Strong Bull"; trendDesc := EmptyString;
             volaLabel := "High Stress"; volaDesc := EmptyString;
             liqLabel := "Deep"; liqDesc := EmptyString |}
          (repeat (sampleItem "High" "Bullish" "Coindesk" General) 7)) = 8%nat.
Proof.
  split.
  - exact (proj1 (C10_idea_list_bounds exponentDigits halfRandom
                    {| trendLabel := "Strong Bull"; trendDesc := EmptyString;
                       volaLabel := "High Stress"; volaDesc := EmptyString;
                       liqLabel := "Deep"; liqDesc := EmptyString |}
                    (repeat (sampleItem "High" "Bullish" "Coindesk" General) 7))).
  - vm_compute. reflexivity.
Defined.

(* ================================================================== *)
(** * Part III: further properties of the code                          *)
(* ================================================================== *)

(** ** The text normalizer: shape of the output *)

Lemma collapse_ws_collapsed (inside : bool) (s : string) :
  collapsed inside (JS.collapse_ws_from inside s) = true.
Proof.
  revert inside. induction s as [| c s IH]; intros inside; [reflexivity |].
  cbn [JS.collapse_ws_from]. destruct (JS.is_space c) eqn:E.
  - destruct inside; [apply IH |].
    cbn [collapsed]. change (JS.is_space " ") with true. cbv iota.
    rewrite IH. reflexivity.
  - cbn [collapsed]. rewrite E. apply IH.
Qed.

Lemma trimStart_collapsed (p : bool) (s : string) :
  collapsed p s = true -> collapsed true (JS.trimStart s) = true.
Proof.
  revert p. induction s as [| c s IH]; intros p H; [reflexivity |].
  cbn [JS.trimStart]. cbn [collapsed] in H. destruct (JS.is_space c) eqn:E.
  - apply andb_true_iff in H. destruct H as [_ H]. apply (IH true H).
  - cbn [collapsed]. rewrite E. exact H.
Qed.

Lemma trimEnd_tidy (p : bool) (s : string) :
  collapsed p s = true ->
  JS.trimEnd s = EmptyString \/ tidy_from p (JS.trimEnd s) = true.
Proof.
  revert p. induction s as [| c s IH]; intros p H; [left; reflexivity |].
  cbn [JS.trimEnd]. cbn [collapsed] in H. destruct (JS.is_space c) eqn:E.
  - apply andb_true_iff in H. destruct H as [H1 H2].
    destruct (IH true H2) as [-> | Ht]; [left; reflexivity |].
    destruct (JS.trimEnd s =? EmptyString)%string eqn:Ee; [left; reflexivity |].
    right. cbn [andb tidy_from]. rewrite E, H1, Ht. reflexivity.
  - right. cbn [andb tidy_from]. rewrite E.
    destruct (IH false H) as [-> | Ht]; [reflexivity | exact Ht].
Qed.

Lemma tidy_nonempty (s : string) : tidy s = true -> s <> EmptyString.
Proof. intros H ->. discriminate H. Qed.

Lemma cleanText_tidy (text : string) : tidy (cleanText text) = true.
Proof.
  unfold cleanText, JS.or_str, JS.trim.
  set (u := JS.collapse_ws (JS.strip_urls text)).
  assert (Hu : collapsed true (JS.trimStart u) = true).
  { apply (trimStart_collapsed false). apply collapse_ws_collapsed. }
  destruct (trimEnd_tidy true _ Hu) as [-> | Ht]; [reflexivity |].
  destruct (JS.trimEnd (JS.trimStart u) =? EmptyString)%string; [reflexivity | exact Ht].
Qed.

Lemma cleanSummary_cases (window : option Document) (html : option string) :
  cleanSummary window html = NO_SUMMARY
  \/ exists text, cleanSummary window html = cleanText text.
Proof.
  unfold cleanSummary. destruct html as [h |]; [| left; reflexivity].
  destruct (h =? EmptyString)%string; [left; reflexivity |].
  destruct window as [document |]; [destruct (document h) |]; right; eexists; reflexivity.
Qed.

Lemma tidy_collapsed (p : bool) (s : string) :
  tidy_from p s = true -> collapsed p s = true.
Proof.
  revert p. induction s as [| c s IH]; intros p H; [reflexivity |].
  cbn [tidy_from] in H. cbn [collapsed]. destruct (JS.is_space c).
  - apply andb_true_iff in H. destruct H as [H1 H2]. rewrite H1, (IH true H2). reflexivity.
  - apply IH. exact H.
Qed.

Lemma collapse_ws_fixed (p : bool) (s : string) :
  collapsed p s = true -> JS.collapse_ws_from p s = s.
Proof.
  revert p. induction s as [| c s IH]; intros p H; [reflexivity |].
  cbn [collapsed] in H. cbn [JS.collapse_ws_from]. destruct (JS.is_space c).
  - apply andb_true_iff in H. destruct H as [H1 H2].
    apply andb_true_iff in H1. destruct H1 as [Hc Hp].
    apply negb_true_iff in Hp. subst p.
    apply Ascii.eqb_eq in Hc. subst c. rewrite (IH true H2). reflexivity.
  - rewrite (IH false H). reflexivity.
Qed.

Lemma trimEnd_fixed (p : bool) (s : string) :
  tidy_from p s = true -> JS.trimEnd s = s.
Proof.
  revert p. induction s as [| c s IH]; intros p H; [reflexivity |].
  cbn [tidy_from] in H. cbn [JS.trimEnd]. destruct (JS.is_space c).
  - apply andb_true_iff in H. destruct H as [_ H].
    rewrite (IH true H).
    destruct s as [| d s]; [discriminate H | reflexivity].
  - rewrite (IH false H). reflexivity.
Qed.

Lemma trim_fixed (s : string) : tidy s = true -> JS.trim s = s.
Proof.
  intros H. unfold JS.trim.
  assert (Hs : JS.trimStart s = s).
  { destruct s as [| c s]; [reflexivity |].
    cbn [JS.trimStart]. unfold tidy in H. cbn [tidy_from] in H.
    destruct (JS.is_space c); [| reflexivity].
    rewrite andb_false_r in H. discriminate H. }
  rewrite Hs. apply (trimEnd_fixed true). exact H.
Qed.

Lemma strip_urls_fixed (s : string) : has_url s = false -> JS.strip_urls s = s.
Proof.
  unfold has_url, JS.strip_urls. induction s as [| c s IH]; intros H; [reflexivity |].
  rewrite has_match_cons in H. apply orb_false_iff in H. destruct H as [Hc Hs].
  cbn [JS.strip_urls_from]. rewrite Hc, (IH Hs). reflexivity.
Qed.

Lemma strip_tags_fixed (s : string) : has_tag s = false -> JS.strip_tags s = s.
Proof.
  unfold has_tag, JS.strip_tags. induction s as [| c s IH]; intros H; [reflexivity |].
  rewrite has_match_cons in H. apply orb_false_iff in H. destruct H as [Hc Hs].
  cbn [JS.strip_tags_from]. rewrite Hc, (IH Hs). reflexivity.
Qed.

(** A text without URL that is tidy passes the tail of [cleanSummary] as it is. *)
Lemma cleanText_fixed (s : string) :
  has_url s = false -> tidy s = true -> cleanText s = s.
Proof.
  intros Hu Ht. unfold cleanText. rewrite (strip_urls_fixed s Hu).
  unfold JS.collapse_ws. rewrite (collapse_ws_fixed false s).
  - rewrite (trim_fixed s Ht). unfold JS.or_str.
    destruct s; [discriminate Ht | reflexivity].
  - apply tidy_collapsed in Ht. destruct s as [| c s]; [reflexivity |].
    unfold tidy in Ht. cbn [collapsed] in *.
    destruct (JS.is_space c); [| exact Ht].
    rewrite andb_false_r in Ht. discriminate Ht.
Qed.

Lemma cleanSummary_regex_fixed (s : string) :
  has_tag s = false -> has_url s = false -> tidy s = true ->
  cleanSummary None (Some s) = s.
Proof.
  intros Hg Hu Ht. unfold cleanSummary.
  destruct s as [| c s]; [discriminate Ht |].
  change (String c s =? EmptyString)%string with false. cbv iota.
  rewrite (strip_tags_fixed _ Hg). apply cleanText_fixed; assumption.
Qed.

Lemma cleanSummary_regex_shape (html : option string) :
  has_tag (cleanSummary None html) = false
  /\ has_url (cleanSummary None html) = false
  /\ tidy (cleanSummary None html) = true.
Proof.
  unfold cleanSummary. destruct html as [h |]; [| repeat split].
  destruct (h =? EmptyString)%string; [repeat split |].
  split; [apply cleanText_no_tag, strip_tags_no_tag |].
  split; [apply cleanText_no_url | apply cleanText_tidy].
Qed.

Lemma cleanSummary_tidy (window : option Document) (html : option string) :
  tidy (cleanSummary window html) = true.
Proof.
  destruct (cleanSummary_cases window html) as [-> | [text ->]];
    [reflexivity | apply cleanText_tidy].
Qed.

(** X1: whatever the input and whichever path is taken, the summary that
    [cleanSummary] returns is not empty, neither starts nor ends with white
    space, and has no white space but single spaces between its words: it
    is a fixed point of [trim] and of the white-space collapsing. *)
Theorem X1_summary_is_tidy (window : option Document) (html : option string) :
  tidy (cleanSummary window html) = true
  /\ cleanSummary window html <> EmptyString
  /\ JS.trim (cleanSummary window html) = cleanSummary window html
  /\ JS.collapse_ws (cleanSummary window html) = cleanSummary window html.
Proof.
  pose proof (cleanSummary_tidy window html) as H.
  split; [exact H |].
  split; [apply tidy_nonempty; exact H |].
  split; [apply trim_fixed; exact H |].
  unfold JS.collapse_ws. apply collapse_ws_fixed.
  apply tidy_collapsed in H.
  destruct (cleanSummary window html) as [| c s]; [reflexivity |].
  cbn [collapsed] in *. destruct (JS.is_space c); [| exact H].
  rewrite andb_false_r in H. discriminate H.
Qed.

(** X2: on the regex path [cleanSummary] is idempotent: cleaning a summary
    that it returned gives the same summary. *)
Theorem X2_cleanSummary_idempotent (html : option string) :
  cleanSummary None (Some (cleanSummary None html)) = cleanSummary None html.
Proof.
  destruct (cleanSummary_regex_shape html) as (Hg & Hu & Ht).
  apply cleanSummary_regex_fixed; assumption.
Qed.

(** X3: a plain text comes out as it went in.  A text without a tag and
    without a URL, not empty, without white space at its ends and with single
    spaces between its words is returned unchanged, on the regex path and on
    the DOM path of every DOM whose [textContent] for this text is the text. *)
Theorem X3_plain_text_unchanged (window : option Document) (s : string) :
  has_tag s = false -> has_url s = false -> tidy s = true ->
  dom_keeps window s ->
  cleanSummary window (Some s) = s /\ cleanSummary None (Some s) = s.
Proof.
  intros Hg Hu Ht Hdom.
  split; [| apply cleanSummary_regex_fixed; assumption].
  pose proof (cleanSummary_regex_fixed s Hg Hu Ht) as Hr.
  unfold cleanSummary in *.
  destruct s as [| c s]; [discriminate Ht |].
  change (String c s =? EmptyString)%string with false in *. cbv iota in *.
  destruct window as [document |]; [| exact Hr].
  destruct (document (String c s)) as [div |] eqn:E; [| exact Hr].
  rewrite (Hdom document div eq_refl E). unfold JS.or_str at 1.
  change (String c s =? EmptyString)%string with false. cbv iota.
  apply cleanText_fixed; assumption.
Qed.

Lemma X3_plain_text_unchanged_witness :
  cleanSummary (Some (fun h => Some {| textContent := h; innerText := h |}))
    (Some "Bitcoin breaks key level") = "Bitcoin breaks key level"
  /\ cleanSummary None (Some "Bitcoin breaks key level") = "Bitcoin breaks key level".
Proof.
  apply (X3_plain_text_unchanged
           (Some (fun h => Some {| textContent := h; innerText := h |}))
           "Bitcoin breaks key level"); try reflexivity.
  intros document div [= <-] [= <-]. reflexivity.
Defined.

(** ** The classifier *)

Lemma toLowerCase_empty (t : string) :
  (JS.toLowerCase t =? EmptyString)%string = (t =? EmptyString)%string.
Proof. destruct t; reflexivity. Qed.

Lemma lower_char_idem (c : ascii) : JS.lower_char (JS.lower_char c) = JS.lower_char c.
Proof.
  destruct c as [[] [] [] [] [] [] [] []]; reflexivity.
Qed.

Lemma toLowerCase_idem (t : string) : JS.toLowerCase (JS.toLowerCase t) = JS.toLowerCase t.
Proof.
  induction t as [| c t IH]; [reflexivity |].
  cbn [JS.toLowerCase]. rewrite lower_char_idem, IH. reflexivity.
Qed.

Lemma toLowerCase_app (a b : string) :
  JS.toLowerCase (a ++ b) = JS.toLowerCase a ++ JS.toLowerCase b.
Proof.
  induction a as [| c a IH]; [reflexivity |].
  rewrite append_cons. cbn [JS.toLowerCase]. rewrite IH, append_cons. reflexivity.
Qed.

Lemma includes_app_r (p a b : string) :
  JS.includes p b = true -> JS.includes p (a ++ b) = true.
Proof.
  intros H. induction a as [| c a IH]; [exact H |].
  rewrite append_cons. cbn [JS.includes]. rewrite IH. apply orb_true_r.
Qed.

(** The classifier reads its text through [toLowerCase] only. *)
Lemma classifyCategory_lower (a b : string) :
  JS.toLowerCase a = JS.toLowerCase b -> classifyCategory a = classifyCategory b.
Proof.
  intros H. unfold classifyCategory.
  rewrite <- (toLowerCase_empty a), <- (toLowerCase_empty b), H. reflexivity.
Qed.

(** X4: the classification does not depend on the case of the letters: two
    texts with the same lower-case form get the same category, and so does a
    text and its lower-case form. *)
Theorem X4_classification_ignores_case (a b : string) :
  JS.toLowerCase a = JS.toLowerCase b ->
  classifyCategory a = classifyCategory b
  /\ classifyCategory (JS.toLowerCase a) = classifyCategory a.
Proof.
  intros H. split; [apply classifyCategory_lower; exact H |].
  apply classifyCategory_lower. apply toLowerCase_idem.
Qed.

Lemma X4_classification_ignores_case_witness :
  classifyCategory "NVIDIA BEATS ESTIMATES" = classifyCategory "Nvidia beats estimates"
  /\ classifyCategory "nvidia beats estimates" = classifyCategory "NVIDIA BEATS ESTIMATES".
Proof.
  apply (X4_classification_ignores_case "NVIDIA BEATS ESTIMATES" "Nvidia beats estimates").
  reflexivity.
Defined.

Lemma classify_sentinel (t : string) : classifyCategory (t ++ " " ++ NO_SUMMARY) = AI.
Proof.
  unfold classifyCategory.
  assert (Hne : (t ++ " " ++ NO_SUMMARY =? EmptyString)%string = false)
    by (destruct t; reflexivity).
  rewrite Hne.
  assert (Hai : JS.includes "ai" (JS.toLowerCase (t ++ " " ++ NO_SUMMARY)) = true).
  { rewrite toLowerCase_app. apply includes_app_r. reflexivity. }
  rewrite Hai. reflexivity.
Qed.

(** ** What [loadNews] makes of a raw item *)

Section NewsItems.

Variable window : option Document.
Variable rnd : nat -> Q.

Lemma mapItems_each (i k : nat) (l : list Raw.item) (out : list News.item) :
  mapItems window rnd i k l = Some out ->
  Forall (fun n => exists k' r, In r l /\ newsItem window rnd i k' r = Some n) out.
Proof.
  revert k out. induction l as [| r l IH]; intros k out H; cbn [mapItems] in H.
  - injection H as <-. constructor.
  - destruct (newsItem window rnd i k r) as [n |] eqn:En; [| discriminate H].
    destruct (mapItems window rnd i (S k) l) as [ns |] eqn:Em; [| discriminate H].
    injection H as <-. constructor.
    + exists k, r. split; [left; reflexivity | exact En].
    + specialize (IH (S k) ns Em).
      apply (List.Forall_impl _ (P := fun n => exists k' r0, In r0 l
                                      /\ newsItem window rnd i k' r0 = Some n));
        [| exact IH].
      intros n' (k' & r' & Hin & E). exists k', r'. split; [right; exact Hin | exact E].
Qed.

Lemma flatMapResults_each (i k : nat) (l : list Payload) (out : list News.item) :
  flatMapResults window rnd i k l = Some out ->
  Forall (fun n => exists i' k' r, newsItem window rnd i' k' r = Some n) out.
Proof.
  revert i k out. induction l as [| res l IH]; intros i k out H; cbn [flatMapResults] in H.
  - injection H as <-. constructor.
  - destruct (mapItems window rnd i k (itemsOf res)) as [ns |] eqn:Em; [| discriminate H].
    destruct (flatMapResults window rnd (S i) (k + length (itemsOf res)) l) as [ms |] eqn:Ef;
      [| discriminate H].
    injection H as <-. apply List.Forall_app. split.
    + apply mapItems_each in Em.
      apply (List.Forall_impl _ (P := fun n => exists k' r, In r (itemsOf res)
                                      /\ newsItem window rnd i k' r = Some n));
        [| exact Em].
      intros n (k' & r & _ & E). exists i, k', r. exact E.
    + apply (IH _ _ _ Ef).
Qed.

Lemma In_firstn {A : Type} (m : nat) (l : list A) (x : A) : In x (firstn m l) -> In x l.
Proof.
  revert l. induction m as [| m IH]; intros l H; [destruct H |].
  destruct l as [| a l]; [destruct H |].
  cbn [firstn] in H. destruct H as [<- | H]; [left; reflexivity | right; apply IH; exact H].
Qed.

(** Every item of the list [loadNews] sets was made by [newsItem]. *)
Lemma loadNews_each (fetch : string -> option Payload) (merged : list News.item)
    (n : News.item) :
  loadNews window fetch rnd = Some merged -> In n merged ->
  exists i k r, newsItem window rnd i k r = Some n.
Proof.
  unfold loadNews, mergeNews. intros H Hin.
  destruct (flatMapResults window rnd 0 0 _) as [out |] eqn:E; [| discriminate H].
  injection H as <-. apply In_firstn in Hin.
  apply flatMapResults_each in E. rewrite List.Forall_forall in E. apply E. exact Hin.
Qed.

End NewsItems.

(** X5: an item whose summary is the sentinel "No summary available." is
    always of category AI, whatever its title: the classified text is the
    title followed by the summary, and "available" contains "ai".  So is
    every item that [loadNews] makes of a raw item without description, for
    a DOM that returns the sentinel text as it is. *)
Theorem X5_sentinel_summary_classified_AI (window : option Document)
    (fetch : string -> option Payload) (rnd : nat -> Q) (merged : list News.item)
    (n : News.item) :
  loadNews window fetch rnd = Some merged -> In n merged ->
  (News.summary n = NO_SUMMARY -> News.category n = AI)
  /\ (forall t, classifyCategory (t ++ " " ++ NO_SUMMARY) = AI).
Proof.
  intros H Hin. split; [| apply classify_sentinel].
  destruct (loadNews_each window rnd fetch merged n H Hin) as (i & k & r & E).
  unfold newsItem in E.
  destruct (nth_error EXCHANGE_NEWS_ENDPOINTS i); [| discriminate E].
  injection E as <-. cbn [News.summary News.category].
  intros ->. apply classify_sentinel.
Qed.

Lemma X5_sentinel_summary_classified_AI_witness :
  exists merged,
    loadNews None (onlyFeed "Cointelegraph" [titled "Bitcoin breaks key level"]) halfRandom
      = Some merged
    /\ Forall (fun n => News.category n = AI) merged.
Proof.
  destruct (loadNews None (onlyFeed "Cointelegraph" [titled "Bitcoin breaks key level"])
              halfRandom) as [merged |] eqn:E; [| vm_compute in E; discriminate E].
  exists merged. split; [reflexivity |].
  apply List.Forall_forall. intros n Hin.
  apply (proj1 (X5_sentinel_summary_classified_AI None
                  (onlyFeed "Cointelegraph" [titled "Bitcoin breaks key level"])
                  halfRandom merged n E Hin)).
  vm_compute in E. injection E as <-. destruct Hin as [<- | []]. reflexivity.
Defined.

(** ** Number formatting *)

Lemma floor_bounds (y : Q) (lo hi : Z) :
  (inject_Z lo <= y)%Q -> (y < inject_Z hi)%Q -> (lo <= Qfloor y < hi)%Z.
Proof.
  intros Hlo Hhi. split.
  - rewrite <- (Qfloor_Z lo). apply Qfloor_resp_le. exact Hlo.
  - rewrite Zlt_Qlt. apply (Qle_lt_trans _ y); [apply Qfloor_le | exact Hhi].
Qed.

(** X8: a change that rounds to zero keeps its sign.  For an asset whose
    24h change is below 0.005 in magnitude, [priceMove] is "+0.00%" for a
    change above zero, "-0.00%" for a change below zero and "0.00%" for
    zero. *)
Theorem X8_change_rounding_to_zero (numberToString : Q -> string)
    (data : gmap string PriceInfo) (item : News.item) (pct : Q) :
  changeFor data item = Some pct ->
  (Qabs pct < 1 # 200)%Q ->
  ((0 < pct)%Q -> News.priceMove (correlate numberToString data item) = "+0.00%")
  /\ ((pct < 0)%Q -> News.priceMove (correlate numberToString data item) = "-0.00%")
  /\ ((pct == 0)%Q -> News.priceMove (correlate numberToString data item) = "0.00%").
Proof.
  unfold changeFor, correlate. rewrite assetOf_table.
  destruct (data !! CATEGORY_ASSET_MAP (News.category item)) as [info |]; [| discriminate].
  destruct (usd_24h_change info) as [pct' |]; [| discriminate].
  intros [= ->] Hsmall. cbn [News.priceMove].
  rewrite toFixed_2 by (apply (Qlt_trans _ (1 # 200)); [exact Hsmall | reflexivity]).
  assert (Hz : Num.scaled 2 (Qabs pct) = 0%N).
  { unfold Num.scaled. change (Num.pow10 2) with 100%Q.
    pose proof (Qabs_nonneg pct) as Hn. set (a := Qabs pct) in *.
    destruct (floor_bounds (a * 100 + (1 # 2)) 0 1) as [Hlo Hhi].
    - change (inject_Z 0) with 0%Q. lra.
    - change (inject_Z 1) with 1%Q. lra.
    - replace (Qfloor (a * 100 + (1 # 2))) with 0%Z by lia. reflexivity. }
  rewrite Hz.
  destruct (sign_cases pct) as [(-> & -> & H) | [(-> & -> & H) | (-> & -> & H)]];
    repeat split; intros; try reflexivity; exfalso; lra.
Qed.

Lemma X8_change_rounding_to_zero_witness :
  News.priceMove
    (correlate exponentDigits (oneAsset "bitcoin" (Some (-1 # 1000)%Q))
       (sampleItem "Low" "Neutral" "OKX" General)) = "-0.00%".
Proof.
  apply (X8_change_rounding_to_zero exponentDigits (oneAsset "bitcoin" (Some (-1 # 1000)%Q))
           (sampleItem "Low" "Neutral" "OKX" General) (-1 # 1000)%Q);
    reflexivity.
Defined.

(** ** The news normalizer: what every item has *)

Lemma or_else_nonempty (a : option string) (b : string) :
  b <> EmptyString -> JS.or_else a b <> EmptyString.
Proof.
  intros Hb. unfold JS.or_else. destruct a as [s |]; [| exact Hb].
  destruct (String.eqb_spec s EmptyString); [exact Hb | assumption].
Qed.

Lemma append_nonempty_r (a b : string) : b <> EmptyString -> a ++ b <> EmptyString.
Proof. intros Hb. destruct a; [exact Hb | discriminate]. Qed.

(** X9: every item of the list that [loadNews] sets has a title, an id and
    a summary that are not empty, the summary being tidy; its source is the
    name of one of the five endpoints; its tags are its source and the name
    of its category; its category is the class of its title followed by its
    summary; its [priceMove] is "N/A".  The list has at most 60 items. *)
Theorem X9_news_item_invariants (window : option Document)
    (fetch : string -> option Payload) (rnd : nat -> Q) (merged : list News.item) :
  loadNews window fetch rnd = Some merged ->
  (length merged <= 60)%nat
  /\ forall n, In n merged ->
       News.title n <> EmptyString
       /\ News.id n <> EmptyString
       /\ tidy (News.summary n) = true
       /\ In (News.source n) (map name EXCHANGE_NEWS_ENDPOINTS)
       /\ News.tags n = [News.source n; categoryName (News.category n)]
       /\ News.category n = classifyCategory (News.title n ++ " " ++ News.summary n)
       /\ News.priceMove n = "N/A".
Proof.
  intros H. split.
  { unfold loadNews, mergeNews in H.
    destruct (flatMapResults window rnd 0 0 _) as [out |]; [| discriminate H].
    injection H as <-. rewrite length_firstn. apply Nat.le_min_l. }
  intros n Hin.
  destruct (loadNews_each window rnd fetch merged n H Hin) as (i & k & r & E).
  unfold newsItem in E.
  destruct (nth_error EXCHANGE_NEWS_ENDPOINTS i) as [endpoint |] eqn:Ei; [| discriminate E].
  apply Some_eq in E. subst n.
  cbn [News.title News.id News.summary News.source News.tags News.category News.priceMove].
  split; [apply or_else_nonempty; discriminate |].
  split.
  { apply or_else_nonempty, or_else_nonempty, append_nonempty_r. discriminate. }
  split; [apply cleanSummary_tidy |].
  split; [apply in_map, (nth_error_In _ _ Ei) |].
  repeat split.
Qed.

Lemma X9_news_item_invariants_witness :
  exists merged,
    loadNews None (onlyFeed "Binance" [titled "Binance Lists New AI Token"]) halfRandom
      = Some merged
    /\ Forall (fun n => News.tags n = [News.source n; categoryName (News.category n)]) merged.
Proof.
  destruct (loadNews None (onlyFeed "Binance" [titled "Binance Lists New AI Token"])
              halfRandom) as [merged |] eqn:E; [| vm_compute in E; discriminate E].
  exists merged. split; [reflexivity |].
  apply List.Forall_forall. intros n Hin.
  destruct (X9_news_item_invariants None _ _ merged E) as [_ H].
  destruct (H n Hin) as (_ & _ & _ & _ & Ht & _). exact Ht.
Defined.

(** ** The news normalizer and the random draws *)

Section TwoDraws.

Variable window : option Document.
Variables rnd1 rnd2 : nat -> Q.

Lemma newsItem_same_draws (i k1 k2 : nat) (r : Raw.item) (n1 n2 : News.item) :
  newsItem window rnd1 i k1 r = Some n1 ->
  newsItem window rnd2 i k2 r = Some n2 ->
  same_but_draws n1 n2.
Proof.
  unfold newsItem. destruct (nth_error EXCHANGE_NEWS_ENDPOINTS i); [| discriminate].
  intros E1 E2. apply Some_eq in E1. apply Some_eq in E2. subst n1 n2.
  repeat split.
Qed.

Lemma mapItems_same_draws (i k1 k2 : nat) (l : list Raw.item) (o1 o2 : list News.item) :
  mapItems window rnd1 i k1 l = Some o1 ->
  mapItems window rnd2 i k2 l = Some o2 ->
  Forall2 same_but_draws o1 o2.
Proof.
  revert k1 k2 o1 o2. induction l as [| r l IH]; intros k1 k2 o1 o2 H1 H2;
    cbn [mapItems] in H1, H2.
  - apply Some_eq in H1. apply Some_eq in H2. subst. constructor.
  - destruct (newsItem window rnd1 i k1 r) as [n1 |] eqn:E1; [| discriminate H1].
    destruct (newsItem window rnd2 i k2 r) as [n2 |] eqn:E2; [| discriminate H2].
    destruct (mapItems window rnd1 i (S k1) l) as [m1 |] eqn:M1; [| discriminate H1].
    destruct (mapItems window rnd2 i (S k2) l) as [m2 |] eqn:M2; [| discriminate H2].
    apply Some_eq in H1. apply Some_eq in H2. subst. constructor.
    + apply (newsItem_same_draws i k1 k2 r); assumption.
    + apply (IH (S k1) (S k2)); assumption.
Qed.

Lemma flatMapResults_same_draws (i k1 k2 : nat) (l : list Payload) (o1 o2 : list News.item) :
  flatMapResults window rnd1 i k1 l = Some o1 ->
  flatMapResults window rnd2 i k2 l = Some o2 ->
  Forall2 same_but_draws o1 o2.
Proof.
  revert i k1 k2 o1 o2. induction l as [| res l IH]; intros i k1 k2 o1 o2 H1 H2;
    cbn [flatMapResults] in H1, H2.
  - apply Some_eq in H1. apply Some_eq in H2. subst. constructor.
  - destruct (mapItems window rnd1 i k1 (itemsOf res)) as [a1 |] eqn:A1; [| discriminate H1].
    destruct (mapItems window rnd2 i k2 (itemsOf res)) as [a2 |] eqn:A2; [| discriminate H2].
    destruct (flatMapResults window rnd1 (S i) _ l) as [b1 |] eqn:B1; [| discriminate H1].
    destruct (flatMapResults window rnd2 (S i) _ l) as [b2 |] eqn:B2; [| discriminate H2].
    apply Some_eq in H1. apply Some_eq in H2. subst. apply Forall2_app.
    + apply (mapItems_same_draws i k1 k2 (itemsOf res)); assumption.
    + apply (IH (S i) _ _ _ _ B1 B2).
Qed.

End TwoDraws.

(** X10: the random draws decide the impact and the sentiment of an item
    and nothing else.  Two runs of [loadNews] on the same feeds with
    different draws set lists of the same length whose items agree, one by
    one, on id, title, source, date, category, summary, tags and [priceMove]. *)
Theorem X10_draws_touch_only_impact_and_sentiment (window : option Document)
    (fetch : string -> option Payload) (rnd1 rnd2 : nat -> Q) :
  exists m1 m2,
    loadNews window fetch rnd1 = Some m1
    /\ loadNews window fetch rnd2 = Some m2
    /\ Forall2 same_but_draws m1 m2.
Proof.
  destruct (loadNews_made window rnd1 fetch) as (o1 & E1 & _).
  destruct (loadNews_made window rnd2 fetch) as (o2 & E2 & _).
  exists (firstn 60 o1), (firstn 60 o2). split; [exact E1 |]. split; [exact E2 |].
  unfold loadNews, mergeNews in E1, E2.
  destruct (flatMapResults window rnd1 0 0 _) as [a1 |] eqn:A1; [| discriminate E1].
  destruct (flatMapResults window rnd2 0 0 _) as [a2 |] eqn:A2; [| discriminate E2].
  apply Some_eq in E1. apply Some_eq in E2. rewrite <- E1, <- E2.
  apply Forall2_take. apply (flatMapResults_same_draws window rnd1 rnd2 _ _ _ _ _ _ A1 A2).
Qed.

(** ** Failed and empty feeds *)

(** X11: the source that [loadNews] writes on an item is the name of the
    endpoint whose index is the number of payloads that arrived before the
    payload of the item: the endpoints are indexed after the null
    placeholders are filtered out.  The same name is the first tag and, for
    an item without guid and link, the head of the id. *)
Theorem X11_source_is_endpoint_at_arrival_position (window : option Document)
    (fetch : string -> option Payload) (rnd : nat -> Q) :
  exists merged,
    loadNews window fetch rnd = Some merged
    /\ Forall2
         (fun n o =>
            exists endpoint,
              nth_error EXCHANGE_NEWS_ENDPOINTS
                (arrived (firstn (provider o) (resultsOf fetch))) = Some endpoint
              /\ News.source n = name endpoint
              /\ (rawId (raw o) = None ->
                  News.id n = name endpoint ++ "-" ++ News.title n))
         merged (firstn 60 (origins (resultsOf fetch))).
Proof.
  destruct (loadNews_made window rnd fetch) as (out & E & H).
  exists (firstn 60 out). split; [exact E |].
  apply Forall2_take. apply (Forall2_impl_In _ _ _ _ H).
  intros n o Hin (endpoint & Hep & Hsrc & _ & Hid).
  destruct (originsFrom_slot_arrived _ _ _ _ Hin) as [_ Hs].
  rewrite Nat.sub_0_r in Hs. cbn [Nat.add] in Hs.
  exists endpoint. rewrite <- Hs. split; [exact Hep |]. split; [exact Hsrc |].
  intros Hraw. rewrite Hid. unfold rawId in Hraw. unfold JS.or_else.
  destruct (Raw.guid (raw o)) as [g |]; [destruct (g =? EmptyString)%string |];
    (destruct (Raw.link (raw o)) as [l |]; [destruct (l =? EmptyString)%string |]);
    try discriminate Hraw; reflexivity.
Qed.

Lemma originsFrom_no_items (results : list (option Payload)) (s j : nat) :
  (forall res, In (Some res) results -> itemsOf res = []) ->
  originsFrom s j results = [].
Proof.
  revert s j. induction results as [| [res |] rest IH]; intros s j H; [reflexivity | |].
  - cbn [originsFrom]. rewrite (H res) by (left; reflexivity). cbn [map app].
    apply IH. intros res' Hin. apply H. right. exact Hin.
  - cbn [originsFrom]. apply IH. intros res' Hin. apply H. right. exact Hin.
Qed.

(** X12: a cycle without items stops the pipeline quietly.  When every
    fetch fails, or every payload that arrives has no items, [loadNews] still
    sets a list, the empty one; on the empty list [loadCorrelatedMoves]
    fetches nothing and sets nothing, the trade idea engine sets nothing,
    the filtered list is empty whatever the filter, and the headline is the
    waiting text. *)
Theorem X12_cycle_without_items (window : option Document) (numberToString : Q -> string)
    (fetch : string -> option Payload) (rnd : nat -> Q)
    (prices : string -> option (gmap string PriceInfo)) (macro : Macro)
    (sentimentFilter : string) :
  (forall u res, fetch u = Some res -> itemsOf res = []) ->
  loadNews window fetch rnd = Some []
  /\ loadCorrelatedMoves numberToString prices [] = None
  /\ tradeIdeaEngine numberToString rnd macro [] = None
  /\ filteredNews sentimentFilter [] = []
  /\ headline (filteredNews sentimentFilter []) [] = Waiting.
Proof.
  intros Hno. split; [| repeat split].
  destruct (loadNews_made window rnd fetch) as (out & E & H).
  unfold origins in H. rewrite originsFrom_no_items in H.
  - inversion H; subst. exact E.
  - intros res Hin. unfold resultsOf in Hin. apply in_map_iff in Hin.
    destruct Hin as (src & Hf & _). apply (Hno _ _ Hf).
Qed.

Lemma X12_cycle_without_items_witness :
  loadNews None (fun _ => None) halfRandom = Some []
  /\ headline (filteredNews "Bullish" []) [] = Waiting.
Proof.
  destruct (X12_cycle_without_items None exponentDigits (fun _ => None) halfRandom
              (fun _ => None) loadingMacro "Bullish") as (H1 & _ & _ & _ & H5).
  - intros u res H. discriminate H.
  - split; [exact H1 | exact H5].
Defined.

(** ** The asset correlator: what is asked and what is stable *)

Lemma existsb_eqb_In (x : string) (seen : list string) :
  existsb (String.eqb x) seen = true <-> In x seen.
Proof.
  rewrite existsb_exists. split.
  - intros (y & Hy & E). apply String.eqb_eq in E. subst y. exact Hy.
  - intros H. exists x. split; [exact H | apply String.eqb_refl].
Qed.

Lemma uniq_In (seen l : list string) (x : string) :
  In x (uniq seen l) <-> In x l /\ ~ In x seen.
Proof.
  revert seen. induction l as [| y l IH]; intros seen; cbn [uniq].
  - split; [intros [] | intros [[] _]].
  - destruct (existsb (String.eqb y) seen) eqn:E.
    + apply existsb_eqb_In in E. rewrite IH. split.
      * intros [H1 H2]. split; [right; exact H1 | exact H2].
      * intros [[-> | H1] H2]; [contradiction | split; assumption].
    + assert (Hy : ~ In y seen).
      { intros H. apply existsb_eqb_In in H. congruence. }
      cbn [In]. rewrite IH. cbn [In]. split.
      * intros [<- | [H1 H2]]; [split; [left; reflexivity | exact Hy] |].
        split; [right; exact H1 | intros H; apply H2; right; exact H].
      * intros [[-> | H1] H2]; [left; reflexivity |].
        destruct (String.eqb_spec y x) as [-> | Hne]; [left; reflexivity |].
        right. split; [exact H1 |]. intros [E' | H]; [congruence | contradiction].
Qed.

Lemma uniq_NoDup (seen l : list string) : List.NoDup (uniq seen l).
Proof.
  revert seen. induction l as [| y l IH]; intros seen; cbn [uniq]; [constructor |].
  destruct (existsb (String.eqb y) seen); [apply IH |].
  constructor; [| apply IH].
  rewrite uniq_In. intros [_ H]. apply H. left. reflexivity.
Qed.

Lemma correlate_category (numberToString : Q -> string) (data : gmap string PriceInfo)
    (item : News.item) :
  News.category (correlate numberToString data item) = News.category item.
Proof.
  unfold correlate.
  destruct (data !! assetOf (News.category item)) as [info |];
    [destruct (usd_24h_change info) |]; reflexivity.
Qed.

Lemma correlate_idem (numberToString : Q -> string) (data : gmap string PriceInfo)
    (item : News.item) :
  correlate numberToString data (correlate numberToString data item)
  = correlate numberToString data item.
Proof.
  unfold correlate at 1. rewrite correlate_category.
  unfold correlate.
  destruct (data !! assetOf (News.category item)) as [info |];
    [destruct (usd_24h_change info) |]; reflexivity.
Qed.

Lemma tokensOf_correlate (numberToString : Q -> string) (data : gmap string PriceInfo)
    (liveNews : list News.item) :
  tokensOf (map (correlate numberToString data) liveNews) = tokensOf liveNews.
Proof.
  unfold tokensOf. f_equal. rewrite map_map. apply map_ext.
  intros n. rewrite correlate_category. reflexivity.
Qed.

Lemma loadCorrelatedMoves_eq (numberToString : Q -> string)
    (fetch : string -> option (gmap string PriceInfo)) (liveNews : list News.item) :
  liveNews <> [] ->
  tokensOf liveNews <> []
  /\ loadCorrelatedMoves numberToString fetch liveNews =
       match fetch (priceUrl (tokensOf liveNews)) with
       | Some data => Some (map (correlate numberToString data) liveNews)
       | None => None
       end.
Proof.
  intros Hne. destruct liveNews as [| n l]; [contradiction |].
  assert (Ht : tokensOf (n :: l) <> []).
  { intros E. assert (Hin : In (assetOf (News.category n)) (tokensOf (n :: l))).
    { unfold tokensOf. apply uniq_In. split; [left; reflexivity | intros []]. }
    rewrite E in Hin. destruct Hin. }
  split; [exact Ht |].
  unfold loadCorrelatedMoves. fold (tokensOf (n :: l)).
  destruct (tokensOf (n :: l)); [contradiction | reflexivity].
Qed.

(** X13: for a non-empty news list, [loadCorrelatedMoves] makes one request,
    for the assets of the categories that occur in the list: each of them
    once, at least one and at most eight.
    The early return for an empty token list is never taken. *)
Theorem X13_one_request_for_distinct_assets (numberToString : Q -> string)
    (fetch : string -> option (gmap string PriceInfo)) (liveNews : list News.item) :
  liveNews <> [] ->
  List.NoDup (tokensOf liveNews)
  /\ (forall t, In t (tokensOf liveNews) <->
                exists n, In n liveNews /\ CATEGORY_ASSET_MAP (News.category n) = t)
  /\ (1 <= length (tokensOf liveNews) <= 8)%nat
  /\ loadCorrelatedMoves numberToString fetch liveNews =
       match fetch (priceUrl (tokensOf liveNews)) with
       | Some data => Some (map (correlate numberToString data) liveNews)
       | None => None
       end.
Proof.
  intros Hne.
  destruct (loadCorrelatedMoves_eq numberToString fetch liveNews Hne) as [Ht Heq].
  assert (Hin : forall t, In t (tokensOf liveNews) <->
                          exists n, In n liveNews /\ CATEGORY_ASSET_MAP (News.category n) = t).
  { intros t. unfold tokensOf. rewrite uniq_In, in_map_iff. split.
    - intros [(n & E & Hn) _]. exists n. rewrite <- assetOf_table. auto.
    - intros (n & Hn & E). split; [| intros []].
      exists n. rewrite assetOf_table. auto. }
  split; [apply uniq_NoDup |]. split; [exact Hin |]. split; [| exact Heq].
  split.
  - destruct (tokensOf liveNews); [contradiction | cbn; lia].
  - change 8%nat with (length (map CATEGORY_ASSET_MAP allCategories)).
    apply List.NoDup_incl_length; [apply uniq_NoDup |].
    intros t Hi. apply Hin in Hi. destruct Hi as (n & _ & <-).
    apply in_map. destruct (News.category n); cbn; tauto.
Qed.

Lemma X13_one_request_for_distinct_assets_witness :
  tokensOf [sampleItem "High" "Bullish" "OKX" Solana;
            sampleItem "Low" "Neutral" "Bybit" General;
            sampleItem "Low" "Bearish" "OKX" Solana] = ["solana"; "bitcoin"]
  /\ List.NoDup (tokensOf [sampleItem "High" "Bullish" "OKX" Solana;
                           sampleItem "Low" "Neutral" "Bybit" General;
                           sampleItem "Low" "Bearish" "OKX" Solana]).
Proof.
  split; [reflexivity |].
  apply (X13_one_request_for_distinct_assets exponentDigits (fun _ => None)
           [sampleItem "High" "Bullish" "OKX" Solana;
            sampleItem "Low" "Neutral" "Bybit" General;
            sampleItem "Low" "Bearish" "OKX" Solana]).
  discriminate.
Defined.

(** X14: price enrichment is stable.  Enriching an item twice with the same
    prices gives what enriching it once gives, and when [loadCorrelatedMoves]
    has set a list, running it again on that list with the same answers of
    the price endpoint asks for the same assets and sets the same list. *)
Theorem X14_enrichment_is_stable (numberToString : Q -> string)
    (fetch : string -> option (gmap string PriceInfo))
    (liveNews updated : list News.item) :
  loadCorrelatedMoves numberToString fetch liveNews = Some updated ->
  tokensOf updated = tokensOf liveNews
  /\ loadCorrelatedMoves numberToString fetch updated = Some updated
  /\ forall data, map (correlate numberToString data) (map (correlate numberToString data) liveNews)
                  = map (correlate numberToString data) liveNews.
Proof.
  intros H.
  assert (Hidem : forall data,
             map (correlate numberToString data) (map (correlate numberToString data) liveNews)
             = map (correlate numberToString data) liveNews).
  { intros data. rewrite map_map. apply map_ext. intros n. apply correlate_idem. }
  assert (Hne : liveNews <> []) by (intros ->; discriminate H).
  destruct (loadCorrelatedMoves_eq numberToString fetch liveNews Hne) as [_ Heq].
  rewrite Heq in H.
  destruct (fetch (priceUrl (tokensOf liveNews))) as [data |] eqn:Ef; [| discriminate H].
  apply Some_eq in H. subst updated.
  split; [apply tokensOf_correlate |]. split; [| exact Hidem].
  assert (Hne' : map (correlate numberToString data) liveNews <> []).
  { destruct liveNews; [contradiction | discriminate]. }
  destruct (loadCorrelatedMoves_eq numberToString fetch _ Hne') as [_ Heq'].
  rewrite Heq', tokensOf_correlate, Ef, Hidem. reflexivity.
Qed.

Lemma X14_enrichment_is_stable_witness :
  loadCorrelatedMoves exponentDigits (fun _ => Some (oneAsset "solana" (Some (5 # 2)%Q)))
    (map (correlate exponentDigits (oneAsset "solana" (Some (5 # 2)%Q)))
       [sampleItem "High" "Bullish" "OKX" Solana])
  = Some (map (correlate exponentDigits (oneAsset "solana" (Some (5 # 2)%Q)))
            [sampleItem "High" "Bullish" "OKX" Solana]).
Proof.
  apply (X14_enrichment_is_stable exponentDigits
           (fun _ => Some (oneAsset "solana" (Some (5 # 2)%Q)))
           [sampleItem "High" "Bullish" "OKX" Solana]).
  reflexivity.
Defined.

(** ** The macro regime: how the labels hang together *)

Ltac split_abs a x :=
  let H := fresh "Habs" in
  destruct (Qlt_le_dec x 0) as [H | H];
  [ pose proof (Qabs_neg x (Qlt_le_weak _ _ H)) | pose proof (Qabs_pos x H) ];
  set (a := Qabs x) in *.

(** X15: for every answer of the price endpoint the three labels are within
    their enumerations, and they fit each other: High Stress comes only with
    Strong Bull or Strong Bear, Elevated never with Sideways, and Sideways
    only with Calm. *)
Theorem X15_macro_labels_consistent (data : gmap string PriceInfo) :
  let m := macroOf data in
  In (trendLabel m) ["Strong Bull"; "Mild Bull"; "Strong Bear"; "Mild Bear"; "Sideways"]
  /\ In (volaLabel m) ["High Stress"; "Elevated"; "Calm"]
  /\ In (liqLabel m) ["Deep"; "Normal"; "Thinner"; "Unknown"]
  /\ (volaLabel m = "High Stress" ->
      trendLabel m = "Strong Bull" \/ trendLabel m = "Strong Bear")
  /\ (volaLabel m = "Elevated" -> trendLabel m <> "Sideways")
  /\ (trendLabel m = "Sideways" -> volaLabel m = "Calm").
Proof.
  cbv zeta. rewrite trendLabel_eq, volaLabel_eq, liqLabel_eq. cbv zeta.
  set (avg := avgChange data). set (total := totalVolume data).
  split; [case_ifs; cbn; tauto |].
  split; [case_ifs; cbn; tauto |].
  split; [case_ifs; cbn; tauto |].
  split_abs a avg; case_cmp; repeat split; intros; try discriminate;
    try (left; reflexivity); try (right; reflexivity); try reflexivity;
    exfalso; lra.
Qed.


Lemma X15_macro_labels_consistent_witness :
  volaLabel (macroOf (bothMoved 5)) = "High Stress"
  /\ trendLabel (macroOf (bothMoved 5)) = "Strong Bull".
Proof.
  destruct (X15_macro_labels_consistent (bothMoved 5)) as (_ & _ & _ & H & _).
  split; [reflexivity |].
  destruct (H eq_refl) as [E | E]; [exact E | discriminate E].
Defined.

(** ** The trade idea engine: order, ids and fields *)

Section IdeaProps.

Variable numberToString : Q -> string.
Variable rnd : nat -> Q.

Lemma directionalStep_from_nil (macro : Macro) (h : list News.item) (ideas : list Idea.t) :
  directionalStep macro h ideas = (ideas ++ directionalStep macro h [])%list.
Proof.
  unfold directionalStep, push.
  destruct (JS.includes "Bull" (trendLabel macro)); [reflexivity |].
  destruct (JS.includes "Bear" (trendLabel macro)); [reflexivity |].
  rewrite app_nil_r. reflexivity.
Qed.

Lemma relativeValueStep_from_nil (h : list News.item) (ideas : list Idea.t) :
  relativeValueStep h ideas = (ideas ++ relativeValueStep h [])%list.
Proof.
  unfold relativeValueStep, push. destruct (0 <? length _)%nat; [reflexivity |].
  rewrite app_nil_r. reflexivity.
Qed.

Lemma riskStep_from_nil (macro : Macro) (ideas : list Idea.t) :
  riskStep macro ideas = (ideas ++ riskStep macro [])%list.
Proof.
  unfold riskStep, push. destruct (_ || _); [reflexivity |].
  rewrite app_nil_r. reflexivity.
Qed.

(** The idea list before the fallback step, step by step. *)
Lemma ruleIdeas_steps (macro : Macro) (liveNews : list News.item) :
  ruleIdeas numberToString rnd macro liveNews =
    (directionalStep macro (highImpactOf liveNews) []
     ++ relativeValueStep (highImpactOf liveNews) []
     ++ riskStep macro []
     ++ pushNewsIdeas numberToString rnd 0 (firstn 5 (highImpactOf liveNews)) [])%list.
Proof.
  unfold ruleIdeas, narrativeStep. cbv zeta.
  rewrite pushNewsIdeas_app, riskStep_from_nil, relativeValueStep_from_nil.
  rewrite <- !app_assoc. reflexivity.
Qed.

Lemma pushNewsIdeas_ids (idx : nat) (l : list News.item) :
  map Idea.id (pushNewsIdeas numberToString rnd idx l []) = map newsIdeaId (seq idx (length l)).
Proof.
  revert idx. induction l as [| n l IH]; intros idx; [reflexivity |].
  cbn [pushNewsIdeas length seq map]. rewrite pushNewsIdeas_app. unfold push.
  cbn [app map]. rewrite IH. reflexivity.
Qed.

Lemma pushNewsIdeas_each (idx : nat) (l : list News.item) (i : Idea.t) :
  In i (pushNewsIdeas numberToString rnd idx l []) ->
  exists n k, In n l /\ i = newsIdea numberToString rnd n k.
Proof.
  revert idx. induction l as [| n l IH]; intros idx H; [destruct H |].
  cbn [pushNewsIdeas] in H. rewrite pushNewsIdeas_app in H. unfold push in H.
  cbn [app] in H. destruct H as [<- | H].
  - exists n, idx. split; [left; reflexivity | reflexivity].
  - destruct (IH _ H) as (n' & k & Hn & E). exists n', k. split; [right; exact Hn | exact E].
Qed.

Lemma newsIdeaId_inj (a b : nat) : newsIdeaId a = newsIdeaId b -> a = b.
Proof.
  unfold newsIdeaId. intros H.
  assert (E : Num.decimal (N.of_nat a) = Num.decimal (N.of_nat b)).
  { rewrite !append_cons, !append_nil in H. injection H as H. exact H. }
  apply (f_equal numeral) in E. rewrite !decimal_numeral in E.
  apply Some_eq in E. lia.
Qed.

Lemma newsIdeaIds_NoDup (a len : nat) : List.NoDup (map newsIdeaId (seq a len)).
Proof.
  assert (H : forall l : list nat, List.NoDup l -> List.NoDup (map newsIdeaId l)).
  { induction 1 as [| x l Hx _ IH]; [constructor |].
    cbn [map]. constructor; [| exact IH].
    intros Hin. apply in_map_iff in Hin. destruct Hin as (y & E & Hy).
    apply newsIdeaId_inj in E. subst y. contradiction. }
  apply H. apply List.seq_NoDup.
Qed.

Lemma newsIdeaId_not_fixed (a len : nat) (x : string) :
  In x ["long-btc"; "short-btc"; "eth-alt"; "risk-warning"; "no-edge"] ->
  ~ In x (map newsIdeaId (seq a len)).
Proof.
  intros Hx Hin. apply in_map_iff in Hin. destruct Hin as (k & E & _).
  unfold newsIdeaId in E. rewrite !append_cons, !append_nil in E.
  cbn [In] in Hx.
  destruct Hx as [<- | [<- | [<- | [<- | [<- | []]]]]]; discriminate E.
Qed.

(** X17: the ids of the ideas of one list are pairwise distinct, whatever
    the regime and the news: the list can be rendered with the id as key. *)
Theorem X17_idea_ids_distinct (macro : Macro) (liveNews : list News.item) :
  List.NoDup (map Idea.id (buildIdeas numberToString rnd macro liveNews)).
Proof.
  unfold buildIdeas.
  destruct (fallbackStep_cases (ruleIdeas numberToString rnd macro liveNews))
    as [[_ ->] | [_ ->]].
  { cbn. constructor; [intros [] | constructor]. }
  rewrite ruleIdeas_steps, !map_app, pushNewsIdeas_ids, !app_assoc.
  set (fixed := ((map Idea.id (directionalStep macro (highImpactOf liveNews) [])
                  ++ map Idea.id (relativeValueStep (highImpactOf liveNews) []))
                 ++ map Idea.id (riskStep macro []))%list).
  assert (Hfixed : List.NoDup fixed
                   /\ forall x, In x fixed ->
                        In x ["long-btc"; "short-btc"; "eth-alt"; "risk-warning"; "no-edge"]).
  { unfold fixed, directionalStep, relativeValueStep, riskStep, push.
    destruct (JS.includes "Bull" (trendLabel macro));
      [| destruct (JS.includes "Bear" (trendLabel macro))];
      destruct (0 <? length _)%nat; destruct (_ || _); cbn [app map Idea.id longBtc shortBtc ethAlt riskWarning];
      (split; [repeat constructor; cbn [In]; intuition discriminate | cbn [In]; intuition]). }
  destruct Hfixed as [Hnd Hin].
  apply List.NoDup_app; [exact Hnd | apply newsIdeaIds_NoDup |].
  intros x Hx. apply newsIdeaId_not_fixed. apply Hin. exact Hx.
Qed.

(** X18: without a high-impact item among the first 50 items the list is
    decided by the regime alone: the directional idea of the trend, with
    conviction Medium for the long and High for the short, then the risk
    warning when the regime is stressed; and the fallback alone when the
    regime gives neither. *)
Theorem X18_ideas_without_high_impact_news (macro : Macro) (liveNews : list News.item) :
  highImpactOf liveNews = [] ->
  let directional :=
    if JS.includes "Bull" (trendLabel macro) then [longBtc "Medium"]
    else if JS.includes "Bear" (trendLabel macro) then [shortBtc "High"]
    else [] in
  let risk := if stressed macro then [riskWarning] else [] in
  buildIdeas numberToString rnd macro liveNews =
    match (directional ++ risk)%list with
    | [] => [noEdge]
    | ideas => ideas
    end.
Proof.
  intros Hh. cbv zeta. unfold buildIdeas. rewrite ruleIdeas_steps, Hh.
  unfold directionalStep, relativeValueStep, riskStep, push, stressed.
  cbn [List.filter length firstn pushNewsIdeas Nat.ltb Nat.leb app].
  destruct (JS.includes "Bull" (trendLabel macro));
    [| destruct (JS.includes "Bear" (trendLabel macro))];
    destruct (_ || _); reflexivity.
Qed.

End IdeaProps.

Lemma X18_ideas_without_high_impact_news_witness :
  buildIdeas exponentDigits halfRandom (macroOf (bothMoved 5))
    [sampleItem "Low" "Bullish" "OKX" General]
  = [longBtc "Medium"; riskWarning].
Proof.
  apply (X18_ideas_without_high_impact_news exponentDigits halfRandom (macroOf (bothMoved 5))
           [sampleItem "Low" "Bullish" "OKX" General]).
  reflexivity.
Defined.

Section IdeaFields.

Variable numberToString : Q -> string.
Variable rnd : nat -> Q.

(** Where an idea of the list comes from. *)
Lemma buildIdeas_each (macro : Macro) (liveNews : list News.item) (i : Idea.t) :
  In i (buildIdeas numberToString rnd macro liveNews) ->
  i = noEdge
  \/ (exists c, i = longBtc c /\ In c ["High"; "Medium"]
                /\ JS.includes "Bull" (trendLabel macro) = true)
  \/ (exists c, i = shortBtc c /\ In c ["High"; "Medium"]
                /\ JS.includes "Bull" (trendLabel macro) = false
                /\ JS.includes "Bear" (trendLabel macro) = true)
  \/ i = ethAlt
  \/ (i = riskWarning /\ stressed macro = true)
  \/ (exists n k, In n (firstn 5 (highImpactOf liveNews))
                  /\ i = newsIdea numberToString rnd n k).
Proof.
  unfold buildIdeas.
  destruct (fallbackStep_cases (ruleIdeas numberToString rnd macro liveNews))
    as [[_ ->] | [_ ->]].
  { intros [<- | []]. left. reflexivity. }
  rewrite ruleIdeas_steps. intros H.
  apply in_app_or in H. destruct H as [H | H].
  { unfold directionalStep, push in H.
    destruct (JS.includes "Bull" (trendLabel macro)) eqn:Eb.
    - destruct H as [<- | []]. right. left. eexists. split; [reflexivity |].
      split; [destruct (_ <? _)%nat; cbn; tauto | reflexivity].
    - destruct (JS.includes "Bear" (trendLabel macro)) eqn:Ee; [| destruct H].
      destruct H as [<- | []]. right. right. left. eexists. split; [reflexivity |].
      split; [destruct (_ <=? _)%nat; cbn; tauto | split; reflexivity]. }
  apply in_app_or in H. destruct H as [H | H].
  { unfold relativeValueStep, push in H. destruct (0 <? length _)%nat; [| destruct H].
    destruct H as [<- | []]. tauto. }
  apply in_app_or in H. destruct H as [H | H].
  { unfold riskStep, push in H. fold (stressed macro) in H.
    destruct (stressed macro) eqn:Es; [| destruct H].
    destruct H as [<- | []]. do 4 right. left. split; reflexivity. }
  do 5 right. apply (pushNewsIdeas_each numberToString rnd 0). exact H.
Qed.

Lemma substring_length (m : nat) (s : string) : (String.length (substring 0 m s) <= m)%nat.
Proof.
  revert s. induction m as [| m IH]; intros s.
  - destruct s; cbn; lia.
  - destruct s as [| c s]; cbn [substring String.length]; [lia |].
    specialize (IH s). lia.
Qed.

Lemma append_length (a b : string) :
  String.length (a ++ b) = (String.length a + String.length b)%nat.
Proof.
  induction a as [| c a IH]; [reflexivity |].
  rewrite append_cons. cbn [String.length]. rewrite IH. reflexivity.
Qed.

(** X19: every idea of the list has a conviction of High, Medium or Low and
    one of the five categories.  A narrative idea has the tag MOMO LONG,
    MOMO SHORT or THEME IDEA, a conviction of Medium or Low, and a summary
    of at most 123 characters: at most 120 of the item's summary and the
    three dots. *)
Theorem X19_idea_fields (macro : Macro) (liveNews : list News.item) (i : Idea.t) :
  In i (buildIdeas numberToString rnd macro liveNews) ->
  In (Idea.conviction i) ["High"; "Medium"; "Low"]
  /\ In (Idea.category i)
       ["Directional"; "Relative Value"; "Risk Management"; "Narrative"; "Neutral"]
  /\ (Idea.category i = "Narrative" ->
      In (Idea.tag i) ["MOMO LONG"; "MOMO SHORT"; "THEME IDEA"]
      /\ In (Idea.conviction i) ["Medium"; "Low"]
      /\ (String.length (Idea.summary i) <= 123)%nat).
Proof.
  intros H. apply buildIdeas_each in H.
  destruct H as [-> | [(c & -> & Hc & _) | [(c & -> & Hc & _) | [-> | [[-> _] | (n & k & _ & ->)]]]]];
    try (cbn; split; [tauto |]; split; [tauto | discriminate]).
  - cbn [longBtc Idea.conviction Idea.category]. cbn [In] in *.
    split; [tauto |]. split; [tauto | discriminate].
  - cbn [shortBtc Idea.conviction Idea.category]. cbn [In] in *.
    split; [tauto |]. split; [tauto | discriminate].
  - unfold newsIdea. cbn [Idea.conviction Idea.category Idea.tag Idea.summary].
    assert (Hconv : In (if Nat.even k then "Medium" else "Low") ["Medium"; "Low"])
      by (destruct (Nat.even k); cbn; tauto).
    split; [cbn [In] in *; tauto |]. split; [cbn; tauto |].
    intros _. split.
    + destruct (_ =? "Bullish")%string; [cbn; tauto |].
      destruct (_ =? "Bearish")%string; cbn; tauto.
    + split; [exact Hconv |].
      rewrite append_length. pose proof (substring_length 120 (JS.or_str (News.summary n) "")).
      cbn [String.length]. lia.
Qed.

Lemma all_of_filter (c c' : string) (l : list Idea.t) :
  all_of c' l ->
  List.filter (fun i => (Idea.category i =? c)%string) l = if (c' =? c)%string then l else [].
Proof.
  unfold all_of. induction 1 as [| i l [Hc _] _ IH]; [destruct (c' =? c)%string; reflexivity |].
  cbn [List.filter]. rewrite Hc, IH. destruct (c' =? c)%string; reflexivity.
Qed.

Lemma pushNewsIdeas_titles (idx : nat) (l : list News.item) :
  map Idea.title (pushNewsIdeas numberToString rnd idx l []) = map narrativeTitle l.
Proof.
  revert idx. induction l as [| n l IH]; intros idx; [reflexivity |].
  cbn [pushNewsIdeas map]. rewrite pushNewsIdeas_app. unfold push.
  cbn [app map]. rewrite IH. reflexivity.
Qed.

(** X20: the narrative ideas follow the news.  In list order they are made
    from the first five high-impact items among the first 50 items, one
    each and in the order of the news: the k-th narrative idea is titled
    with the source and the sentiment of the k-th of these items. *)
Theorem X20_narrative_ideas_follow_news (macro : Macro) (liveNews : list News.item) :
  map Idea.title
    (List.filter isNarrative (buildIdeas numberToString rnd macro liveNews))
  = map narrativeTitle (firstn 5 (highImpactOf liveNews)).
Proof.
  unfold buildIdeas, isNarrative.
  destruct (fallbackStep_cases (ruleIdeas numberToString rnd macro liveNews))
    as [[E ->] | [_ ->]].
  { apply ruleIdeas_nil_iff in E. destruct E as (_ & _ & _ & ->). reflexivity. }
  rewrite ruleIdeas_steps, !List.filter_app.
  destruct (directionalStep_app macro (highImpactOf liveNews) []) as (d & -> & _ & Ad & _).
  destruct (relativeValueStep_app (highImpactOf liveNews) []) as (r & -> & _ & Ar & _).
  destruct (riskStep_app macro []) as (k & -> & _ & Ak & _).
  cbn [app].
  rewrite (all_of_filter "Narrative" _ _ Ad), (all_of_filter "Narrative" _ _ Ar),
    (all_of_filter "Narrative" _ _ Ak),
    (all_of_filter "Narrative" _ _ (pushNewsIdeas_narrative numberToString rnd 0 _)).
  cbn [String.eqb Ascii.eqb Bool.eqb app]. apply pushNewsIdeas_titles.
Qed.

End IdeaFields.

Lemma X19_idea_fields_witness :
  Forall (fun i => In (Idea.conviction i) ["High"; "Medium"; "Low"])
    (buildIdeas exponentDigits halfRandom (macroOf (bothMoved 5))
       [sampleItem "High" "Bullish" "Coindesk" General]).
Proof.
  apply List.Forall_forall. intros i Hi.
  apply (X19_idea_fields exponentDigits halfRandom (macroOf (bothMoved 5))
           [sampleItem "High" "Bullish" "Coindesk" General] i Hi).
Defined.

(** ** From the price answer to the ideas *)

Lemma gt_finite_mono (x : Float64.t) (ma mb : positive) (ea eb : Z) :
  (eb < ea)%Z ->
  Float64.gt x (S754_finite false ma ea) = true ->
  Float64.gt x (S754_finite false mb eb) = true.
Proof.
  intros He. unfold Float64.gt, SFltb, SFcompare.
  destruct x as [s | s | | s m e]; try (intros H; exact H).
  destruct s; [intros H; exact H |].
  destruct (Z.compare_spec ea e) as [E | E | E];
    destruct (Z.compare_spec eb e) as [E' | E' | E']; try lia;
    try reflexivity; intros H; discriminate H.
Qed.

Lemma lt_finite_mono (x : Float64.t) (ma mb : positive) (ea eb : Z) :
  (eb < ea)%Z ->
  Float64.lt x (S754_finite true ma ea) = true ->
  Float64.lt x (S754_finite true mb eb) = true.
Proof.
  intros He. unfold Float64.lt, SFltb, SFcompare.
  destruct x as [s | s | | s m e]; try (intros H; exact H).
  destruct s; [| intros H; exact H].
  destruct (Z.compare_spec e ea) as [E | E | E];
    destruct (Z.compare_spec e eb) as [E' | E' | E']; try lia;
    try reflexivity; intros H; discriminate H.
Qed.

Lemma lt_negative_not_gt_positive (x : Float64.t) (ma mb : positive) (ea eb : Z) :
  Float64.lt x (S754_finite true ma ea) = true ->
  Float64.gt x (S754_finite false mb eb) = false.
Proof.
  unfold Float64.lt, Float64.gt, SFltb, SFcompare.
  destruct x as [s | s | | s m e]; try reflexivity.
  - destruct s; [reflexivity | intros H; discriminate H].
  - destruct s; [reflexivity | intros H; discriminate H].
Qed.

Lemma above_3_1 (x : Float64.t) : above x 3 -> above x 1.
Proof. apply gt_finite_mono. reflexivity. Qed.

Lemma below_3_1 (x : Float64.t) : below x (-3) -> below x (-1).
Proof. apply lt_finite_mono. reflexivity. Qed.

Lemma below_not_above (x : Float64.t) : below x (-1) -> ~ above x 1 /\ ~ above x 3.
Proof.
  intros H.
  pose proof (lt_negative_not_gt_positive x _ 4503599627370496 _ (-52) H) as E1.
  pose proof (lt_negative_not_gt_positive x _ 6755399441055744 _ (-51) H) as E3.
  change (S754_finite false 4503599627370496 (-52)) with (Float64.of_Z 1) in E1.
  change (S754_finite false 6755399441055744 (-51)) with (Float64.of_Z 3) in E3.
  unfold above. split; congruence.
Qed.

Lemma above_volume (x : Float64.t) : above x 50000000000 -> above x 20000000000.
Proof. apply gt_finite_mono. reflexivity. Qed.

Lemma trend_bull (data : gmap string Quote64.t) :
  above (avgChange64 data) 1 -> JS.includes "Bull" (trendLabel (macroOf64 data)) = true.
Proof.
  intros H. rewrite trendLabel64_eq. cbv zeta. unfold above in H. rewrite H.
  destruct (Float64.gt (avgChange64 data) (Float64.of_Z 3)); reflexivity.
Qed.

Lemma trend_bear (data : gmap string Quote64.t) :
  below (avgChange64 data) (-1) ->
  JS.includes "Bull" (trendLabel (macroOf64 data)) = false
  /\ JS.includes "Bear" (trendLabel (macroOf64 data)) = true.
Proof.
  intros H. destruct (below_not_above _ H) as [H1 H3].
  unfold above, below in *. rewrite trendLabel64_eq. cbv zeta.
  apply not_true_is_false in H1, H3. rewrite H1, H3, H.
  destruct (Float64.lt (avgChange64 data) (Float64.of_Z (-3))); split; reflexivity.
Qed.

Lemma trend_sideways (data : gmap string Quote64.t) :
  ~ above (avgChange64 data) 1 -> ~ below (avgChange64 data) (-1) ->
  JS.includes "Bull" (trendLabel (macroOf64 data)) = false
  /\ JS.includes "Bear" (trendLabel (macroOf64 data)) = false.
Proof.
  intros H1 H2.
  assert (H3 : ~ above (avgChange64 data) 3) by (intros H; apply H1, above_3_1, H).
  assert (H4 : ~ below (avgChange64 data) (-3)) by (intros H; apply H2, below_3_1, H).
  unfold above, below in *. apply not_true_is_false in H1, H2, H3, H4.
  rewrite trendLabel64_eq. cbv zeta. rewrite H1, H2, H3, H4. split; reflexivity.
Qed.

Lemma stressed_iff (data : gmap string Quote64.t) :
  stressed (macroOf64 data) = true <->
  above (Float64.abs (avgChange64 data)) 4
  \/ (above (totalVolume64 data) 0 /\ ~ above (totalVolume64 data) 20000000000).
Proof.
  unfold stressed. rewrite volaLabel64_eq, liqLabel64_eq. cbv zeta.
  pose proof (above_volume (totalVolume64 data)) as Hbig.
  unfold above in *.
  set (a := Float64.abs (avgChange64 data)) in *. set (total := totalVolume64 data) in *.
  revert Hbig.
  destruct (Float64.gt a (Float64.of_Z 4)), (Float64.gt a (Float64.of_Z 2)),
    (Float64.gt total (Float64.of_Z 50000000000)),
    (Float64.gt total (Float64.of_Z 20000000000)),
    (Float64.gt total (Float64.of_Z 0));
    intros Hbig; cbn; split; intros H;
    try reflexivity; try discriminate H;
    try (specialize (Hbig eq_refl); discriminate Hbig);
    try (left; reflexivity); try (right; split; [reflexivity | discriminate]);
    destruct H as [H | [H1 H2]]; try discriminate H; try discriminate H1;
    exfalso; apply H2; reflexivity.
Qed.

Section RegimeToIdeas.

Variable numberToString : Q -> string.
Variable rnd : nat -> Q.

Lemma ideas_of_nonempty_rules (macro : Macro) (liveNews : list News.item)
    (i : Idea.t) (rest : list Idea.t) :
  ruleIdeas numberToString rnd macro liveNews = i :: rest ->
  buildIdeas numberToString rnd macro liveNews = i :: rest.
Proof. intros E. unfold buildIdeas. rewrite E. reflexivity. Qed.

(** X21: the price answer decides the directional idea and the risk warning
    of the list.  On the average 24h change and the total volume the engine
    computes, in double arithmetic: with an average above 1 the list starts
    with the long BTC idea, below -1 with the short BTC idea, and otherwise
    it has no directional idea; the risk warning is in the list exactly
    when the average is above 4 in magnitude or the total volume is above 0
    and not above 20e9. *)
Theorem X21_price_answer_to_ideas (data : gmap string Quote64.t)
    (liveNews : list News.item) :
  let ideas := buildIdeas numberToString rnd (macroOf64 data) liveNews in
  let avg := avgChange64 data in
  let total := totalVolume64 data in
  (above avg 1 -> exists c rest, ideas = longBtc c :: rest)
  /\ (below avg (-1) -> exists c rest, ideas = shortBtc c :: rest)
  /\ (~ above avg 1 -> ~ below avg (-1) ->
      Forall (fun i => Idea.category i <> "Directional") ideas)
  /\ (In riskWarning ideas <->
      above (Float64.abs avg) 4 \/ (above total 0 /\ ~ above total 20000000000)).
Proof.
  cbv zeta. split; [| split; [| split]].
  - intros H. apply trend_bull in H.
    pose proof (ruleIdeas_steps numberToString rnd (macroOf64 data) liveNews) as E.
    unfold directionalStep, push in E. rewrite H in E. cbn [app] in E.
    do 2 eexists. apply ideas_of_nonempty_rules. exact E.
  - intros H. apply trend_bear in H. destruct H as [Hb He].
    pose proof (ruleIdeas_steps numberToString rnd (macroOf64 data) liveNews) as E.
    unfold directionalStep, push in E. rewrite Hb, He in E. cbn [app] in E.
    do 2 eexists. apply ideas_of_nonempty_rules. exact E.
  - intros H1 H2. destruct (trend_sideways data H1 H2) as [Hb He].
    apply List.Forall_forall. intros i Hi.
    apply buildIdeas_each in Hi.
    destruct Hi as [-> | [(c & _ & _ & Hc) | [(c & _ & _ & _ & Hc) | [-> | [[-> _] | (n & k & _ & ->)]]]]];
      try discriminate; congruence.
  - rewrite <- stressed_iff. split.
    + intros Hi. apply buildIdeas_each in Hi.
      destruct Hi as [E | [(c & E & _) | [(c & E & _) | [E | [[_ Hs] | (n & k & _ & E)]]]]];
        try exact Hs; apply (f_equal Idea.category) in E; discriminate E.
    + intros Hs.
      pose proof (ruleIdeas_steps numberToString rnd (macroOf64 data) liveNews) as E.
      assert (Hk : riskStep (macroOf64 data) [] = [riskWarning]).
      { unfold riskStep, push. fold (stressed (macroOf64 data)). rewrite Hs. reflexivity. }
      rewrite Hk in E.
      assert (Hin : In riskWarning (ruleIdeas numberToString rnd (macroOf64 data) liveNews)).
      { rewrite E. apply in_or_app. right. apply in_or_app. right. left. reflexivity. }
      destruct (ruleIdeas numberToString rnd (macroOf64 data) liveNews) as [| i rest] eqn:Er;
        [destruct Hin |].
      rewrite (ideas_of_nonempty_rules _ _ _ _ Er). exact Hin.
Qed.

End RegimeToIdeas.

Lemma X21_price_answer_to_ideas_witness :
  let rounded := snapshot64 (Some (Float64.of_Z 2)) (Some (Float64.of_binary 1 (-60)))
                   None None in
  let falling := snapshot64 (Some (Float64.of_Z (-2))) (Some (Float64.of_Z (-2)))
                   None None in
  let news := [sampleItem "High" "Bearish" "Coindesk" General] in
  avgChange64 rounded = Float64.of_Z 1
  /\ Forall (fun i => Idea.category i <> "Directional")
       (buildIdeas exponentDigits halfRandom (macroOf64 rounded) news)
  /\ exists c rest,
       buildIdeas exponentDigits halfRandom (macroOf64 falling) news = shortBtc c :: rest.
Proof.
  cbv zeta. split; [reflexivity |]. split.
  - apply (proj1 (proj2 (proj2 (X21_price_answer_to_ideas exponentDigits halfRandom
                                    (snapshot64 (Some (Float64.of_Z 2))
                                       (Some (Float64.of_binary 1 (-60))) None None)
                                    [sampleItem "High" "Bearish" "Coindesk" General]))));
      discriminate.
  - apply (proj1 (proj2 (X21_price_answer_to_ideas exponentDigits halfRandom
                           (snapshot64 (Some (Float64.of_Z (-2))) (Some (Float64.of_Z (-2)))
                              None None)
                           [sampleItem "High" "Bearish" "Coindesk" General]))).
    reflexivity.
Defined.

(** ** The view *)

Lemma filter_first {A : Type} (p : A -> bool) (l : list A) (n : A) (t : list A) :
  List.filter p l = n :: t ->
  p n = true
  /\ exists before after,
       l = (before ++ n :: after)%list /\ Forall (fun x => p x = false) before.
Proof.
  induction l as [| a l IH]; [intros H; discriminate H |].
  cbn [List.filter]. destruct (p a) eqn:E.
  - intros H. injection H as -> _. split; [exact E |].
    exists [], l. split; [reflexivity | constructor].
  - intros H. destruct (IH H) as (Hn & before & after & -> & Hb).
    split; [exact Hn |].
    exists (a :: before), after. split; [reflexivity | constructor; assumption].
Qed.

Lemma filteredNews_eq (f : string) (liveNews : list News.item) :
  filteredNews f liveNews = List.filter (passes f) liveNews.
Proof.
  unfold filteredNews, passes. destruct liveNews as [| n0 l]; [reflexivity |].
  destruct (f =? "All")%string.
  - cbn [orb]. symmetry. apply List.forallb_filter_id. apply List.forallb_forall.
    reflexivity.
  - cbn [orb]. reflexivity.
Qed.

(** X22: what the headline shows.  Without news it is the waiting text,
    with the five provider names as tags.  With news it is an item of the
    news.  When some item passes the sentiment filter, it is the first of
    them: the head of the filtered list, with no passing item before it in
    the news; under the filter All that is the first item of the news, and
    under another filter its sentiment is the one of the filter.  When no
    item passes, it is the first item of the news, whose sentiment is not
    the one of the filter although the filtered list is empty. *)
Theorem X22_headline_choice (sentimentFilter : string) (liveNews : list News.item) :
  let filtered := filteredNews sentimentFilter liveNews in
  (liveNews = [] ->
   headline filtered liveNews = Waiting
   /\ headlineTags (headline filtered liveNews)
      = ["BINANCE"; "BYBIT"; "OKX"; "COINTELEGRAPH"; "COINDESK"])
  /\ (forall n0 rest, liveNews = n0 :: rest ->
        exists n, headline filtered liveNews = Story n
                  /\ In n liveNews
                  /\ (filtered <> [] ->
                      hd_error filtered = Some n
                      /\ passes sentimentFilter n = true
                      /\ exists before after,
                           liveNews = (before ++ n :: after)%list
                           /\ Forall (fun x => passes sentimentFilter x = false) before)
                  /\ (sentimentFilter = "All" -> n = n0 /\ filtered = liveNews)
                  /\ (filtered <> [] -> sentimentFilter <> "All" ->
                      News.sentiment n = sentimentFilter)
                  /\ (filtered = [] ->
                      n = n0 /\ News.sentiment n <> sentimentFilter
                      /\ sentimentFilter <> "All"
                      /\ Forall (fun x => passes sentimentFilter x = false) liveNews)).
Proof.
  cbv zeta. split; [intros ->; split; reflexivity |].
  intros n0 rest ->.
  destruct (filteredNews sentimentFilter (n0 :: rest)) as [| n l] eqn:E.
  - exists n0. cbn [headline]. split; [reflexivity |]. split; [left; reflexivity |].
    split; [intros H; contradiction |].
    assert (Hne : sentimentFilter <> "All").
    { intros ->. discriminate E. }
    split; [intros H; contradiction |].
    split; [intros H; contradiction |].
    intros _. split; [reflexivity |].
    rewrite filteredNews_eq in E.
    assert (Hall : Forall (fun x => passes sentimentFilter x = false) (n0 :: rest)).
    { apply List.Forall_forall. intros x Hx.
      destruct (passes sentimentFilter x) eqn:Ep; [| reflexivity].
      assert (Hin : In x (List.filter (passes sentimentFilter) (n0 :: rest)))
        by (apply List.filter_In; split; assumption).
      rewrite E in Hin. destruct Hin. }
    split; [| split; [exact Hne | exact Hall]].
    intros Hs. pose proof (List.Forall_inv Hall) as Hp. cbn beta in Hp.
    unfold passes in Hp. rewrite Hs, String.eqb_refl, orb_true_r in Hp. discriminate Hp.
  - exists n. cbn [headline]. split; [reflexivity |].
    pose proof E as E'. rewrite filteredNews_eq in E'.
    destruct (filter_first _ _ _ _ E') as (Hp & before & after & Hl & Hb).
    split; [rewrite Hl; apply in_or_app; right; left; reflexivity |].
    split.
    { intros _. split; [reflexivity |]. split; [exact Hp |].
      exists before, after. split; [exact Hl | exact Hb]. }
    split.
    { intros ->. cbn in E. injection E as -> ->. split; reflexivity. }
    split; [| discriminate].
    intros _ Hne. unfold passes in Hp.
    destruct (String.eqb_spec sentimentFilter "All") as [-> | _];
      [exfalso; apply Hne; reflexivity |].
    cbn [orb] in Hp. apply String.eqb_eq in Hp. exact Hp.
Qed.

Lemma X22_headline_choice_witness :
  let rising := sampleItem "High" "Bullish" "OKX" General in
  let falling := sampleItem "Low" "Bearish" "Bybit" DeFi in
  headline (filteredNews "Bearish" [rising; falling]) [rising; falling] = Story falling
  /\ headline (filteredNews "All" [rising; falling]) [rising; falling] = Story rising
  /\ headline (filteredNews "Cautious" [rising; falling]) [rising; falling] = Story rising
  /\ filteredNews "Cautious" [rising; falling] = [].
Proof.
  cbv zeta.
  set (rising := sampleItem "High" "Bullish" "OKX" General).
  set (falling := sampleItem "Low" "Bearish" "Bybit" DeFi).
  split; [| split; [| split]].
  - destruct (proj2 (X22_headline_choice "Bearish" [rising; falling]) _ _ eq_refl)
      as (n & E & _ & H & _).
    destruct H as (Hhd & _); [discriminate |].
    apply Some_eq in Hhd. rewrite E, <- Hhd. reflexivity.
  - destruct (proj2 (X22_headline_choice "All" [rising; falling]) _ _ eq_refl)
      as (n & E & _ & _ & H & _).
    destruct (H eq_refl) as [-> _]. exact E.
  - destruct (proj2 (X22_headline_choice "Cautious" [rising; falling]) _ _ eq_refl)
      as (n & E & _ & _ & _ & _ & H).
    destruct (H eq_refl) as (-> & _). exact E.
  - reflexivity.
Defined.

Lemma X11_source_is_endpoint_at_arrival_position_witness :
  exists merged,
    loadNews None (onlyFeed "Bybit" [titled "Listing notice"]) halfRandom = Some merged
    /\ map News.source merged = ["Binance"]
    /\ map News.id merged = ["Binance-Listing notice"].
Proof.
  destruct (X11_source_is_endpoint_at_arrival_position None
              (onlyFeed "Bybit" [titled "Listing notice"]) halfRandom)
    as (merged & E & H).
  exists merged. split; [exact E |].
  change (firstn 60 (origins (resultsOf (onlyFeed "Bybit" [titled "Listing notice"]))))
    with [{| provider := 1; slot := 0; raw := titled "Listing notice" |}] in H.
  inversion H as [| n o l l' (endpoint & Hep & Hsrc & Hid) Hrest]; subst.
  inversion Hrest; subst.
  change (nth_error EXCHANGE_NEWS_ENDPOINTS
            (arrived (firstn (provider {| provider := 1; slot := 0;
                                          raw := titled "Listing notice" |})
                        (resultsOf (onlyFeed "Bybit" [titled "Listing notice"])))))
    with (nth_error EXCHANGE_NEWS_ENDPOINTS 0) in Hep.
  apply Some_eq in Hep. subst endpoint.
  specialize (Hid eq_refl).
  assert (Ht : News.title n = "Listing notice").
  { vm_compute in E. apply Some_eq in E. injection E as <-. reflexivity. }
  cbn [map]. rewrite Hid, Hsrc, Ht. split; reflexivity.
Defined.

(** ** Failure isolation *)

(** X23: a failed fetch does not keep the other feeds out.  For every
    cycle, whichever fetches fail, the list [loadNews] sets consists of the
    items of the payloads that arrived, in the order of the providers and
    of their feeds, cut after the first 60: each carries the title, date,
    summary and category of its raw item.  An item of a provider before
    which no fetch failed has [source] equal to the name of that provider. *)
Theorem X23_arrived_feeds_merged (window : option Document)
    (fetch : string -> option Payload) (rnd : nat -> Q) :
  exists merged,
    loadNews window fetch rnd = Some merged
    /\ Forall2
         (fun n o =>
            content_of window (raw o) n
            /\ (noFailureBefore (provider o) (resultsOf fetch) ->
                Some (News.source n) = providerName (provider o)))
         merged (firstn 60 (origins (resultsOf fetch))).
Proof.
  destruct (loadNews_made window rnd fetch) as (out & E & H).
  exists (firstn 60 out). split; [exact E |].
  apply Forall2_take.
  apply (Forall2_impl_In _ _ _ _ H).
  intros n o Hin (endpoint & Hep & Hsrc & Hc & _).
  split; [exact Hc |].
  intros Hok.
  destruct (originsFrom_slot _ _ _ _ Hin) as [_ Hs].
  destruct Hs as [Hs _].
  { intros t Ht. apply Hok. lia. }
  unfold providerName. replace (provider o) with (slot o) by lia.
  rewrite Hep, Hsrc. reflexivity.
Qed.

Lemma X23_arrived_feeds_merged_witness :
  exists merged,
    loadNews None (onlyFeed "Binance" [titled "Binance Lists New AI Token"]) halfRandom
      = Some merged
    /\ map News.source merged = ["Binance"].
Proof.
  destruct (X23_arrived_feeds_merged None
              (onlyFeed "Binance" [titled "Binance Lists New AI Token"]) halfRandom)
    as (merged & E & H).
  exists merged. split; [exact E |].
  change (firstn 60 (origins (resultsOf
            (onlyFeed "Binance" [titled "Binance Lists New AI Token"]))))
    with [{| provider := 0; slot := 0; raw := titled "Binance Lists New AI Token" |}] in H.
  inversion H as [| n o l l' [_ Hsrc] Hrest]; subst.
  inversion Hrest; subst. cbn [map].
  assert (Hs : Some (News.source n) = Some "Binance").
  { apply Hsrc. intros j' Hj. inversion Hj. }
  injection Hs as ->. reflexivity.
Defined.

(** ** Doubles and their values *)

Lemma digits2_pos_bounds (m : positive) :
  (2 ^ (Zpos (digits2_pos m) - 1) <= Zpos m < 2 ^ Zpos (digits2_pos m))%Z.
Proof.
  induction m as [m IH | m IH |].
  - cbn [digits2_pos]. rewrite Pos2Z.inj_succ.
    replace (Z.succ (Zpos (digits2_pos m)) - 1)%Z with (Z.succ (Zpos (digits2_pos m) - 1))%Z by lia.
    rewrite !Z.pow_succ_r by lia. lia.
  - cbn [digits2_pos]. rewrite Pos2Z.inj_succ.
    replace (Z.succ (Zpos (digits2_pos m)) - 1)%Z with (Z.succ (Zpos (digits2_pos m) - 1))%Z by lia.
    rewrite !Z.pow_succ_r by lia. lia.
  - cbn. lia.
Qed.

Lemma bounded_canonical (m : positive) (e : Z) :
  bounded Float64.prec Float64.emax m e = true -> canonical64 m e.
Proof.
  unfold bounded, canonical_mantissa, fexp, emin, Float64.prec, Float64.emax.
  intros H. apply andb_true_iff in H. destruct H as [H _].
  apply Z.eqb_eq in H.
  pose proof (digits2_pos_bounds m) as [Hlo Hhi].
  set (d := Zpos (digits2_pos m)) in *.
  assert (Hd : (0 < d)%Z) by (unfold d; lia).
  unfold canonical64.
  destruct (Z.max_spec (d + e - 53) (3 - 1024 - 53)) as [[Hc Hm] | [Hc Hm]];
    rewrite Hm in H.
  - split; [lia |]. split.
    + apply (Z.lt_le_trans _ _ _ Hhi). apply Z.pow_le_mono_r; lia.
    + right. lia.
  - assert (d = 53)%Z by lia. subst d. rewrite H0 in *.
    split; [lia |]. split; [exact Hhi | left; exact Hlo].
Qed.

Lemma scaled_order (m1 m2 k1 k2 : Z) :
  (0 <= k1)%Z -> (0 < m1 < 2 ^ 53)%Z -> (2 ^ 52 <= m2)%Z -> (k1 < k2)%Z ->
  (m1 * 2 ^ k1 < m2 * 2 ^ k2)%Z.
Proof.
  intros Hk1 Hm1 Hm2 Hlt.
  replace k2 with (k1 + 1 + (k2 - k1 - 1))%Z by lia.
  rewrite !Z.pow_add_r by lia.
  assert (HP : (0 < 2 ^ k1)%Z) by (apply Z.pow_pos_nonneg; lia).
  assert (HD : (1 <= 2 ^ (k2 - k1 - 1))%Z).
  { assert (0 < 2 ^ (k2 - k1 - 1))%Z by (apply Z.pow_pos_nonneg; lia). lia. }
  change (2 ^ 53)%Z with (2 * 2 ^ 52)%Z in Hm1.
  set (B := (2 ^ 52)%Z) in *. set (P := (2 ^ k1)%Z) in *. set (D := (2 ^ (k2 - k1 - 1))%Z) in *.
  change (2 ^ 1)%Z with 2%Z.
  assert (m1 * P < 2 * B * P)%Z by nia.
  assert (2 * B * P <= m2 * (P * 2))%Z by nia.
  assert (m2 * (P * 2) * 1 <= m2 * (P * 2) * D)%Z.
  { apply Z.mul_le_mono_nonneg_l; [nia | exact HD]. }
  nia.
Qed.

Lemma canonical_compare (m1 m2 : positive) (e1 e2 : Z) :
  canonical64 m1 e1 -> canonical64 m2 e2 ->
  match (e1 ?= e2)%Z with
  | Eq => Pos.compare_cont Eq m1 m2
  | Lt => Lt
  | Gt => Gt
  end = (Zpos m1 * 2 ^ (e1 + 1074) ?= Zpos m2 * 2 ^ (e2 + 1074))%Z.
Proof.
  intros (Hmin1 & Hhi1 & Hlo1) (Hmin2 & Hhi2 & Hlo2).
  destruct (Z.compare_spec e1 e2) as [E | E | E].
  - subst e2. symmetry.
    assert (HP : (0 < 2 ^ (e1 + 1074))%Z) by (apply Z.pow_pos_nonneg; lia).
    rewrite <- Zmult_compare_compat_r by lia. reflexivity.
  - symmetry. apply Z.compare_lt_iff. apply scaled_order; lia.
  - symmetry. apply Z.compare_gt_iff. apply scaled_order; lia.
Qed.

Lemma ltb_units (x y : Float64.t) :
  binary64 x -> binary64 y -> isFinite x = true -> isFinite y = true ->
  SFltb x y = (unitsOf x <? unitsOf y)%Z.
Proof.
  unfold binary64, valid_binary, SFltb, SFcompare.
  destruct x as [s1 | s1 | | s1 m1 e1], y as [s2 | s2 | | s2 m2 e2];
    intros Hx Hy Fx Fy; try discriminate Fx; try discriminate Fy.
  - reflexivity.
  - apply bounded_canonical in Hy. destruct Hy as (Hmin & _).
    assert (0 < 2 ^ (e2 + 1074))%Z by (apply Z.pow_pos_nonneg; lia).
    destruct s2; cbn [unitsOf cond_Zopp]; symmetry;
      [apply Z.ltb_ge | apply Z.ltb_lt]; lia.
  - apply bounded_canonical in Hx. destruct Hx as (Hmin & _).
    assert (0 < 2 ^ (e1 + 1074))%Z by (apply Z.pow_pos_nonneg; lia).
    destruct s1; cbn [unitsOf cond_Zopp]; symmetry;
      [apply Z.ltb_lt | apply Z.ltb_ge]; lia.
  - apply bounded_canonical in Hx, Hy.
    pose proof (canonical_compare _ _ _ _ Hx Hy) as C.
    destruct Hx as (Hmin1 & _), Hy as (Hmin2 & _).
    assert (0 < 2 ^ (e1 + 1074))%Z by (apply Z.pow_pos_nonneg; lia).
    assert (0 < 2 ^ (e2 + 1074))%Z by (apply Z.pow_pos_nonneg; lia).
    assert (0 < Zpos m1 * 2 ^ (e1 + 1074))%Z by (apply Z.mul_pos_pos; lia).
    assert (0 < Zpos m2 * 2 ^ (e2 + 1074))%Z by (apply Z.mul_pos_pos; lia).
    cbn [unitsOf].
    destruct s1, s2; cbn [cond_Zopp].
    + unfold Z.ltb.
      rewrite Z.compare_opp, (Z.compare_antisym (Zpos m1 * 2 ^ (e1 + 1074))), <- C.
      destruct (e1 ?= e2)%Z; [destruct (Pos.compare_cont Eq m1 m2) | |]; reflexivity.
    + symmetry. apply Z.ltb_lt. lia.
    + symmetry. apply Z.ltb_ge. lia.
    + unfold Z.ltb. rewrite <- C. destruct (e1 ?= e2)%Z; reflexivity.
Qed.

Lemma unit_inverse : (2 ^ 1074 * 2 ^ (-1074) == 1)%Q.
Proof. vm_compute. reflexivity. Qed.

Lemma unit_positive : (0 < 2 ^ (-1074))%Q.
Proof. vm_compute. reflexivity. Qed.

Lemma value_units (x : Float64.t) (v : Q) :
  binary64 x -> valueOf x = Some v ->
  (v == inject_Z (unitsOf x) * 2 ^ (-1074))%Q.
Proof.
  unfold binary64, valid_binary.
  destruct x as [s | s | | s m e]; intros Hx Hv; try discriminate Hv.
  - cbn in Hv. injection Hv as <-. cbn [unitsOf]. rewrite Qmult_0_l. reflexivity.
  - apply bounded_canonical in Hx. destruct Hx as (Hmin & _).
    cbn [valueOf] in Hv. injection Hv as <-. cbn [unitsOf].
    assert (E : cond_Zopp s (Zpos m * 2 ^ (e + 1074)) = (cond_Zopp s (Zpos m) * 2 ^ (e + 1074))%Z)
      by (destruct s; cbn [cond_Zopp]; lia).
    rewrite E, inject_Z_mult, Zpower_Qpower by lia.
    change (inject_Z 2) with 2%Q.
    rewrite Qpower_plus by (intros H; discriminate H).
    rewrite <- !Qmult_assoc, unit_inverse, Qmult_1_r. reflexivity.
Qed.

(** Doubles of the format that have a value are ordered as their values. *)
Lemma ltb_value (x y : Float64.t) (vx vy : Q) :
  binary64 x -> binary64 y -> valueOf x = Some vx -> valueOf y = Some vy ->
  SFltb x y = true <-> (vx < vy)%Q.
Proof.
  intros Hx Hy Vx Vy.
  assert (Fx : isFinite x = true) by (destruct x; try discriminate Vx; reflexivity).
  assert (Fy : isFinite y = true) by (destruct y; try discriminate Vy; reflexivity).
  rewrite (ltb_units x y Hx Hy Fx Fy), Z.ltb_lt.
  rewrite (value_units x vx Hx Vx), (value_units y vy Hy Vy).
  rewrite Zlt_Qlt. split; intros H.
  - apply Qmult_lt_r; [exact unit_positive | exact H].
  - apply Qmult_lt_r in H; [exact H | exact unit_positive].
Qed.

Lemma threshold_value (z : Z) :
  In z thresholds ->
  binary64 (Float64.of_Z z)
  /\ exists vz, valueOf (Float64.of_Z z) = Some vz /\ (vz == inject_Z z)%Q.
Proof.
  intros H. unfold thresholds in H. cbn [In] in H.
  repeat (destruct H as [<- | H];
          [split; [reflexivity | eexists; split; [reflexivity | vm_compute; reflexivity]] |]).
  destruct H.
Qed.

Lemma gt_threshold (x : Float64.t) (v : Q) (z : Z) :
  binary64 x -> valueOf x = Some v -> In z thresholds ->
  Float64.gt x (Float64.of_Z z) = true <-> (inject_Z z < v)%Q.
Proof.
  intros Hx Hv Hz. destruct (threshold_value z Hz) as (Bz & vz & Vz & Ez).
  unfold Float64.gt. rewrite (ltb_value _ _ vz v Bz Hx Vz Hv), Ez. reflexivity.
Qed.

Lemma lt_threshold (x : Float64.t) (v : Q) (z : Z) :
  binary64 x -> valueOf x = Some v -> In z thresholds ->
  Float64.lt x (Float64.of_Z z) = true <-> (v < inject_Z z)%Q.
Proof.
  intros Hx Hv Hz. destruct (threshold_value z Hz) as (Bz & vz & Vz & Ez).
  unfold Float64.lt. rewrite (ltb_value _ _ v vz Hx Bz Hv Vz), Ez. reflexivity.
Qed.

Lemma abs_binary64 (x : Float64.t) : binary64 x -> binary64 (Float64.abs x).
Proof. destruct x; intros H; exact H. Qed.

Lemma pow2_positive (e : Z) : (0 < 2 ^ e)%Q.
Proof. apply Qpower_0_lt. reflexivity. Qed.

Lemma abs_value (x : Float64.t) (v : Q) :
  valueOf x = Some v ->
  exists va, valueOf (Float64.abs x) = Some va /\ (va == Qabs v)%Q.
Proof.
  destruct x as [s | s | | s m e]; intros Hv; try discriminate Hv.
  - injection Hv as <-. exists 0%Q. split; reflexivity.
  - cbn [valueOf] in Hv. injection Hv as <-.
    eexists. split; [reflexivity |].
    rewrite Qabs_Qmult, (Qabs_pos (2 ^ e)) by (apply Qlt_le_weak, pow2_positive).
    destruct s; reflexivity.
Qed.

(** ** The regime by the values of the computed figures *)

Ltac read_cmp G :=
  match type of G with
  | true = true <-> _ => apply proj1 in G; specialize (G eq_refl)
  | false = true <-> _ =>
      let C := fresh "C" in
      apply proj2 in G;
      assert (C : ~ _) by (intros C; apply G in C; discriminate C);
      clear G; rename C into G
  end.

Lemma In_thresholds (z : Z) :
  existsb (Z.eqb z) thresholds = true -> In z thresholds.
Proof.
  intros H. apply existsb_exists in H. destruct H as (y & Hy & E).
  apply Z.eqb_eq in E. subst y. exact Hy.
Qed.

Lemma trend_of_value (data : gmap string Quote64.t) (avg : Q) :
  binary64 (avgChange64 data) -> valueOf (avgChange64 data) = Some avg ->
  trend_by_value avg (trendLabel (macroOf64 data)).
Proof.
  intros Ba Va. rewrite trendLabel64_eq. cbv zeta.
  pose proof (gt_threshold _ _ 3 Ba Va (In_thresholds 3 eq_refl)) as G3.
  pose proof (gt_threshold _ _ 1 Ba Va (In_thresholds 1 eq_refl)) as G1.
  pose proof (lt_threshold _ _ (-3) Ba Va (In_thresholds (-3) eq_refl)) as L3.
  pose proof (lt_threshold _ _ (-1) Ba Va (In_thresholds (-1) eq_refl)) as L1.
  unfold inject_Z in *.
  destruct (Float64.gt (avgChange64 data) (Float64.of_Z 3)),
    (Float64.gt (avgChange64 data) (Float64.of_Z 1)),
    (Float64.lt (avgChange64 data) (Float64.of_Z (-3))),
    (Float64.lt (avgChange64 data) (Float64.of_Z (-1)));
    read_cmp G3; read_cmp G1; read_cmp L3; read_cmp L1;
    unfold trend_by_value; repeat split; intros; try reflexivity; exfalso; lra.
Qed.

Lemma volatility_of_value (data : gmap string Quote64.t) (avg : Q) :
  binary64 (avgChange64 data) -> valueOf (avgChange64 data) = Some avg ->
  volatility_by_value avg (volaLabel (macroOf64 data)).
Proof.
  intros Ba Va. rewrite volaLabel64_eq. cbv zeta.
  destruct (abs_value _ _ Va) as (va & Vabs & Ea).
  pose proof (abs_binary64 _ Ba) as Babs.
  pose proof (gt_threshold _ _ 4 Babs Vabs (In_thresholds 4 eq_refl)) as G4.
  pose proof (gt_threshold _ _ 2 Babs Vabs (In_thresholds 2 eq_refl)) as G2.
  rewrite Ea in G4, G2. unfold inject_Z in *.
  set (a := Qabs avg) in *.
  destruct (Float64.gt (Float64.abs (avgChange64 data)) (Float64.of_Z 4)),
    (Float64.gt (Float64.abs (avgChange64 data)) (Float64.of_Z 2));
    read_cmp G4; read_cmp G2;
    unfold volatility_by_value; fold a; repeat split; intros; try reflexivity; exfalso; lra.
Qed.

Lemma liquidity_of_value (data : gmap string Quote64.t) (total : Q) :
  binary64 (totalVolume64 data) -> valueOf (totalVolume64 data) = Some total ->
  liquidity_by_value total (liqLabel (macroOf64 data)).
Proof.
  intros Bt Vt. rewrite liqLabel64_eq. cbv zeta.
  pose proof (gt_threshold _ _ 50000000000 Bt Vt (In_thresholds 50000000000 eq_refl)) as G50.
  pose proof (gt_threshold _ _ 20000000000 Bt Vt (In_thresholds 20000000000 eq_refl)) as G20.
  pose proof (gt_threshold _ _ 0 Bt Vt (In_thresholds 0 eq_refl)) as G0.
  unfold inject_Z in *.
  destruct (Float64.gt (totalVolume64 data) (Float64.of_Z 50000000000)),
    (Float64.gt (totalVolume64 data) (Float64.of_Z 20000000000)),
    (Float64.gt (totalVolume64 data) (Float64.of_Z 0));
    read_cmp G50; read_cmp G20; read_cmp G0;
    unfold liquidity_by_value, inject_Z; repeat split; intros; try reflexivity;
    exfalso; lra.
Qed.

(** X24: the regime by the values of the figures the engine computes.  When
    the computed average change is a finite double, the trend is Strong
    Bull for a value above 3, Mild Bull above 1 and up to 3, Strong Bear
    below -3, Mild Bear from -3 to below -1 and Sideways from -1 to 1, and
    the volatility is High Stress for a magnitude above 4, Elevated above 2
    and up to 4 and Calm up to 2; when the computed total volume is a
    finite double, the liquidity is Deep for a value above 50e9, Normal
    above 20e9, Thinner above 0 and Unknown otherwise.  A sum that
    overflowed to [Infinity] gives Strong Bull, High Stress and Deep, to
    [-Infinity] Strong Bear, High Stress and Unknown; [NaN] gives Sideways,
    Calm and Unknown. *)
Theorem X24_regime_by_value (data : gmap string Quote64.t) :
  let avgChange := avgChange64 data in
  let totalVolume := totalVolume64 data in
  let m := macroOf64 data in
  (forall avg : Q,
     binary64 avgChange -> valueOf avgChange = Some avg ->
     trend_by_value avg (trendLabel m) /\ volatility_by_value avg (volaLabel m))
  /\ (forall total : Q,
        binary64 totalVolume -> valueOf totalVolume = Some total ->
        liquidity_by_value total (liqLabel m))
  /\ (avgChange = S754_infinity false ->
      trendLabel m = "Strong Bull" /\ volaLabel m = "High Stress")
  /\ (avgChange = S754_infinity true ->
      trendLabel m = "Strong Bear" /\ volaLabel m = "High Stress")
  /\ (avgChange = S754_nan -> trendLabel m = "Sideways" /\ volaLabel m = "Calm")
  /\ (totalVolume = S754_infinity false -> liqLabel m = "Deep")
  /\ (totalVolume = S754_infinity true \/ totalVolume = S754_nan ->
      liqLabel m = "Unknown").
Proof.
  cbv zeta.
  split; [intros avg Ba Va; split;
          [apply trend_of_value | apply volatility_of_value]; assumption |].
  split; [intros total Bt Vt; apply liquidity_of_value; assumption |].
  rewrite trendLabel64_eq, volaLabel64_eq, liqLabel64_eq. cbv zeta.
  split; [intros ->; split; reflexivity |].
  split; [intros ->; split; reflexivity |].
  split; [intros ->; split; reflexivity |].
  split; [intros ->; reflexivity |].
  intros [-> | ->]; reflexivity.
Qed.

Lemma X24_regime_by_value_witness :
  let data := snapshot64 (Some (Float64.of_Z 6)) (Some (Float64.of_binary 1 (-60)))
                (Some (Float64.of_Z 20000000000)) (Some (Float64.of_binary 1 (-24))) in
  exists avg total,
    valueOf (avgChange64 data) = Some avg /\ (avg == 3)%Q
    /\ valueOf (totalVolume64 data) = Some total /\ (total == inject_Z 20000000000)%Q
    /\ trendLabel (macroOf64 data) = "Mild Bull"
    /\ volaLabel (macroOf64 data) = "Elevated"
    /\ liqLabel (macroOf64 data) = "Thinner".
Proof.
  cbv zeta.
  set (data := snapshot64 (Some (Float64.of_Z 6)) (Some (Float64.of_binary 1 (-60)))
                 (Some (Float64.of_Z 20000000000)) (Some (Float64.of_binary 1 (-24)))).
  destruct (X24_regime_by_value data) as (Ha & Ht & _).
  eexists. eexists.
  split; [vm_compute; reflexivity |].
  split; [vm_compute; reflexivity |].
  split; [vm_compute; reflexivity |].
  split; [vm_compute; reflexivity |].
  destruct (Ha _ eq_refl eq_refl) as ((_ & Hmild & _) & (_ & Helevated & _)).
  destruct (Ht _ eq_refl eq_refl) as (_ & _ & Hthin & _).
  split; [apply Hmild; split; vm_compute; [reflexivity | discriminate] |].
  split; [apply Helevated; split; vm_compute; [reflexivity | discriminate] |].
  apply Hthin; split; vm_compute; [reflexivity | discriminate].
Defined.

